(** * ZombiesPlanet physics core: a shallow embedding of
      src/physics/{PhysicsWorld,Collider,PhysicsBody,PlanetBody}.js

    JavaScript numbers are modelled as real numbers (idealised arithmetic:
    no rounding, no NaN, no infinities).  Every division the source performs
    is guarded by the source itself (a positive mass, a non-zero inverse-mass
    sum, a length floored at epsilon, [length() || 1]), so the total division
    of [R] is never exercised on a zero divisor.

    The three.js classes the source calls (Vector3, Box3, Sphere) are not part
    of the repository; module [Three] states the operations used, following
    the library's implementation.

    The systems that drive the physics core are embedded as far as they
    touch it: the clock (engine/Time.js), the frame's time step
    (engine/Engine.js), the player's velocity control (player/Movement.js),
    the player's health and planet clipping check (player/Player.js) and the
    enemy manager's choice of a spawn point (entities/EnemyManager.js).
    What comes from outside the program (the animation timestamp,
    [performance.now()], [Math.random()]) is a parameter of the function
    that reads it. *)

From Stdlib Require Import Reals Lra Lia List Bool Psatz.
Import ListNotations.
Open Scope R_scope.

(** ** JavaScript numeric comparisons and truthiness *)

Definition ltb (a b : R) : bool := if Rlt_dec a b then true else false.
Definition leb (a b : R) : bool := if Rle_dec a b then true else false.
Definition eqb (a b : R) : bool := if Req_dec_T a b then true else false.

(** [x || d] for a number [x]: zero is falsy. *)
Definition num_or (x d : R) : R := if eqb x 0 then d else x.

(** [x || d] for a property that may be [undefined]. *)
Definition opt_or (x : option R) (d : R) : R :=
  match x with
  | Some v => num_or v d
  | None => d
  end.

(** ** three.js *)

Record Vector3 : Type := vec3 { vx : R; vy : R; vz : R }.

Module Three.

Definition zero : Vector3 := vec3 0 0 0.

Definition add (a b : Vector3) : Vector3 :=
  vec3 (vx a + vx b) (vy a + vy b) (vz a + vz b).

Definition sub (a b : Vector3) : Vector3 :=
  vec3 (vx a - vx b) (vy a - vy b) (vz a - vz b).

(** [new Vector3().subVectors(a, b)] *)
Definition subVectors (a b : Vector3) : Vector3 := sub a b.

Definition multiplyScalar (a : Vector3) (s : R) : Vector3 :=
  vec3 (vx a * s) (vy a * s) (vz a * s).

(** [divideScalar(s)] is [multiplyScalar(1 / s)]. *)
Definition divideScalar (a : Vector3) (s : R) : Vector3 :=
  multiplyScalar a (1 / s).

Definition dot (a b : Vector3) : R :=
  vx a * vx b + vy a * vy b + vz a * vz b.

Definition lengthSq (a : Vector3) : R := dot a a.

Definition length (a : Vector3) : R := sqrt (lengthSq a).

(** [normalize()] is [divideScalar(length() || 1)]: the zero vector stays
    the zero vector. *)
Definition normalize (a : Vector3) : Vector3 :=
  divideScalar a (num_or (length a) 1).

Definition distanceToSquared (a b : Vector3) : R := lengthSq (sub a b).

Definition distanceTo (a b : Vector3) : R := sqrt (distanceToSquared a b).

(** [clamp(min, max)], component-wise [max(min.c, min(max.c, c))]. *)
Definition clamp (a lo hi : Vector3) : Vector3 :=
  vec3 (Rmax (vx lo) (Rmin (vx hi) (vx a)))
       (Rmax (vy lo) (Rmin (vy hi) (vy a)))
       (Rmax (vz lo) (Rmin (vz hi) (vz a))).

Record Sphere : Type := mkSphere { center : Vector3; sradius : R }.

Record Box3 : Type := mkBox3 { bmin : Vector3; bmax : Vector3 }.

(** [Sphere.intersectsSphere]: squared distance against the squared radius
    sum, touching spheres included. *)
Definition sphereIntersectsSphere (s o : Sphere) : bool :=
  let radiusSum := sradius s + sradius o in
  leb (distanceToSquared (center o) (center s)) (radiusSum * radiusSum).

(** [Box3.intersectsBox]: false as soon as one of the six splitting planes
    separates the boxes. *)
Definition boxIntersectsBox (b o : Box3) : bool :=
  negb (ltb (vx (bmax o)) (vx (bmin b)) || ltb (vx (bmax b)) (vx (bmin o))
     || ltb (vy (bmax o)) (vy (bmin b)) || ltb (vy (bmax b)) (vy (bmin o))
     || ltb (vz (bmax o)) (vz (bmin b)) || ltb (vz (bmax b)) (vz (bmin o))).

(** [Box3.intersectsSphere]: closest point of the box to the sphere centre. *)
Definition boxIntersectsSphere (b : Box3) (s : Sphere) : bool :=
  let closest := clamp (center s) (bmin b) (bmax b) in
  leb (distanceToSquared closest (center s)) (sradius s * sradius s).

End Three.

(** ** Collider.js *)

(** A [SphereCollider] keeps [sphere.center] as the very object [position]
    and [sphere.radius] as a copy of [radius] that is never reassigned, so the
    three.js sphere is read off the two fields.  A [BoxCollider] stores its
    [Box3], recomputed by [updateBox]. *)
Inductive Collider : Type :=
| SphereCollider (position : Vector3) (radius : R)
| BoxCollider (position : Vector3) (halfExtents : Vector3) (box : Three.Box3).

Record CollisionInfo : Type := mkInfo {
  normal : Vector3;
  depth : R;
  point : Vector3
}.

Module ColliderM.

Definition position (c : Collider) : Vector3 :=
  match c with
  | SphereCollider p _ => p
  | BoxCollider p _ _ => p
  end.

Definition updateBox (p h : Vector3) : Three.Box3 :=
  Three.mkBox3 (Three.sub p h) (Three.add p h).

Definition newSphereCollider (p : Vector3) (r : R) : Collider :=
  SphereCollider p r.

Definition newBoxCollider (p h : Vector3) : Collider :=
  BoxCollider p h (updateBox p h).

Definition updatePosition (c : Collider) (p : Vector3) : Collider :=
  match c with
  | SphereCollider _ r => SphereCollider p r
  | BoxCollider _ h _ => BoxCollider p h (updateBox p h)
  end.

Definition sphereOf (p : Vector3) (r : R) : Three.Sphere := Three.mkSphere p r.

Definition intersects (this other : Collider) : bool :=
  match this, other with
  | SphereCollider p r, SphereCollider p' r' =>
      Three.sphereIntersectsSphere (sphereOf p r) (sphereOf p' r')
  | SphereCollider p r, BoxCollider _ _ b' =>
      Three.boxIntersectsSphere b' (sphereOf p r)
  | BoxCollider _ _ b, BoxCollider _ _ b' =>
      Three.boxIntersectsBox b b'
  | BoxCollider _ _ b, SphereCollider p' r' =>
      Three.boxIntersectsSphere b (sphereOf p' r')
  end.

(** [BoxCollider.projectOntoAxis]: the pair (min, max). *)
Definition projectOntoAxis (p h axis : Vector3) : R * R :=
  let center := Three.dot p axis in
  let radius := Rabs (vx h * vx axis) + Rabs (vy h * vy axis)
                + Rabs (vz h * vz axis) in
  (center - radius, center + radius).

Definition overlapOn (p h p' h' axis : Vector3) : R :=
  let proj1 := projectOntoAxis p h axis in
  let proj2 := projectOntoAxis p' h' axis in
  Rmin (snd proj1) (snd proj2) - Rmax (fst proj1) (fst proj2).

Definition axes : list Vector3 := [vec3 1 0 0; vec3 0 1 0; vec3 0 0 1].

(** The [for (const axis of axes)] loop of the box-box case.  [minDepth] is
    [None] while it still holds [Infinity]; the result is [None] when the
    loop returns [null]. *)
Fixpoint satLoop (p h p' h' : Vector3) (todo : list Vector3)
         (minDepth : option R) (minAxis : Vector3)
  : option (option R * Vector3) :=
  match todo with
  | [] => Some (minDepth, minAxis)
  | axis :: rest =>
      let overlap := overlapOn p h p' h' axis in
      if leb overlap 0 then None
      else
        let smaller := match minDepth with
                       | None => true
                       | Some d => ltb overlap d
                       end in
        if smaller then
          let centerDelta := Three.subVectors p' p in
          let oriented := if ltb (Three.dot centerDelta axis) 0
                          then Three.multiplyScalar axis (-1)
                          else axis in
          satLoop p h p' h' rest (Some overlap) oriented
        else satLoop p h p' h' rest minDepth minAxis
  end.

(** Box (receiver) against sphere. *)
Definition boxSphereInfo (p h : Vector3) (b : Three.Box3)
           (p' : Vector3) (r' : R) : option CollisionInfo :=
  if negb (Three.boxIntersectsSphere b (sphereOf p' r')) then None
  else
    let closestPoint := Three.clamp p' (Three.bmin b) (Three.bmax b) in
    let distance := Three.distanceTo closestPoint p' in
    if ltb r' distance then None
    else
      Some (mkInfo (Three.normalize (Three.subVectors p' closestPoint))
                   (r' - distance) closestPoint).

(** Box (receiver) against box.  After three axes [minDepth] is finite
    (lemma [satLoop_axes_finite]); the [None] arm below is unreachable. *)
Definition boxBoxInfo (p h : Vector3) (b : Three.Box3)
           (p' h' : Vector3) (b' : Three.Box3) : option CollisionInfo :=
  if negb (Three.boxIntersectsBox b b') then None
  else
    match satLoop p h p' h' axes None (vec3 1 0 0) with
    | None => None
    | Some (minDepth, minAxis) =>
        let contactPoint := Three.multiplyScalar (Three.add p p') (1 / 2) in
        Some (mkInfo minAxis
                     (match minDepth with Some d => d | None => 0 end)
                     contactPoint)
    end.

Definition getCollisionInfo (this other : Collider) : option CollisionInfo :=
  match this, other with
  | SphereCollider p r, SphereCollider p' r' =>
      let distance := Three.distanceTo p p' in
      let minDistance := r + r' in
      if ltb distance minDistance then
        let n := Three.normalize (Three.subVectors p p') in
        let d := minDistance - distance in
        let contactPoint := Three.add (Three.multiplyScalar n r) p in
        Some (mkInfo n d contactPoint)
      else None
  | SphereCollider p r, BoxCollider p' h' b' =>
      boxSphereInfo p' h' b' p r
  | BoxCollider p h b, BoxCollider p' h' b' =>
      boxBoxInfo p h b p' h' b'
  | BoxCollider p h b, SphereCollider p' r' =>
      boxSphereInfo p h b p' r'
  end.

End ColliderM.

(** ** PhysicsBody.js *)

(** The gameplay object a body points back to.  Physics reads [isJumping] and
    writes [surfaceNormal] (when the entity has that property). *)
Record Entity : Type := mkEntity {
  isJumping : bool;
  surfaceNormal : option Vector3
}.

(** Which [checkCollision] a body answers with: the inherited one
    ([PhysicsBody], [StaticBody], [BoxObstacle]), the plane test of
    [GroundPlane], or the constant [null] of [PlanetBody]. *)
Inductive BodyClass : Type :=
| PlainBody
| GroundPlane (planeNormal : Vector3) (planeOffset : R)
| PlanetClass.

Module Body.

Record PhysicsBody : Type := mkBody {
  position : Vector3;
  velocity : Vector3;
  acceleration : Vector3;
  forces : Vector3;
  mass : R;
  invMass : R;
  isStatic : bool;
  restitution : R;
  friction : R;
  onGround : bool;
  usesGravity : bool;
  entity : option Entity;
  maxFallSpeed : R;
  stabilizeThreshold : R;
  radius : option R;
  halfExtents : option Vector3;
  collider : option Collider;
  class : BodyClass
}.

Definition isPlanet (b : PhysicsBody) : bool :=
  match class b with PlanetClass => true | _ => false end.

Definition set_position (b : PhysicsBody) (p : Vector3) : PhysicsBody :=
  mkBody p (velocity b) (acceleration b) (forces b) (mass b) (invMass b)
         (isStatic b) (restitution b) (friction b) (onGround b)
         (usesGravity b) (entity b) (maxFallSpeed b) (stabilizeThreshold b)
         (radius b) (halfExtents b) (collider b) (class b).

Definition set_velocity (b : PhysicsBody) (v : Vector3) : PhysicsBody :=
  mkBody (position b) v (acceleration b) (forces b) (mass b) (invMass b)
         (isStatic b) (restitution b) (friction b) (onGround b)
         (usesGravity b) (entity b) (maxFallSpeed b) (stabilizeThreshold b)
         (radius b) (halfExtents b) (collider b) (class b).

Definition set_acceleration (b : PhysicsBody) (a : Vector3) : PhysicsBody :=
  mkBody (position b) (velocity b) a (forces b) (mass b) (invMass b)
         (isStatic b) (restitution b) (friction b) (onGround b)
         (usesGravity b) (entity b) (maxFallSpeed b) (stabilizeThreshold b)
         (radius b) (halfExtents b) (collider b) (class b).

Definition set_forces (b : PhysicsBody) (f : Vector3) : PhysicsBody :=
  mkBody (position b) (velocity b) (acceleration b) f (mass b) (invMass b)
         (isStatic b) (restitution b) (friction b) (onGround b)
         (usesGravity b) (entity b) (maxFallSpeed b) (stabilizeThreshold b)
         (radius b) (halfExtents b) (collider b) (class b).

Definition set_onGround (b : PhysicsBody) (g : bool) : PhysicsBody :=
  mkBody (position b) (velocity b) (acceleration b) (forces b) (mass b)
         (invMass b) (isStatic b) (restitution b) (friction b) g
         (usesGravity b) (entity b) (maxFallSpeed b) (stabilizeThreshold b)
         (radius b) (halfExtents b) (collider b) (class b).

Definition set_entity (b : PhysicsBody) (e : option Entity) : PhysicsBody :=
  mkBody (position b) (velocity b) (acceleration b) (forces b) (mass b)
         (invMass b) (isStatic b) (restitution b) (friction b) (onGround b)
         (usesGravity b) e (maxFallSpeed b) (stabilizeThreshold b)
         (radius b) (halfExtents b) (collider b) (class b).

Definition set_collider (b : PhysicsBody) (c : option Collider) : PhysicsBody :=
  mkBody (position b) (velocity b) (acceleration b) (forces b) (mass b)
         (invMass b) (isStatic b) (restitution b) (friction b) (onGround b)
         (usesGravity b) (entity b) (maxFallSpeed b) (stabilizeThreshold b)
         (radius b) (halfExtents b) c (class b).

Definition set_radius (b : PhysicsBody) (r : option R) : PhysicsBody :=
  mkBody (position b) (velocity b) (acceleration b) (forces b) (mass b)
         (invMass b) (isStatic b) (restitution b) (friction b) (onGround b)
         (usesGravity b) (entity b) (maxFallSpeed b) (stabilizeThreshold b)
         r (halfExtents b) (collider b) (class b).

Definition set_class (b : PhysicsBody) (k : BodyClass) : PhysicsBody :=
  mkBody (position b) (velocity b) (acceleration b) (forces b) (mass b)
         (invMass b) (isStatic b) (restitution b) (friction b) (onGround b)
         (usesGravity b) (entity b) (maxFallSpeed b) (stabilizeThreshold b)
         (radius b) (halfExtents b) (collider b) k.

(** [if (body.collider) body.collider.updatePosition(body.position)] *)
Definition syncCollider (b : PhysicsBody) : PhysicsBody :=
  set_collider b
    (option_map (fun c => ColliderM.updatePosition c (position b)) (collider b)).

(** The constructor's [options] object; [None] is an absent property.
    ([rotation] is stored by the constructor and never read by the physics
    code; it is left out.) *)
Record Options : Type := mkOptions {
  o_position : option Vector3;
  o_velocity : option Vector3;
  o_acceleration : option Vector3;
  o_mass : option R;
  o_isStatic : option bool;
  o_restitution : option R;
  o_friction : option R;
  o_usesGravity : option bool;
  o_entity : option Entity;
  o_radius : option R;
  o_halfExtents : option Vector3;
  o_normal : option Vector3;
  o_offset : option R;
  o_gravityStrength : option R
}.

Definition orElse {A : Type} (x : option A) (d : A) : A :=
  match x with Some v => v | None => d end.

(** [new PhysicsBody(options)] *)
Definition newPhysicsBody (o : Options) : PhysicsBody :=
  let pos := orElse (o_position o) Three.zero in
  let mass0 := orElse (o_mass o) 1 in
  let invMass0 := if ltb 0 mass0 then 1 / mass0 else 0 in
  let static := orElse (o_isStatic o) false in
  let rad := match o_radius o, o_halfExtents o with
             | Some r, _ => Some r
             | None, Some _ => None
             | None, None => Some 1
             end in
  let hext := match o_radius o, o_halfExtents o with
              | None, Some h => Some h
              | _, _ => None
              end in
  let coll := match o_radius o, o_halfExtents o with
              | Some r, _ => ColliderM.newSphereCollider pos r
              | None, Some h => ColliderM.newBoxCollider pos h
              | None, None => ColliderM.newSphereCollider pos 1
              end in
  mkBody pos
         (orElse (o_velocity o) Three.zero)
         (orElse (o_acceleration o) Three.zero)
         Three.zero
         (if static then 0 else mass0)
         (if static then 0 else invMass0)
         static
         (orElse (o_restitution o) (1 / 10))
         (orElse (o_friction o) (1 / 10))
         false
         (orElse (o_usesGravity o) true)
         (o_entity o)
         30
         (5 / 100)
         rad hext (Some coll) PlainBody.

Definition staticOptions (o : Options) : Options :=
  mkOptions (o_position o) (o_velocity o) (o_acceleration o) (Some 0)
            (Some true) (o_restitution o) (o_friction o) (Some false)
            (o_entity o) (o_radius o) (o_halfExtents o) (o_normal o)
            (o_offset o) (o_gravityStrength o).

(** [new StaticBody(options)] forces [isStatic], [mass = 0] and
    [usesGravity = false] before delegating. *)
Definition newStaticBody (o : Options) : PhysicsBody :=
  newPhysicsBody (staticOptions o).

Definition newGroundPlane (o : Options) : PhysicsBody :=
  set_class (newStaticBody o)
    (GroundPlane (orElse (o_normal o) (vec3 0 1 0)) (orElse (o_offset o) 0)).

Definition newBoxObstacle (o : Options) : PhysicsBody :=
  let o' := match o_halfExtents o with
            | Some _ => o
            | None =>
                mkOptions (o_position o) (o_velocity o) (o_acceleration o)
                  (o_mass o) (o_isStatic o) (o_restitution o) (o_friction o)
                  (o_usesGravity o) (o_entity o) (o_radius o)
                  (Some (vec3 1 1 1)) (o_normal o) (o_offset o)
                  (o_gravityStrength o)
            end in
  newStaticBody o'.

Definition applyForce (b : PhysicsBody) (f : Vector3) : PhysicsBody :=
  if isStatic b then b else set_forces b (Three.add (forces b) f).

Definition applyImpulse (b : PhysicsBody) (impulse : Vector3) : PhysicsBody :=
  if isStatic b then b
  else set_velocity b
         (Three.add (velocity b) (Three.multiplyScalar impulse (invMass b))).

Definition integrateForces (b : PhysicsBody) (timeStep : R) : PhysicsBody :=
  if isStatic b then b
  else
    let acc := Three.multiplyScalar (forces b) (invMass b) in
    let v := Three.add (velocity b) (Three.multiplyScalar acc timeStep) in
    let v' := if ltb (vy v) (- maxFallSpeed b)
              then vec3 (vx v) (- maxFallSpeed b) (vz v) else v in
    set_forces (set_velocity (set_acceleration b acc) v') Three.zero.

Definition stabilize (b : PhysicsBody) : PhysicsBody :=
  let t := stabilizeThreshold b in
  let v := velocity b in
  let x1 := if ltb (Rabs (vx v)) t then 0 else vx v in
  let y1 := if ltb (Rabs (vy v)) t then 0 else vy v in
  let z1 := if ltb (Rabs (vz v)) t then 0 else vz v in
  let v1 := vec3 x1 y1 z1 in
  let v2 :=
    if onGround b then
      let horizontalSpeed := sqrt (x1 * x1 + z1 * z1) in
      if ltb horizontalSpeed (t * 2) then vec3 0 y1 0 else v1
    else v1 in
  set_velocity b v2.

Definition integrateVelocity (b : PhysicsBody) (timeStep : R) : PhysicsBody :=
  if isStatic b then b
  else
    let b1 := set_position b
                (Three.add (position b)
                           (Three.multiplyScalar (velocity b) timeStep)) in
    let b2 := stabilize b1 in
    (* this.collider.updatePosition(this.position) *)
    syncCollider b2.

(** [this.checkCollision(other)], dispatched on the receiver's class.
    [getCollisionInfo(null)] matches none of the [instanceof] tests and
    returns [null]. *)
Definition checkCollision (this other : PhysicsBody) : option CollisionInfo :=
  match class this with
  | PlainBody =>
      match collider this, collider other with
      | Some c, Some c' => ColliderM.getCollisionInfo c c'
      | _, _ => None
      end
  | GroundPlane n off =>
      match radius other with
      | Some r =>
          let distance := Three.dot (position other) n - off in
          if ltb distance r then
            Some (mkInfo n (r - distance)
                    (Three.sub (position other)
                               (Three.multiplyScalar n distance)))
          else None
      | None => None
      end
  | PlanetClass => None
  end.

End Body.

(** ** PlanetBody.js *)

Module Planet.

(** A [PlanetBody] is a [StaticBody] ([body]) with the radial-gravity
    parameters below.  None of them is written after construction. *)
Record PlanetBody : Type := mkPlanet {
  body : Body.PhysicsBody;
  radius : R;
  center : Vector3;
  gravityStrength : R;
  surfaceOffset : R;
  snapForce : R;
  groundThreshold : R;
  epsilon : R;
  minSafeDistance : R;
  southPoleRegion : R
}.

(** [new PlanetBody(options)] *)
Definition newPlanetBody (o : Body.Options) : PlanetBody :=
  let r := opt_or (Body.o_radius o) 20 in
  mkPlanet
    (Body.set_class (Body.set_radius (Body.newStaticBody o) (Some r))
                    PlanetClass)
    r
    (Body.orElse (Body.o_position o) Three.zero)
    (opt_or (Body.o_gravityStrength o) 25)
    (2 / 10)
    (5 / 10)
    (3 / 10)
    (1 / 1000000)
    (r * (9 / 10))
    (r * (1 / 10)).

(** Phase 1 of [PhysicsWorld.fixedUpdate], for one body: the emergency
    correction for a body deep inside the planet. *)
Definition emergencyCorrection (p : PlanetBody) (b : Body.PhysicsBody)
  : Body.PhysicsBody :=
  let distVector := Three.subVectors (Body.position b) (center p) in
  let distance := Three.length distVector in
  let minSafe := radius p * (9 / 10) in
  if ltb distance minSafe then
    let safePos :=
      Three.add (center p)
        (Three.multiplyScalar (Three.normalize distVector)
           (minSafe + opt_or (Body.radius b) (5 / 10))) in
    Body.syncCollider (Body.set_position b safePos)
  else b.

Definition applyGravitationalForce (p : PlanetBody) (b : Body.PhysicsBody)
  : Body.PhysicsBody :=
  if negb (Body.usesGravity b) then b
  else
    let toCenter := Three.subVectors (center p) (Body.position b) in
    let distanceSq := Rmax (Three.lengthSq toCenter) (epsilon p) in
    let distance := sqrt distanceSq in
    let gravityDir := Three.divideScalar toCenter distance in
    let force :=
      Three.multiplyScalar gravityDir (Body.mass b * gravityStrength p) in
    Body.applyForce b force.

(** The safety teleport inside [handlePlanetSurfaceInteraction].  It
    returns the body and the vector [fromCenter] as the branch leaves it:
    [normalize()] and [multiplyScalar()] work in place, so [fromCenter] is
    first made the unit direction, then scaled to the safe offset, then
    normalized again under the name [radialDir]. *)
Definition safetyTeleport (p : PlanetBody) (b : Body.PhysicsBody)
           (fromCenter : Vector3) : Body.PhysicsBody * Vector3 :=
  (* fromCenter.normalize().multiplyScalar(...) *)
  let fromCenter1 :=
    Three.multiplyScalar (Three.normalize fromCenter)
      (minSafeDistance p + opt_or (Body.radius b) (5 / 10)) in
  let safePos := Three.add (center p) fromCenter1 in
  let b1 := Body.syncCollider (Body.set_position b safePos) in
  (* const radialDir = fromCenter.normalize() *)
  let radialDir := Three.normalize fromCenter1 in
  let normalVel := Three.dot (Body.velocity b1) radialDir in
  let b2 :=
    if ltb normalVel 0 then
      Body.set_velocity b1
        (Three.sub (Body.velocity b1)
                   (Three.multiplyScalar radialDir normalVel))
    else b1 in
  (b2, radialDir).

Definition writeSurfaceNormal (b : Body.PhysicsBody) (n : Vector3)
  : Body.PhysicsBody :=
  match Body.entity b with
  | Some e =>
      match surfaceNormal e with
      | Some _ => Body.set_entity b (Some (mkEntity (isJumping e) (Some n)))
      | None => b
      end
  | None => b
  end.

Definition entityIsJumping (b : Body.PhysicsBody) : bool :=
  match Body.entity b with
  | Some e => isJumping e
  | None => false
  end.

(** The grounded branch: cancel inward velocity, friction, pole damping. *)
Definition groundState (b : Body.PhysicsBody) (radialDir : Vector3)
  : Body.PhysicsBody :=
  let normalVel := Three.dot (Body.velocity b) radialDir in
  let v1 := if ltb normalVel 0
            then Three.sub (Body.velocity b)
                           (Three.multiplyScalar radialDir normalVel)
            else Body.velocity b in
  let frictionFactor := 98 / 100 in
  let v2 := Three.multiplyScalar v1 frictionFactor in
  let southVector := vec3 0 (-1) 0 in
  let dotWithSouth := Three.dot radialDir southVector in
  let v3 := if ltb (95 / 100) dotWithSouth
            then Three.multiplyScalar v2 (95 / 100) else v2 in
  Body.set_velocity b v3.

(** [handlePlanetSurfaceInteraction] from "Calculate radial direction" on:
    surface normal, ground classification, push force, ground state.
    [fromCenter] and [distance] are the locals as the safety check leaves
    them. *)
Definition surfaceResponse (p : PlanetBody) (b1 : Body.PhysicsBody)
           (fromCenter : Vector3) (distance : R) : Body.PhysicsBody :=
  let radialDir := Three.divideScalar fromCenter distance in
  let b2 := writeSurfaceNormal b1 radialDir in
  let bodyRadius := opt_or (Body.radius b2) (5 / 10) in
  let idealDistance := radius p + surfaceOffset p + bodyRadius in
  let distanceError := idealDistance - distance in
  let b3 := Body.set_onGround b2
              (ltb (Rabs distanceError) (groundThreshold p)) in
  let jumping := entityIsJumping b3 in
  let b4 :=
    if ltb (1 / 100) distanceError then
      let pushFactor := if jumping then 1 / 10 else snapForce p in
      Body.applyForce b3
        (Three.multiplyScalar radialDir
           (distanceError * pushFactor * Body.mass b3))
    else b3 in
  if Body.onGround b4 then groundState b4 radialDir else b4.

Definition handlePlanetSurfaceInteraction (p : PlanetBody)
           (b : Body.PhysicsBody) (deltaTime : R) : Body.PhysicsBody :=
  if negb (Body.usesGravity b) then b
  else
    let fromCenter0 := Three.subVectors (Body.position b) (center p) in
    let distance := Rmax (Three.length fromCenter0) (epsilon p) in
    let '(b1, fromCenter) :=
      if ltb distance (minSafeDistance p)
      then safetyTeleport p b fromCenter0
      else (b, fromCenter0) in
    surfaceResponse p b1 fromCenter distance.

End Planet.

(** ** PhysicsWorld.js *)

Module World.

(** [bodies] and [staticBodies] hold the body objects themselves; the model
    holds each body's current state at its index.  [maxSubSteps] is the
    loop bound of [update], a natural number (3 in the constructor).
    [planetBody] is the installed planet, if any. *)
Record PhysicsWorld : Type := mkWorld {
  bodies : list Body.PhysicsBody;
  staticBodies : list Body.PhysicsBody;
  gravity : Vector3;
  accumulator : R;
  fixedTimeStep : R;
  groundThreshold : R;
  groundRayDistance : R;
  planetBody : option Planet.PlanetBody;
  maxSubSteps : nat;
  debugDraw : bool
}.

(** [new PhysicsWorld(engine)], from [engine.config]. *)
Definition newPhysicsWorld (configGravity configPhysicsFPS : R) : PhysicsWorld :=
  mkWorld [] [] (vec3 0 configGravity 0) 0 (1 / configPhysicsFPS)
          (15 / 100) (2 / 10) None 3 false.

Definition set_bodies (w : PhysicsWorld) (l : list Body.PhysicsBody) :=
  mkWorld l (staticBodies w) (gravity w) (accumulator w) (fixedTimeStep w)
          (groundThreshold w) (groundRayDistance w) (planetBody w)
          (maxSubSteps w) (debugDraw w).

Definition set_staticBodies (w : PhysicsWorld) (l : list Body.PhysicsBody) :=
  mkWorld (bodies w) l (gravity w) (accumulator w) (fixedTimeStep w)
          (groundThreshold w) (groundRayDistance w) (planetBody w)
          (maxSubSteps w) (debugDraw w).

Definition set_accumulator (w : PhysicsWorld) (a : R) :=
  mkWorld (bodies w) (staticBodies w) (gravity w) a (fixedTimeStep w)
          (groundThreshold w) (groundRayDistance w) (planetBody w)
          (maxSubSteps w) (debugDraw w).

Definition set_planetBody (w : PhysicsWorld) (p : option Planet.PlanetBody) :=
  mkWorld (bodies w) (staticBodies w) (gravity w) (accumulator w)
          (fixedTimeStep w) (groundThreshold w) (groundRayDistance w) p
          (maxSubSteps w) (debugDraw w).

(** [addBody] for an argument that is a [PhysicsBody]. *)
Definition addBody (w : PhysicsWorld) (b : Body.PhysicsBody) : PhysicsWorld :=
  if Body.isStatic b
  then set_staticBodies w (staticBodies w ++ [b])
  else set_bodies w (bodies w ++ [b]).

Definition setPlanetBody (w : PhysicsWorld) (p : Planet.PlanetBody)
  : PhysicsWorld :=
  set_planetBody w (Some p).

(** [clear()]; [playerBody] is [this.engine.player?.physicsBody]. *)
Definition clear (playerBody : option Body.PhysicsBody) (w : PhysicsWorld)
  : PhysicsWorld :=
  match playerBody with
  | Some pb =>
      set_staticBodies
        (set_bodies w (if Body.isStatic pb then [] else [pb]))
        (if Body.isStatic pb then [pb] else [])
  | None => set_staticBodies (set_bodies w []) []
  end.

Definition checkCollision (a b : Body.PhysicsBody) : bool :=
  match Body.collider a, Body.collider b with
  | Some ca, Some cb => ColliderM.intersects ca cb
  | _, _ =>
      let minDist := opt_or (Body.radius a) 0 + opt_or (Body.radius b) 0 in
      if leb minDist 0 then false
      else ltb (Three.distanceTo (Body.position a) (Body.position b)) minDist
  end.

(** The [if (collisionInfo) { ... }] branch of [resolveCollision]. *)
Definition resolveWithInfo (a b : Body.PhysicsBody) (info : CollisionInfo)
  : Body.PhysicsBody * Body.PhysicsBody :=
  let n := normal info in
  let relativeVelocity := Three.sub (Body.velocity a) (Body.velocity b) in
  let velAlongNormal := Three.dot relativeVelocity n in
  if ltb 0 velAlongNormal then (a, b)
  else
    let restitution := Rmin (num_or (Body.restitution a) 0)
                            (num_or (Body.restitution b) 0) in
    let j0 := - (1 + restitution) * velAlongNormal in
    let invMassA := num_or (Body.invMass a) 0 in
    let invMassB := num_or (Body.invMass b) 0 in
    let invMassSum := invMassA + invMassB in
    if eqb invMassSum 0 then (a, b)
    else
      let j := j0 / invMassSum in
      let impulse := Three.multiplyScalar n j in
      let a1 := if ltb 0 invMassA
                then Body.set_velocity a
                       (Three.add (Body.velocity a)
                                  (Three.multiplyScalar impulse invMassA))
                else a in
      let b1 := if ltb 0 invMassB
                then Body.set_velocity b
                       (Three.sub (Body.velocity b)
                                  (Three.multiplyScalar impulse invMassB))
                else b in
      if ltb 0 (depth info) then
        let gentleFactor := 1 / 10 in
        let correction := Three.multiplyScalar n (depth info * gentleFactor) in
        let a2 := if ltb 0 invMassA
                  then Body.syncCollider
                         (Body.set_position a1
                            (Three.add (Body.position a1)
                               (Three.multiplyScalar correction
                                  (invMassA / invMassSum))))
                  else a1 in
        let b2 := if ltb 0 invMassB
                  then Body.syncCollider
                         (Body.set_position b1
                            (Three.sub (Body.position b1)
                               (Three.multiplyScalar correction
                                  (invMassB / invMassSum))))
                  else b1 in
        (a2, b2)
      else (a1, b1).

(** The fallback sphere resolution at the end of [resolveCollision]. *)
Definition resolveFallback (a b : Body.PhysicsBody)
  : Body.PhysicsBody * Body.PhysicsBody :=
  let n := Three.normalize (Three.sub (Body.position a) (Body.position b)) in
  let relativeVelocity := Three.sub (Body.velocity a) (Body.velocity b) in
  let velAlongNormal := Three.dot relativeVelocity n in
  if ltb 0 velAlongNormal then (a, b)
  else
    let e := Rmin (num_or (Body.restitution a) (3 / 10))
                  (num_or (Body.restitution b) (3 / 10)) in
    let j := - (1 + e) * velAlongNormal in
    let invMassSum := num_or (Body.invMass a) 0 + num_or (Body.invMass b) 0 in
    if eqb invMassSum 0 then (a, b)
    else
      let impulse := j / invMassSum in
      let impulseVec := Three.multiplyScalar n impulse in
      let a1 := if ltb 0 (Body.invMass a)
                then Body.set_velocity a
                       (Three.add (Body.velocity a)
                          (Three.multiplyScalar impulseVec (Body.invMass a)))
                else a in
      let b1 := if ltb 0 (Body.invMass b)
                then Body.set_velocity b
                       (Three.sub (Body.velocity b)
                          (Three.multiplyScalar impulseVec (Body.invMass b)))
                else b in
      let minDist := opt_or (Body.radius a) (5 / 10)
                     + opt_or (Body.radius b) (5 / 10) in
      let dist := Three.distanceTo (Body.position a) (Body.position b) in
      let correction := Rmax (minDist - dist) 0 * (3 / 10) in
      if ltb 0 correction then
        let correctionVec := Three.multiplyScalar n correction in
        let corrA := Three.multiplyScalar correctionVec
                       (Body.invMass a / invMassSum) in
        let corrB := Three.multiplyScalar correctionVec
                       (Body.invMass b / invMassSum) in
        let a2 := if ltb 0 (Body.invMass a)
                  then Body.syncCollider
                         (Body.set_position a1
                            (Three.add (Body.position a1) corrA))
                  else a1 in
        let b2 := if ltb 0 (Body.invMass b)
                  then Body.syncCollider
                         (Body.set_position b1
                            (Three.sub (Body.position b1) corrB))
                  else b1 in
        (a2, b2)
      else (a1, b1).

Definition negateNormal (i : CollisionInfo) : CollisionInfo :=
  mkInfo (Three.multiplyScalar (normal i) (-1)) (depth i) (point i).

(** The collision info [resolveCollision] works with: A's answer, else B's
    with the normal inverted. *)
Definition collisionInfoFor (a b : Body.PhysicsBody) : option CollisionInfo :=
  match Body.checkCollision a b with
  | Some i => Some i
  | None => option_map negateNormal (Body.checkCollision b a)
  end.

Definition resolveCollision (a b : Body.PhysicsBody)
  : Body.PhysicsBody * Body.PhysicsBody :=
  match collisionInfoFor a b with
  | Some info => resolveWithInfo a b info
  | None => resolveFallback a b
  end.

Definition collidePair (a b : Body.PhysicsBody)
  : Body.PhysicsBody * Body.PhysicsBody :=
  if checkCollision a b then resolveCollision a b else (a, b).

(** Inner loop [for (j = i + 1; ...)]: body A against the later dynamic
    bodies, in index order. *)
Fixpoint collideWithLater (a : Body.PhysicsBody) (later : list Body.PhysicsBody)
  : Body.PhysicsBody * list Body.PhysicsBody :=
  match later with
  | [] => (a, [])
  | b :: rest =>
      let '(a1, b1) := collidePair a b in
      let '(a2, rest') := collideWithLater a1 rest in
      (a2, b1 :: rest')
  end.

(** Inner loop over [staticBodies], planets skipped. *)
Fixpoint collideWithStatics (a : Body.PhysicsBody) (ss : list Body.PhysicsBody)
  : Body.PhysicsBody * list Body.PhysicsBody :=
  match ss with
  | [] => (a, [])
  | s :: rest =>
      let '(a1, s1) := if Body.isPlanet s then (a, s) else collidePair a s in
      let '(a2, rest') := collideWithStatics a1 rest in
      (a2, s1 :: rest')
  end.

(** Outer loop [for (i = 0; i < this.bodies.length; i++)] of
    [detectCollisions], from index [i] on: [count] is [bodies.length - i]
    and [todo] the bodies from [i] on.  Returns those bodies and the static
    bodies. *)
Fixpoint detectFrom (count : nat) (todo : list Body.PhysicsBody)
         (ss : list Body.PhysicsBody)
  : list Body.PhysicsBody * list Body.PhysicsBody :=
  match count, todo with
  | S k, a :: later =>
      let '(a1, later1) := collideWithLater a later in
      let '(a2, ss1) := collideWithStatics a1 ss in
      let '(later2, ss2) := detectFrom k later1 ss1 in
      (a2 :: later2, ss2)
  | _, _ => (todo, ss)
  end.

Definition detectCollisions (w : PhysicsWorld) : PhysicsWorld :=
  let '(bs, ss) :=
    detectFrom (List.length (bodies w)) (bodies w) (staticBodies w) in
  set_staticBodies (set_bodies w bs) ss.

Definition set_vy (v : Vector3) (y : R) : Vector3 := vec3 (vx v) y (vz v).

Definition checkWorldBounds (w : PhysicsWorld) (b : Body.PhysicsBody)
  : Body.PhysicsBody :=
  match planetBody w with
  | Some _ => b
  | None =>
      if ltb (vy (Body.position b)) (groundThreshold w) then
        let b1 := if ltb (vy (Body.position b)) 0
                  then Body.set_position b
                         (set_vy (Body.position b) (5 / 100))
                  else b in
        if leb (vy (Body.velocity b1)) (1 / 10) then
          let b2 := Body.set_onGround b1 true in
          if ltb (vy (Body.velocity b2)) 0
          then Body.set_velocity b2 (set_vy (Body.velocity b2) 0)
          else b2
        else b1
      else Body.set_onGround b false
  end.

(** Phase 3 for one body. *)
Definition gravityAndForces (w : PhysicsWorld) (timeStep : R)
           (b : Body.PhysicsBody) : Body.PhysicsBody :=
  let b1 :=
    if Body.usesGravity b then
      match planetBody w with
      | Some p => Planet.applyGravitationalForce p b
      | None =>
          Body.applyForce b (Three.multiplyScalar (gravity w) (Body.mass b))
      end
    else b in
  Body.integrateForces b1 timeStep.

Definition fixedUpdate (timeStep : R) (w : PhysicsWorld) : PhysicsWorld :=
  (* 1. safety check for extreme planet penetration *)
  let w1 := match planetBody w with
            | Some p => set_bodies w (map (Planet.emergencyCorrection p) (bodies w))
            | None => w
            end in
  (* 2. integrate velocity *)
  let w2 := set_bodies w1
              (map (fun b => Body.integrateVelocity b timeStep) (bodies w1)) in
  (* 3. gravity, then forces *)
  let w3 := set_bodies w2 (map (gravityAndForces w2 timeStep) (bodies w2)) in
  (* 4. planet surface interaction *)
  let w4 := match planetBody w3 with
            | Some p =>
                set_bodies w3
                  (map (fun b => Planet.handlePlanetSurfaceInteraction p b timeStep)
                       (bodies w3))
            | None => w3
            end in
  (* 5. collisions *)
  let w5 := detectCollisions w4 in
  (* 6. flat-world bounds *)
  match planetBody w5 with
  | Some _ => w5
  | None => set_bodies w5 (map (checkWorldBounds w5) (bodies w5))
  end.

(** The [while] loop of [update]; [remaining] is [maxSubSteps - substep]. *)
Fixpoint subStepLoop (remaining : nat) (w : PhysicsWorld)
  : PhysicsWorld * nat :=
  match remaining with
  | O => (w, O)
  | S k =>
      if leb (fixedTimeStep w) (accumulator w) then
        let w1 := fixedUpdate (fixedTimeStep w) w in
        subStepLoop k (set_accumulator w1 (accumulator w1 - fixedTimeStep w1))
      else (w, remaining)
  end.

Definition update (deltaTime : R) (w : PhysicsWorld) : PhysicsWorld :=
  let cappedDelta := Rmin deltaTime (1 / 10) in
  let w0 := set_accumulator w (accumulator w + cappedDelta) in
  let '(w1, remaining) := subStepLoop (maxSubSteps w0) w0 in
  match remaining with
  | O =>
      if ltb 0 (accumulator w1)
      then set_accumulator (fixedUpdate (accumulator w1) w1) 0
      else w1
  | S _ => w1
  end.

(** The arguments [update] passes to [fixedUpdate], in call order; the
    scheduling of [update] with the sub-step's effect on bodies left out
    (lemma [update_runs_timeSteps] ties the two together). *)
Fixpoint loopTimeSteps (remaining : nat) (fts acc : R) : list R * R * nat :=
  match remaining with
  | O => ([], acc, O)
  | S k =>
      if leb fts acc then
        let '(l, acc', r) := loopTimeSteps k fts (acc - fts) in
        (fts :: l, acc', r)
      else ([], acc, remaining)
  end.

Definition timeSteps (deltaTime : R) (w : PhysicsWorld) : list R :=
  let acc0 := accumulator w + Rmin deltaTime (1 / 10) in
  let '(l, acc, remaining) := loopTimeSteps (maxSubSteps w) (fixedTimeStep w) acc0 in
  match remaining with
  | O => if ltb 0 acc then l ++ [acc] else l
  | S _ => l
  end.

End World.

(** ** PhysicsWorld.js: the body lists as lists of objects *)

Module WorldBodies.

(** A reference to an object.  The world's two lists hold references, and
    [indexOf] compares references, not states. *)
Definition Ref : Type := nat.

Record Lists : Type := mkLists {
  bodies : list Ref;
  staticBodies : list Ref
}.

(** [array.indexOf(body)]: the first index holding the reference, [None]
    for -1. *)
Fixpoint indexOf (body : Ref) (l : list Ref) : option nat :=
  match l with
  | [] => None
  | x :: rest =>
      if Nat.eqb x body then Some O else option_map S (indexOf body rest)
  end.

(** [array.splice(index, 1)]. *)
Fixpoint splice1 (index : nat) (l : list Ref) {struct l} : list Ref :=
  match l, index with
  | [] , _ => []
  | _ :: rest, O => rest
  | x :: rest, S i => x :: splice1 i rest
  end.

Section Objects.

(** The objects behind the references when the call is made: the state of
    a [PhysicsBody], or [None] for an object of another class. *)
Variable heap : Ref -> option Body.PhysicsBody.

(** [body.isStatic], [undefined] (falsy) on an object without the field. *)
Definition isStaticOf (body : Ref) : bool :=
  match heap body with
  | Some b => Body.isStatic b
  | None => false
  end.

Definition addBody (w : Lists) (body : Ref) : Lists :=
  match heap body with
  | None => w
  | Some b =>
      if Body.isStatic b
      then mkLists (bodies w) (staticBodies w ++ [body])
      else mkLists (bodies w ++ [body]) (staticBodies w)
  end.

(** [removeBody(body)]; [None] is a missing (falsy) argument. *)
Definition removeBody (body : option Ref) (w : Lists) : Lists :=
  match body with
  | None => w
  | Some r =>
      if isStaticOf r then
        match indexOf r (staticBodies w) with
        | Some index => mkLists (bodies w) (splice1 index (staticBodies w))
        | None => w
        end
      else
        match indexOf r (bodies w) with
        | Some index => mkLists (splice1 index (bodies w)) (staticBodies w)
        | None => w
        end
  end.

(** The states of the bodies a list of references stands for. *)
Fixpoint statesOf (l : list Ref) : list Body.PhysicsBody :=
  match l with
  | [] => []
  | r :: rest =>
      match heap r with
      | Some b => b :: statesOf rest
      | None => statesOf rest
      end
  end.

(** The world of states (module [World]) that the lists stand for, its other
    fields taken from [base]. *)
Definition states (w : Lists) (base : World.PhysicsWorld) : World.PhysicsWorld :=
  World.set_staticBodies (World.set_bodies base (statesOf (bodies w)))
                         (statesOf (staticBodies w)).

End Objects.

End WorldBodies.

(** ** Time.js *)

Module TimeM.

Record Time : Type := mkTime {
  deltaTime : R;
  lastTime : R;
  elapsedTime : R;
  frameCount : nat;
  maxDeltaTime : R
}.

Definition newTime : Time := mkTime 0 0 0 0 (1 / 10).

(** [reset()]; [now] is the value [performance.now()] returns. *)
Definition reset (now : R) (t : Time) : Time :=
  mkTime 0 (now / 1000) 0 0 (maxDeltaTime t).

(** [update(timestamp)]: the new state and the value returned. *)
Definition update (timestamp : R) (t : Time) : Time * R :=
  let currentTime := timestamp / 1000 in
  if eqb (lastTime t) 0 then
    (mkTime (deltaTime t) currentTime (elapsedTime t) (frameCount t)
            (maxDeltaTime t), 0)
  else
    let d := currentTime - lastTime t in
    let d1 := if ltb (maxDeltaTime t) d then maxDeltaTime t else d in
    (mkTime d1 currentTime (elapsedTime t + d1) (S (frameCount t))
            (maxDeltaTime t), d1).

End TimeM.

(** ** Engine.js *)

Module Engine.

(** The first two statements of [gameLoop]: the clock update and the time
    step handed to the player, the physics world and the other systems. *)
Definition frameDelta (timestamp : R) (t : TimeM.Time) : TimeM.Time * R :=
  let '(t1, rawDeltaTime) := TimeM.update timestamp t in
  (t1, Rmin rawDeltaTime (1 / 30)).

End Engine.

(** ** Movement.js *)

Module Movement.

(** The controller's parameters and the vectors the two velocity routines
    read.  ([lastMoveInput], [lastDirection], [lastSpeed] and the direction
    change clock are used by [update] and [detectDirectionChange] only.) *)
Record Movement : Type := mkMovement {
  walkSpeed : R;
  runSpeed : R;
  maxSpeed : R;
  groundAcceleration : R;
  airAcceleration : R;
  stopAcceleration : R;
  momentumRetention : R;
  dirChangeBoostMultiplier : R;
  jumpBoostForward : R;
  airControl : R;
  moveDirection : Vector3;
  targetVelocity : Vector3;
  hasChangedDirection : bool
}.

Definition newMovement : Movement :=
  mkMovement 6 10 12 150 20 200 (5 / 10) 3 (2 / 10) (9 / 10)
             Three.zero Three.zero false.

(** What the routines read of the player and the engine: whether a planet
    is installed, the player's surface normal, ground flag, jump flag and
    jump count, and the velocity of the player's physics body. *)
Record Mover : Type := mkMover {
  hasPlanet : bool;
  surfaceNormal : Vector3;
  onGround : bool;
  isJumping : bool;
  jumpCount : nat;
  velocity : Vector3
}.

Definition set_velocity (p : Mover) (v : Vector3) : Mover :=
  mkMover (hasPlanet p) (surfaceNormal p) (onGround p) (isJumping p)
          (jumpCount p) v.

Definition projectVectorToPlane (vector planeNormal : Vector3) : Vector3 :=
  let normalComponent := Three.dot vector planeNormal in
  Three.sub vector (Three.multiplyScalar planeNormal normalComponent).

(** The test [normal.lengthSq() > 0.001]. *)
Definition validNormal (normal : Vector3) : bool :=
  ltb (1 / 1000) (Three.lengthSq normal).

(** The velocity component the routines steer: tangential to the surface
    with a planet, horizontal without. *)
Definition steered (p : Mover) : Vector3 :=
  let v := velocity p in
  if hasPlanet p then
    if validNormal (surfaceNormal p)
    then Three.sub v (Three.multiplyScalar (surfaceNormal p)
                        (Three.dot v (surfaceNormal p)))
    else v
  else vec3 (vx v) 0 (vz v).

Definition applyAccelerationWithMomentum (m : Movement) (p : Mover)
           (deltaTime : R) : Mover :=
  let currentVelocity := steered p in
  let currentSpeed := Three.length currentVelocity in
  let newVelocity0 :=
    if hasChangedDirection m && ltb 2 currentSpeed then
      Three.add (Three.multiplyScalar currentVelocity (momentumRetention m))
                (Three.multiplyScalar (targetVelocity m)
                                      (1 - momentumRetention m))
    else
      let accel0 := if onGround p then groundAcceleration m
                    else airAcceleration m in
      let accel1 := if ltb currentSpeed 2 || hasChangedDirection m
                    then accel0 * dirChangeBoostMultiplier m else accel0 in
      let accel2 := if negb (onGround p) then accel1 * airControl m
                    else accel1 in
      let velocityDelta :=
        Three.multiplyScalar
          (Three.subVectors (targetVelocity m) currentVelocity)
          (Rmin (accel2 * deltaTime) 1) in
      Three.add currentVelocity velocityDelta in
  let newSpeed := Three.length newVelocity0 in
  let newVelocity :=
    if ltb (maxSpeed m) newSpeed
    then Three.multiplyScalar newVelocity0 (maxSpeed m / newSpeed)
    else newVelocity0 in
  let v := velocity p in
  let v1 :=
    if hasPlanet p then
      if validNormal (surfaceNormal p) then
        Three.add newVelocity
                  (Three.multiplyScalar (surfaceNormal p)
                                        (Three.dot v (surfaceNormal p)))
      else newVelocity
    else vec3 (vx newVelocity) (vy v) (vz newVelocity) in
  if isJumping p && Nat.eqb (jumpCount p) 1 then
    let forwardBoost :=
      Three.multiplyScalar (moveDirection m)
                           (jumpBoostForward m * walkSpeed m) in
    mkMover (hasPlanet p) (surfaceNormal p) (onGround p) false (jumpCount p)
            (Three.add v1 forwardBoost)
  else set_velocity p v1.

Definition applyStopForce (m : Movement) (p : Mover) (deltaTime : R) : Mover :=
  let v := velocity p in
  let normal := surfaceNormal p in
  let horizontalVelocity := steered p in
  let speed := Three.length horizontalVelocity in
  if ltb speed (1 / 10) then
    if hasPlanet p then
      if validNormal normal
      then set_velocity p (Three.multiplyScalar normal (Three.dot v normal))
      else set_velocity p Three.zero
    else set_velocity p (vec3 0 (vy v) 0)
  else
    let stopAccel := if onGround p then stopAcceleration m
                     else stopAcceleration m * (2 / 10) in
    let deceleration := Rmin speed (stopAccel * deltaTime) in
    let direction := Three.normalize horizontalVelocity in
    if hasPlanet p then
      let slowed := Three.sub horizontalVelocity
                              (Three.multiplyScalar direction deceleration) in
      if validNormal normal
      then set_velocity p
             (Three.add slowed
                        (Three.multiplyScalar normal (Three.dot v normal)))
      else set_velocity p slowed
    else
      set_velocity p (vec3 (vx v - vx direction * deceleration) (vy v)
                           (vz v - vz direction * deceleration)).

End Movement.

(** ** Player.js *)

Module PlayerM.

(** The health system's fields. *)
Record Health : Type := mkHealth {
  health : R;
  maxHealth : R;
  isDead : bool;
  lastDamageTime : R;
  invulnerabilityDuration : R
}.

Definition newHealth : Health := mkHealth 100 100 false 0 500.

(** [takeDamage(amount)] with [die()] inlined; [now] is the value
    [performance.now()] returns. *)
Definition takeDamage (amount now : R) (h : Health) : Health :=
  if ltb (now - lastDamageTime h) (invulnerabilityDuration h) then h
  else if isDead h then h
  else
    let health1 := health h - amount in
    if leb health1 0
    then mkHealth 0 (maxHealth h) true now (invulnerabilityDuration h)
    else mkHealth health1 (maxHealth h) false now (invulnerabilityDuration h).

Definition heal (amount : R) (h : Health) : Health :=
  if isDead h then h
  else mkHealth (Rmin (health h + amount) (maxHealth h)) (maxHealth h)
                (isDead h) (lastDamageTime h) (invulnerabilityDuration h).

(** [respawn()], which the timer set by [die()] calls. *)
Definition respawn (h : Health) : Health :=
  mkHealth (maxHealth h) (maxHealth h) false (lastDamageTime h)
           (invulnerabilityDuration h).

(** The planet clipping check of [update]: the player's position is first
    copied from the physics body, so the body's position stands for both;
    [count] is [positionResetCount]. *)
Definition planetClipCheck (planet : option Planet.PlanetBody) (count : nat)
           (b : Body.PhysicsBody) : nat * Body.PhysicsBody :=
  match planet with
  | None => (count, b)
  | Some pl =>
      let position := Body.position b in
      let planetCenter := Planet.center pl in
      let minDist := Planet.radius pl * (9 / 10) in
      let curDistToCenter := Three.distanceTo position planetCenter in
      if ltb curDistToCenter minDist then
        let count1 := S count in
        if Nat.ltb 3 count1 then
          let toPlayer := Three.normalize (Three.sub position planetCenter) in
          let safePos :=
            Three.add planetCenter
                      (Three.multiplyScalar toPlayer (Planet.radius pl + 1)) in
          (O, Body.syncCollider
                (Body.set_velocity (Body.set_position b safePos) Three.zero))
        else (count1, b)
      else (O, b)
  end.

End PlayerM.

(** ** EnemyManager.js *)

Module EnemyManager.

(** [array[Math.floor(x)]]: [undefined] outside the array. *)
Definition atFloor {A : Type} (l : list A) (x : R) : option A :=
  let i := Int_part x in
  if Z.ltb i 0 then None else nth_error l (Z.to_nat i).

(** [getValidSpawnPoint(playerPosition)]; [r1] and [r2] are the values the
    calls of [Math.random()] return, in call order.  The result is [None]
    where the source returns [undefined]. *)
Definition getValidSpawnPoint (spawnPoints : list Vector3)
           (playerPosition : Vector3) (r1 r2 : R) : option Vector3 :=
  let validSpawnPoints :=
    filter (fun point => ltb 15 (Three.distanceTo point playerPosition))
           spawnPoints in
  match validSpawnPoints with
  | _ :: _ =>
      atFloor validSpawnPoints (r1 * INR (List.length validSpawnPoints))
  | [] =>
      let angle := r1 * PI * 2 in
      let distance := 20 + r2 * 10 in
      Some (vec3 (vx playerPosition + cos angle * distance)
                 (vy playerPosition)
                 (vz playerPosition + sin angle * distance))
  end.

End EnemyManager.

(** ** Vocabulary of the statements *)

(** The axis [axis] turned to point from the box at [p] to the box at [p']:
    negated when the centre-to-centre displacement along it is negative. *)
Definition orientedAxis (p p' axis : Vector3) : Vector3 :=
  if ltb (Three.dot (Three.subVectors p' p) axis) 0
  then Three.multiplyScalar axis (-1) else axis.

(** The world axis of least overlap, the earlier axis winning a tie. *)
Definition leastOverlapAxis (ox oy oz : R) : Vector3 :=
  if leb ox oy && leb ox oz then vec3 1 0 0
  else if leb oy oz then vec3 0 1 0
  else vec3 0 0 1.

(** A body's collider, when it has one, sits at the body's position. *)
Definition colliderSynced (b : Body.PhysicsBody) : Prop :=
  forall c, Body.collider b = Some c -> ColliderM.position c = Body.position b.

(** What every physics operation keeps of a body [b] when it turns it into
    [b']: the mass data, the static and gravity flags, the radius, and the
    collider staying at the body's position when it was there before. *)
Definition preserved (b b' : Body.PhysicsBody) : Prop :=
  Body.invMass b' = Body.invMass b
  /\ Body.isStatic b' = Body.isStatic b
  /\ Body.mass b' = Body.mass b
  /\ Body.usesGravity b' = Body.usesGravity b
  /\ Body.radius b' = Body.radius b
  /\ (colliderSynced b -> colliderSynced b').

(** The mass data alone. *)
Definition keepsMass (b b' : Body.PhysicsBody) : Prop :=
  Body.invMass b' = Body.invMass b
  /\ Body.isStatic b' = Body.isStatic b
  /\ Body.mass b' = Body.mass b.

(** Phases 1 to 4 of a sub-step act on each dynamic body on its own; this is
    their composition for one body (lemma [fixedUpdate_phases]). *)
Definition perBodyPhases (w : World.PhysicsWorld) (t : R) (b : Body.PhysicsBody)
  : Body.PhysicsBody :=
  let b1 := match World.planetBody w with
            | Some p => Planet.emergencyCorrection p b
            | None => b
            end in
  let b2 := Body.integrateVelocity b1 t in
  let b3 := World.gravityAndForces w t b2 in
  match World.planetBody w with
  | Some p => Planet.handlePlanetSurfaceInteraction p b3 t
  | None => b3
  end.

(** Phase 6 on the whole world. *)
Definition boundsPass (w : World.PhysicsWorld) : World.PhysicsWorld :=
  match World.planetBody w with
  | Some _ => w
  | None => World.set_bodies w (map (World.checkWorldBounds w) (World.bodies w))
  end.

(** Simulated time advanced by a sequence of sub-steps. *)
Definition simulatedTime (steps : list R) : R := fold_right Rplus 0 steps.

(** Running [fixedUpdate] once per time step, in order. *)
Definition runSteps (steps : list R) (w : World.PhysicsWorld) : World.PhysicsWorld :=
  fold_left (fun w t => World.fixedUpdate t w) steps w.

(** The empty [options] object, and [{ position, velocity }]. *)
Definition noOptions : Body.Options :=
  Body.mkOptions None None None None None None None None None None None None
                 None None.

Definition placedOptions (p v : Vector3) : Body.Options :=
  Body.mkOptions (Some p) (Some v) None None None None None None None None None
                 None None None.

(** A planet of radius 20 at the origin, as [new PlanetBody({})] makes it. *)
Definition planet20 : Planet.PlanetBody := Planet.newPlanetBody noOptions.

(** The state of a dynamic body of mass 1 and radius 1 built by
    [new PhysicsBody({ position, velocity })], with its collider at its
    position (lemma [newPhysicsBody_unitBody]). *)
Definition unitBody (p v a f : Vector3) (g : bool) : Body.PhysicsBody :=
  Body.mkBody p v a f 1 1 false (1 / 10) (1 / 10) g true None 30 (5 / 100)
              (Some 1) None (Some (SphereCollider p 1)) PlainBody.

(** A world at 60 sub-steps per second holding [planet20], registered as a
    static body and installed as the planet field, and the body [b]. *)
Definition planetWorld (b : Body.PhysicsBody) : World.PhysicsWorld :=
  World.addBody
    (World.setPlanetBody
       (World.addBody (World.newPhysicsWorld (-10) 60) (Planet.body planet20))
       planet20)
    b.

(** The distance from the planet's centre at which
    [handlePlanetSurfaceInteraction] wants the body: planet radius, surface
    offset and the body's radius (0.5 when it has none). *)
Definition idealDistance (p : Planet.PlanetBody) (b : Body.PhysicsBody) : R :=
  Planet.radius p + Planet.surfaceOffset p + opt_or (Body.radius b) (5 / 10).

(** A dynamic body under gravity at rest exactly at the ideal distance, with
    no force pending and inverse mass the inverse of its mass. *)
Definition restsOnShell (p : Planet.PlanetBody) (b : Body.PhysicsBody) : Prop :=
  Body.isStatic b = false
  /\ Body.usesGravity b = true
  /\ Body.velocity b = Three.zero
  /\ Body.forces b = Three.zero
  /\ Body.mass b * Body.invMass b = 1
  /\ Three.length (Three.sub (Body.position b) (Planet.center p))
     = idealDistance p b.

(** Calling [update] once per frame, in order, with the frames' time steps. *)
Definition runFrames (deltas : list R) (w : World.PhysicsWorld) : World.PhysicsWorld :=
  fold_left (fun w d => World.update d w) deltas w.

(** The static bodies the collision pass looks at. *)
Definition notPlanet (s : Body.PhysicsBody) : bool := negb (Body.isPlanet s).

(** Feeding the clock the frames' timestamps in order: the final state and
    the deltas returned. *)
Fixpoint runClock (stamps : list R) (t : TimeM.Time) : TimeM.Time * list R :=
  match stamps with
  | [] => (t, [])
  | s :: rest =>
      let '(t1, d) := TimeM.update s t in
      let '(t2, ds) := runClock rest t1 in
      (t2, d :: ds)
  end.

(** Timestamps that never go back, starting at or after [from]. *)
Fixpoint nondecreasingFrom (from : R) (stamps : list R) : Prop :=
  match stamps with
  | [] => True
  | s :: rest => from <= s /\ nondecreasingFrom s rest
  end.

(** The calls that change the player's health. *)
Inductive HealthCall : Type :=
| TakeDamage (amount now : R)
| Heal (amount : R)
| Respawn.

Definition healthCall (c : HealthCall) (h : PlayerM.Health) : PlayerM.Health :=
  match c with
  | TakeDamage amount now => PlayerM.takeDamage amount now h
  | Heal amount => PlayerM.heal amount h
  | Respawn => PlayerM.respawn h
  end.

Definition healthCalls (cs : list HealthCall) (h : PlayerM.Health) : PlayerM.Health :=
  fold_left (fun h c => healthCall c h) cs h.

Definition amountOf (c : HealthCall) : R :=
  match c with
  | TakeDamage amount _ => amount
  | Heal amount => amount
  | Respawn => 0
  end.

(** A living player has health in (0, maxHealth]; a dead one has none. *)
Definition healthSound (h : PlayerM.Health) : Prop :=
  if PlayerM.isDead h then PlayerM.health h = 0
  else 0 < PlayerM.health h <= PlayerM.maxHealth h.

(** The sign of a number, as a factor: 1, -1 or 0. *)
Definition signOf (k : R) : R :=
  if ltb 0 k then 1 else if ltb k 0 then -1 else 0.

(** The state of a dynamic body of mass 1 built by
    [new PhysicsBody({ position, velocity, halfExtents: (1, 1, 1) })], with
    its box collider at its position (lemma [newPhysicsBody_boxBody]). *)
Definition boxBody (p v : Vector3) : Body.PhysicsBody :=
  Body.mkBody p v Three.zero Three.zero 1 1 false (1 / 10) (1 / 10) false true
              None 30 (5 / 100) None (Some (vec3 1 1 1))
              (Some (ColliderM.newBoxCollider p (vec3 1 1 1))) PlainBody.

(** The list [removeBody] and [addBody] work on for a body, and the other
    one. *)
Definition listOf (heap : WorldBodies.Ref -> option Body.PhysicsBody)
           (r : WorldBodies.Ref) (w : WorldBodies.Lists) : list WorldBodies.Ref :=
  if WorldBodies.isStaticOf heap r
  then WorldBodies.staticBodies w else WorldBodies.bodies w.

Definition otherListOf (heap : WorldBodies.Ref -> option Body.PhysicsBody)
           (r : WorldBodies.Ref) (w : WorldBodies.Lists) : list WorldBodies.Ref :=
  if WorldBodies.isStaticOf heap r
  then WorldBodies.bodies w else WorldBodies.staticBodies w.

(** * Properties *)

(** ** Comparisons *)

Lemma ltb_lt (a b : R) : a < b -> ltb a b = true.
Proof. intros H. unfold ltb. destruct (Rlt_dec a b); [reflexivity | contradiction]. Qed.

Lemma ltb_ge (a b : R) : b <= a -> ltb a b = false.
Proof. intros H. unfold ltb. destruct (Rlt_dec a b); [lra | reflexivity]. Qed.

Lemma ltb_true_iff (a b : R) : ltb a b = true <-> a < b.
Proof.
  unfold ltb. destruct (Rlt_dec a b); split; intros; try assumption;
    try reflexivity; try discriminate; contradiction.
Qed.

Lemma ltb_false_iff (a b : R) : ltb a b = false <-> b <= a.
Proof.
  unfold ltb. destruct (Rlt_dec a b); split; intros; try discriminate;
    try reflexivity; lra.
Qed.

Lemma leb_le (a b : R) : a <= b -> leb a b = true.
Proof. intros H. unfold leb. destruct (Rle_dec a b); [reflexivity | contradiction]. Qed.

Lemma leb_gt (a b : R) : b < a -> leb a b = false.
Proof. intros H. unfold leb. destruct (Rle_dec a b); [lra | reflexivity]. Qed.

Lemma leb_true_iff (a b : R) : leb a b = true <-> a <= b.
Proof.
  unfold leb. destruct (Rle_dec a b); split; intros; try assumption;
    try reflexivity; try discriminate; contradiction.
Qed.

Lemma leb_false_iff (a b : R) : leb a b = false <-> b < a.
Proof.
  unfold leb. destruct (Rle_dec a b); split; intros; try discriminate;
    try reflexivity; lra.
Qed.

Lemma eqb_eq (a b : R) : a = b -> eqb a b = true.
Proof. intros H. unfold eqb. destruct (Req_dec_T a b); [reflexivity | contradiction]. Qed.

Lemma eqb_neq (a b : R) : a <> b -> eqb a b = false.
Proof. intros H. unfold eqb. destruct (Req_dec_T a b); [contradiction | reflexivity]. Qed.

Lemma num_or_zero (x : R) : num_or x 0 = x.
Proof. unfold num_or, eqb. destruct (Req_dec_T x 0); congruence. Qed.

Lemma num_or_nonzero (x d : R) : x <> 0 -> num_or x d = x.
Proof. intros H. unfold num_or. now rewrite eqb_neq. Qed.

Lemma num_or_at_zero (d : R) : num_or 0 d = d.
Proof. unfold num_or. now rewrite eqb_eq. Qed.

(** ** Vectors *)

Lemma vec3_eq (a b : Vector3) :
  vx a = vx b -> vy a = vy b -> vz a = vz b -> a = b.
Proof. destruct a, b; simpl; intros; subst; reflexivity. Qed.

Lemma lengthSq_nonneg (v : Vector3) : 0 <= Three.lengthSq v.
Proof. unfold Three.lengthSq, Three.dot. nra. Qed.

Lemma length_nonneg (v : Vector3) : 0 <= Three.length v.
Proof. apply sqrt_pos. Qed.

Lemma length_sq (v : Vector3) : Three.length v * Three.length v = Three.lengthSq v.
Proof. apply sqrt_sqrt, lengthSq_nonneg. Qed.

Lemma lengthSq_zero_iff (v : Vector3) : Three.lengthSq v = 0 <-> v = Three.zero.
Proof.
  split.
  - unfold Three.lengthSq, Three.dot. intros H.
    apply vec3_eq; simpl; nra.
  - intros ->. unfold Three.lengthSq, Three.dot, Three.zero. simpl. ring.
Qed.

Lemma length_zero_iff (v : Vector3) : Three.length v = 0 <-> v = Three.zero.
Proof.
  rewrite <- lengthSq_zero_iff. unfold Three.length. split.
  - apply sqrt_eq_0, lengthSq_nonneg.
  - intros ->. apply sqrt_0.
Qed.

Lemma length_pos (v : Vector3) : v <> Three.zero -> 0 < Three.length v.
Proof.
  intros H. destruct (length_nonneg v) as [Hp | He]; [assumption |].
  exfalso. apply H, length_zero_iff. symmetry. assumption.
Qed.

Lemma normalize_zero : Three.normalize Three.zero = Three.zero.
Proof.
  unfold Three.normalize, Three.divideScalar, Three.multiplyScalar, Three.zero.
  simpl. apply vec3_eq; simpl; ring.
Qed.

(** A non-zero vector normalizes to a unit vector. *)
Lemma lengthSq_normalize (v : Vector3) :
  v <> Three.zero -> Three.lengthSq (Three.normalize v) = 1.
Proof.
  intros H. pose proof (length_pos v H) as Hl.
  unfold Three.normalize. rewrite num_or_nonzero by lra.
  pose proof (length_sq v) as Hs.
  unfold Three.divideScalar, Three.multiplyScalar, Three.lengthSq, Three.dot in *.
  simpl. set (l := Three.length v) in *.
  replace (vx v * (1 / l) * (vx v * (1 / l)) + vy v * (1 / l) * (vy v * (1 / l))
           + vz v * (1 / l) * (vz v * (1 / l)))
    with ((vx v * vx v + vy v * vy v + vz v * vz v) / (l * l)) by (field; lra).
  rewrite <- Hs. field. lra.
Qed.

Lemma length_normalize (v : Vector3) :
  v <> Three.zero -> Three.length (Three.normalize v) = 1.
Proof.
  intros H. unfold Three.length. rewrite lengthSq_normalize by assumption.
  apply sqrt_1.
Qed.

(** Normalizing a unit vector changes nothing. *)
Lemma normalize_unit (u : Vector3) : Three.lengthSq u = 1 -> Three.normalize u = u.
Proof.
  intros H. unfold Three.normalize, Three.length. rewrite H, sqrt_1.
  rewrite num_or_nonzero by lra.
  unfold Three.divideScalar, Three.multiplyScalar. apply vec3_eq; simpl; field.
Qed.

Lemma distanceTo_sym (a b : Vector3) : Three.distanceTo a b = Three.distanceTo b a.
Proof.
  unfold Three.distanceTo, Three.distanceToSquared, Three.lengthSq, Three.dot,
    Three.sub. simpl. f_equal. ring.
Qed.

Lemma distanceTo_length (a b : Vector3) :
  Three.distanceTo a b = Three.length (Three.sub a b).
Proof. reflexivity. Qed.

Lemma distanceTo_nonneg (a b : Vector3) : 0 <= Three.distanceTo a b.
Proof. apply sqrt_pos. Qed.

Lemma distanceTo_sq (a b : Vector3) :
  Three.distanceTo a b * Three.distanceTo a b = Three.distanceToSquared a b.
Proof. apply sqrt_sqrt, lengthSq_nonneg. Qed.

(** A point at [c + u * k], [u] a unit vector and [0 <= k], lies at distance
    [k] from [c]. *)
Lemma length_offset_unit (c u : Vector3) (k : R) :
  Three.lengthSq u = 1 -> 0 <= k ->
  Three.length (Three.sub (Three.add c (Three.multiplyScalar u k)) c) = k.
Proof.
  intros Hu Hk. unfold Three.length.
  replace (Three.lengthSq (Three.sub (Three.add c (Three.multiplyScalar u k)) c))
    with (k * k).
  - apply sqrt_square. assumption.
  - unfold Three.lengthSq, Three.dot, Three.sub, Three.add, Three.multiplyScalar in *.
    simpl.
    replace ((vx c + vx u * k - vx c) * (vx c + vx u * k - vx c)
             + (vy c + vy u * k - vy c) * (vy c + vy u * k - vy c)
             + (vz c + vz u * k - vz c) * (vz c + vz u * k - vz c))
      with ((vx u * vx u + vy u * vy u + vz u * vz u) * (k * k)) by ring.
    rewrite Hu. ring.
Qed.

(** ** Sphere against sphere *)

Lemma sphere_intersects_iff (p p' : Vector3) (r r' : R) :
  ColliderM.intersects (ColliderM.newSphereCollider p r)
                       (ColliderM.newSphereCollider p' r') = true
  <-> Three.distanceToSquared p' p <= (r + r') * (r + r').
Proof.
  unfold ColliderM.intersects, ColliderM.newSphereCollider,
    Three.sphereIntersectsSphere. simpl. apply leb_true_iff.
Qed.

Lemma distanceToSquared_sym (a b : Vector3) :
  Three.distanceToSquared a b = Three.distanceToSquared b a.
Proof.
  unfold Three.distanceToSquared, Three.lengthSq, Three.dot, Three.sub.
  simpl. ring.
Qed.

(** For a non-negative bound, comparing squares is comparing distances. *)
Lemma distSq_le_iff (a b : Vector3) (k : R) :
  0 <= k -> (Three.distanceToSquared a b <= k * k <-> Three.distanceTo a b <= k).
Proof.
  intros Hk. pose proof (distanceTo_nonneg a b) as Hd.
  rewrite <- distanceTo_sq. split; intros H; nra.
Qed.

Lemma sphere_info_hit (p p' : Vector3) (r r' : R) :
  Three.distanceTo p p' < r + r' ->
  ColliderM.getCollisionInfo (ColliderM.newSphereCollider p r)
                             (ColliderM.newSphereCollider p' r')
  = Some (mkInfo (Three.normalize (Three.sub p p'))
                 (r + r' - Three.distanceTo p p')
                 (Three.add (Three.multiplyScalar
                               (Three.normalize (Three.sub p p')) r) p)).
Proof.
  intros H. unfold ColliderM.getCollisionInfo, ColliderM.newSphereCollider.
  rewrite ltb_lt by assumption. reflexivity.
Qed.

Lemma sphere_info_miss (p p' : Vector3) (r r' : R) :
  r + r' <= Three.distanceTo p p' ->
  ColliderM.getCollisionInfo (ColliderM.newSphereCollider p r)
                             (ColliderM.newSphereCollider p' r') = None.
Proof.
  intros H. unfold ColliderM.getCollisionInfo, ColliderM.newSphereCollider.
  rewrite ltb_ge by assumption. reflexivity.
Qed.

(** Distance between two points on a line parallel to the X axis. *)
Lemma distanceTo_along_x (x y z d : R) :
  0 <= d -> Three.distanceTo (vec3 x y z) (vec3 (x + d) y z) = d.
Proof.
  intros Hd. unfold Three.distanceTo, Three.distanceToSquared, Three.lengthSq,
    Three.dot, Three.sub. simpl.
  replace ((x - (x + d)) * (x - (x + d)) + (y - y) * (y - y) + (z - z) * (z - z))
    with (d * d) by ring.
  apply sqrt_square. assumption.
Qed.

(** C6, counterexample: two unit spheres whose centres are exactly 2 apart
    touch; [intersects] answers true although the distance is not below the
    radius sum (and [getCollisionInfo] reports no contact). *)
Lemma sphere_intersects_touching :
  let A := ColliderM.newSphereCollider (vec3 0 0 0) 1 in
  let B := ColliderM.newSphereCollider (vec3 2 0 0) 1 in
  ~ (ColliderM.intersects A B = true
     <-> Three.distanceTo (vec3 0 0 0) (vec3 2 0 0) < 1 + 1)
  /\ ColliderM.getCollisionInfo A B = None.
Proof.
  assert (Hd : Three.distanceTo (vec3 0 0 0) (vec3 2 0 0) = 2).
  { replace (vec3 2 0 0) with (vec3 (0 + 2) 0 0) by (f_equal; lra).
    apply distanceTo_along_x. lra. }
  split.
  - intros [Hfwd _]. rewrite Hd in Hfwd.
    assert (Hi : ColliderM.intersects (ColliderM.newSphereCollider (vec3 0 0 0) 1)
                   (ColliderM.newSphereCollider (vec3 2 0 0) 1) = true).
    { apply sphere_intersects_iff.
      unfold Three.distanceToSquared, Three.lengthSq, Three.dot, Three.sub.
      simpl. lra. }
    specialize (Hfwd Hi). lra.
  - apply sphere_info_miss. rewrite Hd. lra.
Qed.

(** C6 (amended): [intersects] on two spheres is the inclusive test
    distance^2 <= (r1 + r2)^2, which for a non-negative radius sum is
    distance <= r1 + r2; [getCollisionInfo] reports a contact exactly when
    distance < r1 + r2, with the normal from B to A (the normalized
    difference of the centres), depth (r1 + r2) - distance and the contact
    point at A's centre plus r1 times the normal, and reports none
    otherwise; two unit spheres 1.5 apart intersect with depth 1/2. *)
Theorem sphere_sphere_contact (p p' : Vector3) (r r' : R) :
  let A := ColliderM.newSphereCollider p r in
  let B := ColliderM.newSphereCollider p' r' in
  let distance := Three.distanceTo p p' in
  let n := Three.normalize (Three.sub p p') in
  (ColliderM.intersects A B = true
   <-> Three.distanceToSquared p' p <= (r + r') * (r + r'))
  /\ (0 <= r + r' -> (ColliderM.intersects A B = true <-> distance <= r + r'))
  /\ (distance < r + r' ->
      ColliderM.getCollisionInfo A B
      = Some (mkInfo n (r + r' - distance)
                     (Three.add (Three.multiplyScalar n r) p)))
  /\ (r + r' <= distance -> ColliderM.getCollisionInfo A B = None)
  /\ (p <> p' -> Three.length n = 1)
  /\ (r = 1 -> r' = 1 -> distance = 3 / 2 ->
      ColliderM.intersects A B = true
      /\ exists i, ColliderM.getCollisionInfo A B = Some i /\ depth i = 1 / 2).
Proof.
  intros A B distance n. subst A B distance n.
  split; [apply sphere_intersects_iff |].
  split.
  { intros Hr. rewrite sphere_intersects_iff, distanceToSquared_sym.
    apply distSq_le_iff. assumption. }
  split; [apply sphere_info_hit |].
  split; [apply sphere_info_miss |].
  split.
  { intros Hne. apply length_normalize. intros Hz. apply Hne.
    unfold Three.sub, Three.zero in Hz. injection Hz as Hx Hy Hz.
    apply vec3_eq; lra. }
  intros -> -> Hd. split.
  - rewrite sphere_intersects_iff, distanceToSquared_sym.
    apply distSq_le_iff; lra.
  - eexists. split; [apply sphere_info_hit; lra |]. simpl. lra.
Qed.

Lemma sphere_sphere_contact_witness :
  let A := ColliderM.newSphereCollider (vec3 0 0 0) 1 in
  let B := ColliderM.newSphereCollider (vec3 (0 + 3 / 2) 0 0) 1 in
  ColliderM.intersects A B = true
  /\ exists i, ColliderM.getCollisionInfo A B = Some i /\ depth i = 1 / 2.
Proof.
  pose proof (sphere_sphere_contact (vec3 0 0 0) (vec3 (0 + 3 / 2) 0 0) 1 1)
    as (_ & _ & _ & _ & _ & H).
  apply H; [reflexivity | reflexivity |].
  apply distanceTo_along_x. lra.
Defined.

(** ** Box against box *)

Ltac minmax := unfold Rmin, Rmax in *; repeat destruct Rle_dec; try lra.

Lemma overlapOn_x (p h p' h' : Vector3) :
  ColliderM.overlapOn p h p' h' (vec3 1 0 0)
  = Rmin (vx p + Rabs (vx h)) (vx p' + Rabs (vx h'))
    - Rmax (vx p - Rabs (vx h)) (vx p' - Rabs (vx h')).
Proof.
  unfold ColliderM.overlapOn, ColliderM.projectOntoAxis, Three.dot. simpl.
  rewrite !Rmult_0_r, !Rmult_1_r, Rabs_R0. f_equal; f_equal; ring.
Qed.

Lemma overlapOn_y (p h p' h' : Vector3) :
  ColliderM.overlapOn p h p' h' (vec3 0 1 0)
  = Rmin (vy p + Rabs (vy h)) (vy p' + Rabs (vy h'))
    - Rmax (vy p - Rabs (vy h)) (vy p' - Rabs (vy h')).
Proof.
  unfold ColliderM.overlapOn, ColliderM.projectOntoAxis, Three.dot. simpl.
  rewrite !Rmult_0_r, !Rmult_1_r, Rabs_R0. f_equal; f_equal; ring.
Qed.

Lemma overlapOn_z (p h p' h' : Vector3) :
  ColliderM.overlapOn p h p' h' (vec3 0 0 1)
  = Rmin (vz p + Rabs (vz h)) (vz p' + Rabs (vz h'))
    - Rmax (vz p - Rabs (vz h)) (vz p' - Rabs (vz h')).
Proof.
  unfold ColliderM.overlapOn, ColliderM.projectOntoAxis, Three.dot. simpl.
  rewrite !Rmult_0_r, !Rmult_1_r, Rabs_R0. f_equal; f_equal; ring.
Qed.

(** Boxes with non-negative half-extents whose projections overlap on the
    three axes pass the three.js box test. *)
Lemma boxIntersectsBox_of_overlaps (p h p' h' : Vector3) :
  0 <= vx h -> 0 <= vy h -> 0 <= vz h ->
  0 <= vx h' -> 0 <= vy h' -> 0 <= vz h' ->
  0 < ColliderM.overlapOn p h p' h' (vec3 1 0 0) ->
  0 < ColliderM.overlapOn p h p' h' (vec3 0 1 0) ->
  0 < ColliderM.overlapOn p h p' h' (vec3 0 0 1) ->
  Three.boxIntersectsBox (ColliderM.updateBox p h) (ColliderM.updateBox p' h')
  = true.
Proof.
  intros Hx Hy Hz Hx' Hy' Hz'.
  rewrite overlapOn_x, overlapOn_y, overlapOn_z.
  rewrite !Rabs_right by lra. intros Ox Oy Oz.
  unfold Three.boxIntersectsBox, ColliderM.updateBox. simpl.
  rewrite !ltb_ge; [reflexivity | | | | | |]; minmax.
Qed.

(** The three-axis loop, when every overlap is positive. *)
Lemma satLoop_axes (p h p' h' : Vector3) (a0 : Vector3) :
  let ox := ColliderM.overlapOn p h p' h' (vec3 1 0 0) in
  let oy := ColliderM.overlapOn p h p' h' (vec3 0 1 0) in
  let oz := ColliderM.overlapOn p h p' h' (vec3 0 0 1) in
  0 < ox -> 0 < oy -> 0 < oz ->
  ColliderM.satLoop p h p' h' ColliderM.axes None a0
  = Some (Some (Rmin ox (Rmin oy oz)),
          orientedAxis p p' (leastOverlapAxis ox oy oz)).
Proof.
  intros ox oy oz Hx Hy Hz. unfold ColliderM.axes, ColliderM.satLoop.
  fold ox oy oz. unfold leastOverlapAxis, orientedAxis.
  rewrite (leb_gt ox 0), (leb_gt oy 0), (leb_gt oz 0) by assumption.
  destruct (Rlt_dec oy ox) as [Hyx | Hyx].
  - rewrite (ltb_lt oy ox) by assumption.
    rewrite (leb_gt ox oy) by assumption. simpl.
    destruct (Rlt_dec oz oy) as [Hzy | Hzy].
    + rewrite (ltb_lt oz oy), (leb_gt oy oz) by assumption.
      do 2 f_equal. f_equal. minmax.
    + rewrite (ltb_ge oz oy), (leb_le oy oz) by lra.
      do 2 f_equal. f_equal. minmax.
  - rewrite (ltb_ge oy ox) by lra. rewrite (leb_le ox oy) by lra. simpl.
    destruct (Rlt_dec oz ox) as [Hzx | Hzx].
    + rewrite (ltb_lt oz ox), (leb_gt ox oz) by assumption.
      rewrite (leb_gt oy oz) by lra.
      do 2 f_equal. f_equal. minmax.
    + rewrite (ltb_ge oz ox), (leb_le ox oz) by lra.
      do 2 f_equal. f_equal. minmax.
Qed.

(** After the three axes [minDepth] no longer holds [Infinity]. *)
Lemma satLoop_axes_finite (p h p' h' a0 : Vector3) (d : option R) (ax : Vector3) :
  ColliderM.satLoop p h p' h' ColliderM.axes None a0 = Some (d, ax) ->
  exists v, d = Some v.
Proof.
  unfold ColliderM.axes, ColliderM.satLoop.
  repeat match goal with
         | |- context [if ?c then _ else _] => destruct c
         end; intros H; try discriminate; injection H as <- _; eauto.
Qed.

(** The loop returns [null] as soon as one axis has no positive overlap. *)
Lemma satLoop_axes_separated (p h p' h' a0 : Vector3) :
  ColliderM.overlapOn p h p' h' (vec3 1 0 0) <= 0
  \/ ColliderM.overlapOn p h p' h' (vec3 0 1 0) <= 0
  \/ ColliderM.overlapOn p h p' h' (vec3 0 0 1) <= 0 ->
  ColliderM.satLoop p h p' h' ColliderM.axes None a0 = None.
Proof.
  intros H. unfold ColliderM.axes, ColliderM.satLoop.
  destruct (leb (ColliderM.overlapOn p h p' h' (vec3 1 0 0)) 0) eqn:Ex;
    [reflexivity |].
  destruct (leb (ColliderM.overlapOn p h p' h' (vec3 0 1 0)) 0) eqn:Ey;
    [reflexivity |].
  destruct (leb (ColliderM.overlapOn p h p' h' (vec3 0 0 1)) 0) eqn:Ez.
  - simpl. now destruct (ltb _ _).
  - apply leb_false_iff in Ex, Ey, Ez. lra.
Qed.

Lemma box_info_separated (p h p' h' : Vector3) :
  ColliderM.overlapOn p h p' h' (vec3 1 0 0) <= 0
  \/ ColliderM.overlapOn p h p' h' (vec3 0 1 0) <= 0
  \/ ColliderM.overlapOn p h p' h' (vec3 0 0 1) <= 0 ->
  ColliderM.getCollisionInfo (ColliderM.newBoxCollider p h)
                             (ColliderM.newBoxCollider p' h') = None.
Proof.
  intros H. unfold ColliderM.getCollisionInfo, ColliderM.newBoxCollider,
    ColliderM.boxBoxInfo.
  destruct (negb _); [reflexivity |].
  now rewrite satLoop_axes_separated.
Qed.

Lemma box_info_overlapping (p h p' h' : Vector3) :
  let ox := ColliderM.overlapOn p h p' h' (vec3 1 0 0) in
  let oy := ColliderM.overlapOn p h p' h' (vec3 0 1 0) in
  let oz := ColliderM.overlapOn p h p' h' (vec3 0 0 1) in
  0 <= vx h -> 0 <= vy h -> 0 <= vz h ->
  0 <= vx h' -> 0 <= vy h' -> 0 <= vz h' ->
  0 < ox -> 0 < oy -> 0 < oz ->
  ColliderM.getCollisionInfo (ColliderM.newBoxCollider p h)
                             (ColliderM.newBoxCollider p' h')
  = Some (mkInfo (orientedAxis p p' (leastOverlapAxis ox oy oz))
                 (Rmin ox (Rmin oy oz))
                 (Three.multiplyScalar (Three.add p p') (1 / 2))).
Proof.
  intros ox oy oz Hx Hy Hz Hx' Hy' Hz' Ox Oy Oz.
  unfold ColliderM.getCollisionInfo, ColliderM.newBoxCollider,
    ColliderM.boxBoxInfo.
  rewrite boxIntersectsBox_of_overlaps by assumption. simpl negb. cbv iota.
  rewrite satLoop_axes by assumption. reflexivity.
Qed.

Lemma leastOverlapAxis_least (p h p' h' : Vector3) :
  let ox := ColliderM.overlapOn p h p' h' (vec3 1 0 0) in
  let oy := ColliderM.overlapOn p h p' h' (vec3 0 1 0) in
  let oz := ColliderM.overlapOn p h p' h' (vec3 0 0 1) in
  ColliderM.overlapOn p h p' h' (leastOverlapAxis ox oy oz)
  = Rmin ox (Rmin oy oz).
Proof.
  intros ox oy oz. unfold leastOverlapAxis.
  destruct (leb ox oy) eqn:Exy; destruct (leb ox oz) eqn:Exz; simpl;
    try destruct (leb oy oz) eqn:Eyz;
    repeat match goal with
           | H : leb _ _ = true |- _ => apply leb_true_iff in H
           | H : leb _ _ = false |- _ => apply leb_false_iff in H
           end; fold ox oy oz; minmax.
Qed.

(** C7: for two axis-aligned boxes with non-negative half-extents,
    [getCollisionInfo] returns none as soon as one of the three world axes
    has a non-positive projected overlap; otherwise it returns as normal the
    world axis of minimum overlap, turned from A to B by the sign of the
    centre-to-centre displacement along it, with depth that minimum overlap
    (and the midpoint of the centres as contact point).  Two boxes of
    half-extents (1,1,1) whose centres are 1.5 apart along X give depth 1/2
    along +X. *)
Theorem box_box_separating_axis (p h p' h' : Vector3) :
  0 <= vx h -> 0 <= vy h -> 0 <= vz h ->
  0 <= vx h' -> 0 <= vy h' -> 0 <= vz h' ->
  let A := ColliderM.newBoxCollider p h in
  let B := ColliderM.newBoxCollider p' h' in
  let ox := ColliderM.overlapOn p h p' h' (vec3 1 0 0) in
  let oy := ColliderM.overlapOn p h p' h' (vec3 0 1 0) in
  let oz := ColliderM.overlapOn p h p' h' (vec3 0 0 1) in
  let axis := leastOverlapAxis ox oy oz in
  (ox <= 0 \/ oy <= 0 \/ oz <= 0 -> ColliderM.getCollisionInfo A B = None)
  /\ (0 < ox -> 0 < oy -> 0 < oz ->
      ColliderM.getCollisionInfo A B
      = Some (mkInfo (orientedAxis p p' axis) (Rmin ox (Rmin oy oz))
                     (Three.multiplyScalar (Three.add p p') (1 / 2)))
      /\ ColliderM.overlapOn p h p' h' axis = Rmin ox (Rmin oy oz)
      /\ In axis ColliderM.axes)
  /\ (h = vec3 1 1 1 -> h' = vec3 1 1 1 ->
      p' = Three.add p (vec3 (3 / 2) 0 0) ->
      exists i, ColliderM.getCollisionInfo A B = Some i
                /\ depth i = 1 / 2 /\ normal i = vec3 1 0 0).
Proof.
  intros Hx Hy Hz Hx' Hy' Hz' A B ox oy oz axis.
  split; [apply box_info_separated |].
  split.
  - intros Ox Oy Oz. split; [| split].
    + apply box_info_overlapping; assumption.
    + apply leastOverlapAxis_least.
    + unfold axis, leastOverlapAxis, ColliderM.axes.
      destruct (leb ox oy && leb ox oz); [simpl; auto |].
      destruct (leb oy oz); simpl; auto.
  - intros Hh Hh' Hp'.
    assert (Ex : ox = 1 / 2).
    { unfold ox. rewrite overlapOn_x. subst h h' p'. simpl.
      rewrite !Rabs_right by lra. minmax. }
    assert (Ey : oy = 2).
    { unfold oy. rewrite overlapOn_y. subst h h' p'. simpl.
      rewrite !Rabs_right by lra. minmax. }
    assert (Ez : oz = 2).
    { unfold oz. rewrite overlapOn_z. subst h h' p'. simpl.
      rewrite !Rabs_right by lra. minmax. }
    eexists. split; [apply box_info_overlapping; fold ox oy oz; lra |].
    fold ox oy oz. rewrite Ex, Ey, Ez. simpl. split; [minmax |].
    unfold leastOverlapAxis, orientedAxis.
    rewrite !leb_le by lra. simpl.
    rewrite ltb_ge; [reflexivity |].
    subst p'. unfold Three.dot, Three.subVectors, Three.sub, Three.add. simpl. lra.
Qed.

Lemma box_box_separating_axis_witness :
  exists i,
    ColliderM.getCollisionInfo
      (ColliderM.newBoxCollider (vec3 0 0 0) (vec3 1 1 1))
      (ColliderM.newBoxCollider (Three.add (vec3 0 0 0) (vec3 (3 / 2) 0 0))
                                (vec3 1 1 1)) = Some i
    /\ depth i = 1 / 2 /\ normal i = vec3 1 0 0.
Proof.
  pose proof (box_box_separating_axis (vec3 0 0 0) (vec3 1 1 1)
                (Three.add (vec3 0 0 0) (vec3 (3 / 2) 0 0)) (vec3 1 1 1))
    as H.
  simpl in H.
  destruct H as (_ & _ & H); try lra.
  apply H; reflexivity.
Defined.

(** ** Relations carried through the collision pass *)

Lemma Forall2_refl_on {A : Type} (Rel : A -> A -> Prop) (l : list A) :
  (forall x, Rel x x) -> Forall2 Rel l l.
Proof. intros H. induction l; constructor; auto. Qed.

Lemma Forall2_map_self {A : Type} (Rel : A -> A -> Prop) (f : A -> A) (l : list A) :
  (forall x, Rel x (f x)) -> Forall2 Rel l (map f l).
Proof. intros H. induction l; simpl; constructor; auto. Qed.

Lemma Forall2_compose {A : Type} (Rel : A -> A -> Prop) (l1 l2 l3 : list A) :
  (forall x y z, Rel x y -> Rel y z -> Rel x z) ->
  Forall2 Rel l1 l2 -> Forall2 Rel l2 l3 -> Forall2 Rel l1 l3.
Proof.
  intros Ht H12. revert l3. induction H12; intros l3 H23; inversion H23; subst;
    constructor; eauto.
Qed.

Section CollisionPass.

Variable Rel : Body.PhysicsBody -> Body.PhysicsBody -> Prop.
Hypothesis Rel_refl : forall b, Rel b b.
Hypothesis Rel_trans : forall a b c, Rel a b -> Rel b c -> Rel a c.
Hypothesis Rel_resolve :
  forall a b, Rel a (fst (World.resolveCollision a b))
              /\ Rel b (snd (World.resolveCollision a b)).

Lemma collidePair_rel (a b : Body.PhysicsBody) :
  Rel a (fst (World.collidePair a b)) /\ Rel b (snd (World.collidePair a b)).
Proof.
  unfold World.collidePair. destruct (World.checkCollision a b); simpl; auto.
Qed.

Lemma collideWithLater_rel (later : list Body.PhysicsBody) :
  forall a, Rel a (fst (World.collideWithLater a later))
            /\ Forall2 Rel later (snd (World.collideWithLater a later)).
Proof.
  induction later as [| b rest IH]; intros a; simpl.
  - split; [apply Rel_refl | constructor].
  - destruct (collidePair_rel a b) as [Ha Hb].
    destruct (World.collidePair a b) as [a1 b1]. simpl in Ha, Hb.
    destruct (IH a1) as [Ha1 Hrest].
    destruct (World.collideWithLater a1 rest) as [a2 rest']. simpl in *.
    split; [eapply Rel_trans; eauto | constructor; assumption].
Qed.

Lemma collideWithStatics_rel (ss : list Body.PhysicsBody) :
  forall a, Rel a (fst (World.collideWithStatics a ss))
            /\ Forall2 Rel ss (snd (World.collideWithStatics a ss)).
Proof.
  induction ss as [| s rest IH]; intros a; simpl.
  - split; [apply Rel_refl | constructor].
  - assert (Hp : Rel a (fst (if Body.isPlanet s then (a, s)
                             else World.collidePair a s))
                 /\ Rel s (snd (if Body.isPlanet s then (a, s)
                                else World.collidePair a s))).
    { destruct (Body.isPlanet s); [simpl; auto | apply collidePair_rel]. }
    destruct (if Body.isPlanet s then (a, s) else World.collidePair a s)
      as [a1 s1]. simpl in Hp. destruct Hp as [Ha Hs].
    destruct (IH a1) as [Ha1 Hrest].
    destruct (World.collideWithStatics a1 rest) as [a2 rest']. simpl in *.
    split; [eapply Rel_trans; eauto | constructor; assumption].
Qed.

Lemma detectFrom_rel (count : nat) :
  forall todo ss,
    Forall2 Rel todo (fst (World.detectFrom count todo ss))
    /\ Forall2 Rel ss (snd (World.detectFrom count todo ss)).
Proof.
  induction count as [| k IH]; intros todo ss.
  - simpl. destruct todo; simpl; split; apply Forall2_refl_on; assumption.
  - destruct todo as [| a later]; simpl.
    + split; [constructor | apply Forall2_refl_on; assumption].
    + destruct (collideWithLater_rel later a) as [Ha Hl].
      destruct (World.collideWithLater a later) as [a1 later1]. simpl in *.
      destruct (collideWithStatics_rel ss a1) as [Ha1 Hs].
      destruct (World.collideWithStatics a1 ss) as [a2 ss1]. simpl in *.
      destruct (IH later1 ss1) as [Hl2 Hs2].
      destruct (World.detectFrom k later1 ss1) as [later2 ss2]. simpl in *.
      split.
      * constructor; [eapply Rel_trans; eauto |].
        eapply Forall2_compose; eauto.
      * eapply Forall2_compose; eauto.
Qed.

Lemma detectCollisions_rel (w : World.PhysicsWorld) :
  Forall2 Rel (World.bodies w) (World.bodies (World.detectCollisions w))
  /\ Forall2 Rel (World.staticBodies w)
                 (World.staticBodies (World.detectCollisions w)).
Proof.
  unfold World.detectCollisions.
  pose proof (detectFrom_rel (List.length (World.bodies w)) (World.bodies w)
                (World.staticBodies w)) as H.
  destruct (World.detectFrom _ _ _) as [bs ss]. simpl in *. exact H.
Qed.

End CollisionPass.

Lemma collideWithLater_length (later : list Body.PhysicsBody) :
  forall a, List.length (snd (World.collideWithLater a later)) = List.length later.
Proof.
  induction later as [| b rest IH]; intros a; simpl; [reflexivity |].
  destruct (World.collidePair a b) as [a1 b1].
  specialize (IH a1). destruct (World.collideWithLater a1 rest). simpl in *.
  congruence.
Qed.

(** The outer loop's counter never runs out before the bodies do: with
    [count] at least the number of bodies left, the pass is the one run with
    exactly that number. *)
Lemma detectFrom_enough (count : nat) :
  forall todo ss,
    (List.length todo <= count)%nat ->
    World.detectFrom count todo ss
    = World.detectFrom (List.length todo) todo ss.
Proof.
  induction count as [| k IH]; intros todo ss Hle.
  - destruct todo; [reflexivity | simpl in Hle; lia].
  - destruct todo as [| a later]; [reflexivity |].
    simpl in Hle. simpl.
    pose proof (collideWithLater_length later a) as Hlen.
    destruct (World.collideWithLater a later) as [a1 later1]. simpl in Hlen.
    destruct (World.collideWithStatics a1 ss) as [a2 ss1].
    rewrite (IH later1 ss1) by lia. rewrite Hlen. reflexivity.
Qed.

(** ** What the operations preserve *)

Lemma updatePosition_position (c : Collider) (p : Vector3) :
  ColliderM.position (ColliderM.updatePosition c p) = p.
Proof. destruct c; reflexivity. Qed.

Lemma syncCollider_synced (b : Body.PhysicsBody) :
  colliderSynced (Body.syncCollider b).
Proof.
  unfold colliderSynced, Body.syncCollider. simpl.
  destruct (Body.collider b) as [c0 |]; simpl; intros c H; [| discriminate].
  injection H as <-. apply updatePosition_position.
Qed.

Lemma preserved_refl (b : Body.PhysicsBody) : preserved b b.
Proof. unfold preserved. repeat split; auto. Qed.

Lemma preserved_trans (a b c : Body.PhysicsBody) :
  preserved a b -> preserved b c -> preserved a c.
Proof.
  unfold preserved.
  intros (H1 & H2 & H3 & H4 & H5 & H6) (K1 & K2 & K3 & K4 & K5 & K6).
  repeat split; try congruence. auto.
Qed.

(** An update that leaves mass data, position and collider alone. *)
Lemma preserved_frame (b b' : Body.PhysicsBody) :
  Body.invMass b' = Body.invMass b ->
  Body.isStatic b' = Body.isStatic b ->
  Body.mass b' = Body.mass b ->
  Body.usesGravity b' = Body.usesGravity b ->
  Body.radius b' = Body.radius b ->
  Body.position b' = Body.position b ->
  Body.collider b' = Body.collider b ->
  preserved b b'.
Proof.
  intros H1 H2 H3 H4 H5 H6 H7. unfold preserved, colliderSynced.
  repeat split; try assumption. rewrite H6, H7. auto.
Qed.

(** A position change followed by the collider update. *)
Lemma preserved_move (b : Body.PhysicsBody) (p : Vector3) :
  preserved b (Body.syncCollider (Body.set_position b p)).
Proof.
  unfold preserved. repeat split. intros _. apply syncCollider_synced.
Qed.

Create HintDb pres.

#[local] Hint Resolve preserved_refl preserved_move : pres.
#[local] Hint Extern 3 (preserved _ _) =>
  (apply preserved_frame; reflexivity) : pres.
#[local] Hint Extern 5 (preserved _ _) =>
  (eapply preserved_trans; [| solve [apply preserved_frame; reflexivity]]) : pres.

Ltac split_ifs :=
  repeat match goal with
         | |- context [if ?c then _ else _] => destruct c
         end.

Lemma applyForce_preserved (b : Body.PhysicsBody) (f : Vector3) :
  preserved b (Body.applyForce b f).
Proof. unfold Body.applyForce. split_ifs; auto with pres. Qed.

Lemma applyImpulse_preserved (b : Body.PhysicsBody) (j : Vector3) :
  preserved b (Body.applyImpulse b j).
Proof. unfold Body.applyImpulse. split_ifs; auto with pres. Qed.

Lemma integrateForces_preserved (b : Body.PhysicsBody) (t : R) :
  preserved b (Body.integrateForces b t).
Proof. unfold Body.integrateForces. split_ifs; auto with pres. Qed.

Lemma stabilize_preserved (b : Body.PhysicsBody) : preserved b (Body.stabilize b).
Proof. unfold Body.stabilize. auto with pres. Qed.

Lemma integrateVelocity_preserved (b : Body.PhysicsBody) (t : R) :
  preserved b (Body.integrateVelocity b t).
Proof.
  unfold Body.integrateVelocity. destruct (Body.isStatic b); auto with pres.
  unfold preserved. repeat split. intros _. apply syncCollider_synced.
Qed.

(** Velocity integration puts the collider of a non-static body at the
    body's position, wherever it was before. *)
Lemma integrateVelocity_synced (b : Body.PhysicsBody) (t : R) :
  Body.isStatic b = false -> colliderSynced (Body.integrateVelocity b t).
Proof.
  intros H. unfold Body.integrateVelocity. rewrite H. apply syncCollider_synced.
Qed.

Lemma emergencyCorrection_preserved (p : Planet.PlanetBody) (b : Body.PhysicsBody) :
  preserved b (Planet.emergencyCorrection p b).
Proof. unfold Planet.emergencyCorrection. split_ifs; auto with pres. Qed.

Lemma applyGravitationalForce_preserved (p : Planet.PlanetBody) (b : Body.PhysicsBody) :
  preserved b (Planet.applyGravitationalForce p b).
Proof.
  unfold Planet.applyGravitationalForce.
  destruct (negb _); auto using applyForce_preserved with pres.
Qed.

Lemma gravityAndForces_preserved (w : World.PhysicsWorld) (t : R)
      (b : Body.PhysicsBody) :
  preserved b (World.gravityAndForces w t b).
Proof.
  unfold World.gravityAndForces.
  eapply preserved_trans; [| apply integrateForces_preserved].
  destruct (Body.usesGravity b); [| auto with pres].
  destruct (World.planetBody w);
    auto using applyGravitationalForce_preserved, applyForce_preserved.
Qed.

Lemma safetyTeleport_preserved (p : Planet.PlanetBody) (b : Body.PhysicsBody)
      (v : Vector3) :
  preserved b (fst (Planet.safetyTeleport p b v)).
Proof.
  unfold Planet.safetyTeleport. simpl. split_ifs; auto with pres.
  eapply preserved_trans; [apply preserved_move |]. auto with pres.
Qed.

Lemma writeSurfaceNormal_preserved (b : Body.PhysicsBody) (n : Vector3) :
  preserved b (Planet.writeSurfaceNormal b n).
Proof.
  unfold Planet.writeSurfaceNormal.
  destruct (Body.entity b) as [e |]; [| auto with pres].
  destruct (surfaceNormal e); auto with pres.
Qed.

Lemma groundState_preserved (b : Body.PhysicsBody) (n : Vector3) :
  preserved b (Planet.groundState b n).
Proof. unfold Planet.groundState. auto with pres. Qed.

Lemma surfaceResponse_preserved (p : Planet.PlanetBody) (b : Body.PhysicsBody)
      (fc : Vector3) (d : R) :
  preserved b (Planet.surfaceResponse p b fc d).
Proof.
  unfold Planet.surfaceResponse.
  eapply preserved_trans; [apply writeSurfaceNormal_preserved |].
  match goal with
  | |- preserved ?b2 (if Body.onGround ?b4 then _ else _) =>
      assert (H : preserved b2 b4);
      [| eapply preserved_trans; [exact H |];
         destruct (Body.onGround b4);
         auto using groundState_preserved with pres]
  end.
  destruct (ltb (1 / 100) _).
  - eapply preserved_trans; [| apply applyForce_preserved]. auto with pres.
  - auto with pres.
Qed.

Lemma handlePlanetSurfaceInteraction_preserved
      (p : Planet.PlanetBody) (b : Body.PhysicsBody) (t : R) :
  preserved b (Planet.handlePlanetSurfaceInteraction p b t).
Proof.
  unfold Planet.handlePlanetSurfaceInteraction.
  destruct (negb (Body.usesGravity b)); [auto with pres |].
  destruct (ltb _ (Planet.minSafeDistance p)).
  - pose proof (safetyTeleport_preserved p b
                  (Three.subVectors (Body.position b) (Planet.center p))) as H.
    destruct (Planet.safetyTeleport p b _) as [b1 fc]. simpl in H.
    eapply preserved_trans; [exact H | apply surfaceResponse_preserved].
  - apply surfaceResponse_preserved.
Qed.

Lemma checkWorldBounds_mass (w : World.PhysicsWorld) (b : Body.PhysicsBody) :
  let b' := World.checkWorldBounds w b in
  Body.invMass b' = Body.invMass b /\ Body.isStatic b' = Body.isStatic b
  /\ Body.mass b' = Body.mass b.
Proof.
  unfold World.checkWorldBounds. destruct (World.planetBody w); simpl; auto.
  split_ifs; simpl; auto.
Qed.

Lemma preserved_velocity_then_move (b : Body.PhysicsBody) (v p : Vector3) :
  preserved b (Body.syncCollider (Body.set_position (Body.set_velocity b v) p)).
Proof.
  eapply preserved_trans; [| apply preserved_move]. auto with pres.
Qed.

#[local] Hint Resolve preserved_velocity_then_move : pres.

Lemma resolveWithInfo_preserved (a b : Body.PhysicsBody) (i : CollisionInfo) :
  preserved a (fst (World.resolveWithInfo a b i))
  /\ preserved b (snd (World.resolveWithInfo a b i)).
Proof.
  unfold World.resolveWithInfo. split_ifs; simpl; split; auto with pres.
Qed.

Lemma resolveFallback_preserved (a b : Body.PhysicsBody) :
  preserved a (fst (World.resolveFallback a b))
  /\ preserved b (snd (World.resolveFallback a b)).
Proof.
  unfold World.resolveFallback. split_ifs; simpl; split; auto with pres.
Qed.

Lemma resolveCollision_preserved (a b : Body.PhysicsBody) :
  preserved a (fst (World.resolveCollision a b))
  /\ preserved b (snd (World.resolveCollision a b)).
Proof.
  unfold World.resolveCollision. destruct (World.collisionInfoFor a b).
  - apply resolveWithInfo_preserved.
  - apply resolveFallback_preserved.
Qed.

Lemma detectCollisions_preserved (w : World.PhysicsWorld) :
  Forall2 preserved (World.bodies w) (World.bodies (World.detectCollisions w))
  /\ Forall2 preserved (World.staticBodies w)
                       (World.staticBodies (World.detectCollisions w)).
Proof.
  apply detectCollisions_rel.
  - apply preserved_refl.
  - apply preserved_trans.
  - apply resolveCollision_preserved.
Qed.

(** The collision pass reads and writes the two body lists only. *)
Lemma detectCollisions_fields (w : World.PhysicsWorld) :
  let w' := World.detectCollisions w in
  World.planetBody w' = World.planetBody w
  /\ World.gravity w' = World.gravity w
  /\ World.accumulator w' = World.accumulator w
  /\ World.fixedTimeStep w' = World.fixedTimeStep w
  /\ World.groundThreshold w' = World.groundThreshold w
  /\ World.maxSubSteps w' = World.maxSubSteps w.
Proof.
  unfold World.detectCollisions. destruct (World.detectFrom _ _ _). simpl.
  repeat split; reflexivity.
Qed.

(** A sub-step reads and writes the two body lists only. *)
Lemma fixedUpdate_fields (t : R) (w : World.PhysicsWorld) :
  let w' := World.fixedUpdate t w in
  World.planetBody w' = World.planetBody w
  /\ World.gravity w' = World.gravity w
  /\ World.accumulator w' = World.accumulator w
  /\ World.fixedTimeStep w' = World.fixedTimeStep w
  /\ World.groundThreshold w' = World.groundThreshold w
  /\ World.maxSubSteps w' = World.maxSubSteps w.
Proof.
  unfold World.fixedUpdate.
  destruct (World.planetBody w) eqn:Ep; simpl; rewrite ?Ep;
    match goal with
    | |- context [World.detectCollisions ?x] =>
        pose proof (detectCollisions_fields x) as H; simpl in H;
        destruct H as (H1 & H2 & H3 & H4 & H5 & H6)
    end; simpl in *; rewrite ?Ep in *; rewrite H1; simpl;
    repeat split; assumption.
Qed.

(** ** The sub-step as per-body phases, collision pass and bounds pass *)

Lemma fixedUpdate_phases (t : R) (w : World.PhysicsWorld) :
  World.fixedUpdate t w
  = boundsPass (World.detectCollisions
                  (World.set_bodies w (map (perBodyPhases w t) (World.bodies w)))).
Proof.
  unfold World.fixedUpdate, boundsPass, perBodyPhases.
  destruct (World.planetBody w) as [p |] eqn:Ep; simpl; rewrite ?Ep; simpl.
  - rewrite !map_map. unfold World.gravityAndForces. simpl. rewrite Ep.
    reflexivity.
  - rewrite !map_map. unfold World.gravityAndForces. simpl. rewrite Ep.
    reflexivity.
Qed.

Lemma perBodyPhases_preserved (w : World.PhysicsWorld) (t : R) (b : Body.PhysicsBody) :
  preserved b (perBodyPhases w t b).
Proof.
  unfold perBodyPhases.
  destruct (World.planetBody w) as [p |].
  - eapply preserved_trans; [apply emergencyCorrection_preserved |].
    eapply preserved_trans; [apply integrateVelocity_preserved |].
    eapply preserved_trans; [apply gravityAndForces_preserved |].
    apply handlePlanetSurfaceInteraction_preserved.
  - eapply preserved_trans; [apply integrateVelocity_preserved |].
    apply gravityAndForces_preserved.
Qed.

Lemma preserved_keepsMass (b b' : Body.PhysicsBody) : preserved b b' -> keepsMass b b'.
Proof. unfold preserved, keepsMass. tauto. Qed.

Lemma keepsMass_trans (a b c : Body.PhysicsBody) :
  keepsMass a b -> keepsMass b c -> keepsMass a c.
Proof. unfold keepsMass. intros (? & ? & ?) (? & ? & ?). repeat split; congruence. Qed.

Lemma keepsMass_refl (b : Body.PhysicsBody) : keepsMass b b.
Proof. unfold keepsMass. auto. Qed.

Lemma Forall2_weaken {A : Type} (P Q : A -> A -> Prop) (l l' : list A) :
  (forall x y, P x y -> Q x y) -> Forall2 P l l' -> Forall2 Q l l'.
Proof. intros H F. induction F; constructor; auto. Qed.

(** Phases 1 to 5, on both lists. *)
Lemma beforeBounds_preserved (t : R) (w : World.PhysicsWorld) :
  let w5 := World.detectCollisions
              (World.set_bodies w (map (perBodyPhases w t) (World.bodies w))) in
  Forall2 preserved (World.bodies w) (World.bodies w5)
  /\ Forall2 preserved (World.staticBodies w) (World.staticBodies w5).
Proof.
  intros w5.
  destruct (detectCollisions_preserved
              (World.set_bodies w (map (perBodyPhases w t) (World.bodies w))))
    as [Hb Hs].
  split; [| exact Hs].
  eapply Forall2_compose; [apply preserved_trans | | exact Hb].
  simpl. apply Forall2_map_self. apply perBodyPhases_preserved.
Qed.

Lemma boundsPass_keepsMass (w : World.PhysicsWorld) :
  Forall2 keepsMass (World.bodies w) (World.bodies (boundsPass w))
  /\ World.staticBodies (boundsPass w) = World.staticBodies w.
Proof.
  unfold boundsPass. destruct (World.planetBody w) eqn:Ep.
  - split; [apply Forall2_refl_on, keepsMass_refl | reflexivity].
  - split; [| reflexivity]. simpl. apply Forall2_map_self.
    intros b. apply checkWorldBounds_mass.
Qed.

Lemma fixedUpdate_keepsMass (t : R) (w : World.PhysicsWorld) :
  Forall2 keepsMass (World.bodies w) (World.bodies (World.fixedUpdate t w))
  /\ Forall2 keepsMass (World.staticBodies w)
                       (World.staticBodies (World.fixedUpdate t w)).
Proof.
  rewrite fixedUpdate_phases.
  destruct (beforeBounds_preserved t w) as [Hb Hs].
  destruct (boundsPass_keepsMass
              (World.detectCollisions
                 (World.set_bodies w (map (perBodyPhases w t) (World.bodies w)))))
    as [Kb Ks].
  split.
  - eapply Forall2_compose; [apply keepsMass_trans | | exact Kb].
    eapply Forall2_weaken; [apply preserved_keepsMass | exact Hb].
  - rewrite Ks. eapply Forall2_weaken; [apply preserved_keepsMass | exact Hs].
Qed.

(** ** The step scheduler *)

Lemma fixedUpdate_set_accumulator (t a : R) (w : World.PhysicsWorld) :
  World.fixedUpdate t (World.set_accumulator w a)
  = World.set_accumulator (World.fixedUpdate t w) a.
Proof.
  unfold World.fixedUpdate, World.detectCollisions, World.gravityAndForces,
    World.checkWorldBounds. simpl.
  destruct (World.planetBody w) eqn:Ep; simpl; rewrite ?Ep; simpl;
    destruct (World.detectFrom _ _ _); simpl; rewrite ?Ep; reflexivity.
Qed.

Lemma runSteps_set_accumulator (steps : list R) :
  forall (a : R) (w : World.PhysicsWorld),
    runSteps steps (World.set_accumulator w a)
    = World.set_accumulator (runSteps steps w) a.
Proof.
  unfold runSteps. induction steps as [| t rest IH]; intros a w; simpl.
  - reflexivity.
  - rewrite fixedUpdate_set_accumulator. apply IH.
Qed.

Lemma runSteps_fields (steps : list R) :
  forall w, World.fixedTimeStep (runSteps steps w) = World.fixedTimeStep w
            /\ World.accumulator (runSteps steps w) = World.accumulator w
            /\ World.maxSubSteps (runSteps steps w) = World.maxSubSteps w
            /\ World.planetBody (runSteps steps w) = World.planetBody w.
Proof.
  unfold runSteps. induction steps as [| t rest IH]; intros w; simpl.
  - auto.
  - destruct (IH (World.fixedUpdate t w)) as (H1 & H2 & H3 & H4).
    destruct (fixedUpdate_fields t w) as (F1 & _ & F3 & F4 & _ & F6).
    simpl in *. repeat split; congruence.
Qed.

Lemma runSteps_app (l1 l2 : list R) (w : World.PhysicsWorld) :
  runSteps (l1 ++ l2) w = runSteps l2 (runSteps l1 w).
Proof. unfold runSteps. apply fold_left_app. Qed.

Lemma set_accumulator_twice (w : World.PhysicsWorld) (a b : R) :
  World.set_accumulator (World.set_accumulator w a) b = World.set_accumulator w b.
Proof. reflexivity. Qed.

Lemma set_accumulator_same (w : World.PhysicsWorld) :
  World.set_accumulator w (World.accumulator w) = w.
Proof. destruct w; reflexivity. Qed.

(** The [while] loop performs exactly the sub-steps listed by
    [loopTimeSteps], and leaves the accumulator it computes. *)
Lemma subStepLoop_runs (n : nat) :
  forall w,
    World.subStepLoop n w
    = (let '(l, acc, r) :=
         World.loopTimeSteps n (World.fixedTimeStep w) (World.accumulator w) in
       (World.set_accumulator (runSteps l w) acc, r)).
Proof.
  induction n as [| k IH]; intros w; simpl.
  - unfold runSteps. simpl. now rewrite set_accumulator_same.
  - destruct (leb (World.fixedTimeStep w) (World.accumulator w)).
    + rewrite IH. simpl.
      destruct (fixedUpdate_fields (World.fixedTimeStep w) w)
        as (_ & _ & F3 & F4 & _ & _). simpl in F3, F4. rewrite F3, F4.
      destruct (World.loopTimeSteps k _ _) as [[l acc] r].
      rewrite runSteps_set_accumulator, set_accumulator_twice.
      reflexivity.
    + unfold runSteps. simpl. now rewrite set_accumulator_same.
Qed.

(** [update] performs exactly the sub-steps listed by [timeSteps]. *)
Lemma update_runs_timeSteps (deltaTime : R) (w : World.PhysicsWorld) :
  World.update deltaTime w
  = World.set_accumulator (runSteps (World.timeSteps deltaTime w) w)
                          (World.accumulator (World.update deltaTime w)).
Proof.
  unfold World.update, World.timeSteps.
  rewrite subStepLoop_runs. simpl.
  destruct (World.loopTimeSteps _ _ _) as [[l acc] r].
  rewrite runSteps_set_accumulator, set_accumulator_twice.
  destruct r as [| r'].
  - simpl. destruct (ltb 0 acc).
    + rewrite runSteps_app. unfold runSteps at 1 3. simpl.
      rewrite fixedUpdate_set_accumulator. reflexivity.
    + reflexivity.
  - reflexivity.
Qed.

(** The loop makes [k <= n] full sub-steps; it stops early only when the
    accumulator has dropped below the fixed time step. *)
Lemma loopTimeSteps_spec (n : nat) (fts : R) :
  forall acc, exists k : nat,
    (k <= n)%nat
    /\ World.loopTimeSteps n fts acc = (repeat fts k, acc - INR k * fts, (n - k)%nat)
    /\ ((k < n)%nat -> acc - INR k * fts < fts).
Proof.
  induction n as [| m IH]; intros acc; simpl.
  - exists O. simpl. split; [lia | split; [| lia]].
    f_equal. f_equal. lra.
  - destruct (leb fts acc) eqn:E.
    + destruct (IH (acc - fts)) as (k & Hk & Heq & Hlt).
      exists (S k). rewrite Heq. rewrite S_INR. simpl repeat.
      split; [lia | split].
      * f_equal. f_equal. lra.
      * intros Hlt'. assert (Hk' : (k < m)%nat) by lia.
        specialize (Hlt Hk'). lra.
    + apply leb_false_iff in E. exists O. simpl.
      split; [lia | split; [| intros _; lra]].
      f_equal. f_equal. lra.
Qed.

Lemma simulatedTime_repeat (x : R) (k : nat) :
  simulatedTime (repeat x k) = INR k * x.
Proof.
  unfold simulatedTime. induction k as [| k IH].
  - simpl. lra.
  - rewrite S_INR. simpl. rewrite IH. lra.
Qed.

Lemma simulatedTime_app (l1 l2 : list R) :
  simulatedTime (l1 ++ l2) = simulatedTime l1 + simulatedTime l2.
Proof.
  unfold simulatedTime. induction l1 as [| x l IH]; simpl; [lra |].
  rewrite IH. lra.
Qed.

Lemma update_accumulator_and_steps (deltaTime : R) (w : World.PhysicsWorld) :
  let acc0 := World.accumulator w + Rmin deltaTime (1 / 10) in
  let fts := World.fixedTimeStep w in
  let n := World.maxSubSteps w in
  exists k : nat,
    (k <= n)%nat
    /\ ((World.timeSteps deltaTime w = repeat fts k
         /\ World.accumulator (World.update deltaTime w) = acc0 - INR k * fts
         /\ ((k < n)%nat -> acc0 - INR k * fts < fts)
         /\ (k = n -> acc0 - INR k * fts <= 0))
        \/ (k = n
            /\ 0 < acc0 - INR n * fts
            /\ World.timeSteps deltaTime w = repeat fts n ++ [acc0 - INR n * fts]
            /\ World.accumulator (World.update deltaTime w) = 0)).
Proof.
  intros acc0 fts n.
  destruct (loopTimeSteps_spec n fts acc0) as (k & Hk & Heq & Hlt).
  exists k. split; [assumption |].
  unfold World.update, World.timeSteps.
  rewrite subStepLoop_runs. simpl.
  fold acc0 fts n. rewrite Heq.
  destruct (Nat.eq_dec k n) as [-> | Hne].
  - rewrite Nat.sub_diag.
    destruct (Rlt_dec 0 (acc0 - INR n * fts)) as [E | E].
    + right. simpl. rewrite !(ltb_lt 0 (acc0 - INR n * fts)) by assumption.
      simpl. auto.
    + left. simpl. rewrite !(ltb_ge 0 (acc0 - INR n * fts)) by lra.
      simpl.
      split; [reflexivity | split; [reflexivity | split; [lia | intros _; lra]]].
  - left. destruct (n - k)%nat as [| r] eqn:Er; [lia |]. simpl.
    split; [reflexivity | split; [reflexivity | split; [auto | contradiction]]].
Qed.

(** C2: [update] is a total function that clamps the frame delta to 0.1,
    runs at most [maxSubSteps] sub-steps of [fixedTimeStep] and, when those
    are used up with a positive remainder pending, one more sub-step of that
    remainder, zeroing the accumulator; so it makes at most
    [maxSubSteps + 1] calls of [fixedUpdate], no simulated time is lost or
    invented, and (for a non-negative time step) simulated time advances by
    at most [maxSubSteps * fixedTimeStep] plus the leftover step. *)
Theorem update_terminates_bounded (deltaTime : R) (w : World.PhysicsWorld) :
  let capped := Rmin deltaTime (1 / 10) in
  let acc0 := World.accumulator w + capped in
  let fts := World.fixedTimeStep w in
  let n := World.maxSubSteps w in
  let steps := World.timeSteps deltaTime w in
  let w' := World.update deltaTime w in
  capped <= 1 / 10
  /\ w' = World.set_accumulator (runSteps steps w) (World.accumulator w')
  /\ (exists k : nat,
        (k <= n)%nat
        /\ ((steps = repeat fts k
             /\ World.accumulator w' = acc0 - INR k * fts
             /\ ((k < n)%nat -> World.accumulator w' < fts)
             /\ (k = n -> World.accumulator w' <= 0))
            \/ (k = n
                /\ 0 < acc0 - INR n * fts
                /\ steps = repeat fts n ++ [acc0 - INR n * fts]
                /\ World.accumulator w' = 0)))
  /\ (List.length steps <= S n)%nat
  /\ simulatedTime steps + World.accumulator w' = acc0
  /\ (0 <= fts ->
      simulatedTime steps <= INR n * fts + Rmax 0 (acc0 - INR n * fts)).
Proof.
  intros capped acc0 fts n steps w'.
  split; [apply Rmin_r |].
  split; [apply update_runs_timeSteps |].
  destruct (update_accumulator_and_steps deltaTime w) as (k & Hk & Hcases).
  fold capped acc0 fts n steps w' in Hcases.
  split.
  { exists k. split; [assumption |].
    destruct Hcases as [(Hs & Ha & Hlt & Hle) | (He & Hpos & Hs & Ha)].
    - left. rewrite Ha. auto.
    - right. auto. }
  assert (HkR : INR k <= INR n) by (apply le_INR; assumption).
  destruct Hcases as [(Hs & Ha & Hlt & Hle) | (He & Hpos & Hs & Ha)].
  - rewrite Hs, Ha, simulatedTime_repeat, repeat_length.
    split; [lia |]. split; [lra |].
    intros Hf. pose proof (Rmax_l 0 (acc0 - INR n * fts)). nra.
  - rewrite Hs, Ha, simulatedTime_app, simulatedTime_repeat, length_app,
      repeat_length.
    unfold simulatedTime at 1. simpl.
    split; [lia |]. split; [lra |].
    intros Hf. pose proof (Rmax_r 0 (acc0 - INR n * fts)). lra.
Qed.

Lemma update_terminates_bounded_witness :
  let w := World.newPhysicsWorld (-10) 60 in
  simulatedTime (World.timeSteps 1 w)
  <= INR 3 * (1 / 60) + Rmax 0 (0 + Rmin 1 (1 / 10) - INR 3 * (1 / 60)).
Proof.
  pose proof (update_terminates_bounded 1 (World.newPhysicsWorld (-10) 60))
    as (_ & _ & _ & _ & _ & H).
  apply H. simpl. lra.
Defined.

(** ** The constructor's mass data *)

Lemma newPhysicsBody_invMass_nonneg (o : Body.Options) :
  0 <= Body.invMass (Body.newPhysicsBody o).
Proof.
  unfold Body.newPhysicsBody. simpl.
  destruct (Body.orElse (Body.o_isStatic o) false); [lra |].
  destruct (ltb 0 (Body.orElse (Body.o_mass o) 1)) eqn:E; [| lra].
  apply ltb_true_iff in E. unfold Rdiv. rewrite Rmult_1_l.
  left. apply Rinv_0_lt_compat. assumption.
Qed.

Lemma newPhysicsBody_static_invMass (o : Body.Options) :
  Body.isStatic (Body.newPhysicsBody o) = true ->
  Body.invMass (Body.newPhysicsBody o) = 0.
Proof.
  unfold Body.newPhysicsBody. simpl. intros ->. reflexivity.
Qed.

Lemma newPhysicsBody_invMass_zero_iff (o : Body.Options) :
  Body.invMass (Body.newPhysicsBody o) = 0
  <-> Body.isStatic (Body.newPhysicsBody o) = true
      \/ Body.orElse (Body.o_mass o) 1 <= 0.
Proof.
  unfold Body.newPhysicsBody. simpl.
  destruct (Body.orElse (Body.o_isStatic o) false).
  - split; auto.
  - destruct (ltb 0 (Body.orElse (Body.o_mass o) 1)) eqn:E.
    + apply ltb_true_iff in E.
      assert (Hp : 0 < 1 / Body.orElse (Body.o_mass o) 1).
      { unfold Rdiv. rewrite Rmult_1_l. apply Rinv_0_lt_compat. assumption. }
      split; [lra | intros [Hd | Hm]; [discriminate | lra]].
    + apply ltb_false_iff in E. split; auto.
Qed.

(** ** Impulse resolution *)

Lemma resolveCollision_with_info (a b : Body.PhysicsBody) (info : CollisionInfo) :
  World.collisionInfoFor a b = Some info ->
  World.resolveCollision a b = World.resolveWithInfo a b info.
Proof. unfold World.resolveCollision. intros ->. reflexivity. Qed.

Lemma resolveWithInfo_separating (a b : Body.PhysicsBody) (info : CollisionInfo) :
  0 < Three.dot (Three.sub (Body.velocity a) (Body.velocity b)) (normal info) ->
  World.resolveWithInfo a b info = (a, b).
Proof.
  intros H. unfold World.resolveWithInfo. rewrite ltb_lt by assumption.
  reflexivity.
Qed.

Lemma resolveWithInfo_no_mass (a b : Body.PhysicsBody) (info : CollisionInfo) :
  Body.invMass a + Body.invMass b = 0 ->
  World.resolveWithInfo a b info = (a, b).
Proof.
  intros H. unfold World.resolveWithInfo. rewrite !num_or_zero.
  rewrite (eqb_eq _ 0) by assumption. destruct (ltb 0 _); reflexivity.
Qed.

Lemma velocity_syncCollider (b : Body.PhysicsBody) :
  Body.velocity (Body.syncCollider b) = Body.velocity b.
Proof. reflexivity. Qed.

Lemma resolveWithInfo_velocities (a b : Body.PhysicsBody) (info : CollisionInfo) :
  0 <= Body.invMass a -> 0 <= Body.invMass b ->
  let van := Three.dot (Three.sub (Body.velocity a) (Body.velocity b))
                       (normal info) in
  van <= 0 ->
  Body.invMass a + Body.invMass b <> 0 ->
  let e := Rmin (Body.restitution a) (Body.restitution b) in
  let j := - (1 + e) * van / (Body.invMass a + Body.invMass b) in
  Body.velocity (fst (World.resolveWithInfo a b info))
  = Three.add (Body.velocity a)
              (Three.multiplyScalar (normal info) (j * Body.invMass a))
  /\ Body.velocity (snd (World.resolveWithInfo a b info))
     = Three.sub (Body.velocity b)
                 (Three.multiplyScalar (normal info) (j * Body.invMass b)).
Proof.
  intros Ha Hb van Hv Hsum e j.
  unfold World.resolveWithInfo. fold van. rewrite !num_or_zero. fold e.
  rewrite (ltb_ge 0 van) by assumption.
  rewrite (eqb_neq _ 0) by assumption. fold j.
  assert (Ea : ltb 0 (Body.invMass a) = false -> Body.invMass a = 0).
  { intros E. apply ltb_false_iff in E. lra. }
  assert (Eb : ltb 0 (Body.invMass b) = false -> Body.invMass b = 0).
  { intros E. apply ltb_false_iff in E. lra. }
  destruct (ltb 0 (depth info));
    destruct (ltb 0 (Body.invMass a)) eqn:E1;
    destruct (ltb 0 (Body.invMass b)) eqn:E2;
    simpl; split;
    try (rewrite (Ea eq_refl)); try (rewrite (Eb eq_refl));
    apply vec3_eq; simpl; ring.
Qed.

Lemma resolveWithInfo_positions (a b : Body.PhysicsBody) (info : CollisionInfo) :
  0 <= Body.invMass a -> 0 <= Body.invMass b ->
  Three.dot (Three.sub (Body.velocity a) (Body.velocity b)) (normal info) <= 0 ->
  Body.invMass a + Body.invMass b <> 0 ->
  0 < depth info ->
  let sum := Body.invMass a + Body.invMass b in
  let r := World.resolveWithInfo a b info in
  Body.position (fst r)
  = Three.add (Body.position a)
      (Three.multiplyScalar (normal info)
         (depth info * (1 / 10) * (Body.invMass a / sum)))
  /\ Body.position (snd r)
     = Three.sub (Body.position b)
         (Three.multiplyScalar (normal info)
            (depth info * (1 / 10) * (Body.invMass b / sum))).
Proof.
  intros Ha Hb Hv Hsum Hd sum r. subst r.
  unfold World.resolveWithInfo. rewrite !num_or_zero. fold sum.
  rewrite (ltb_ge 0 _ Hv).
  rewrite (eqb_neq sum 0) by assumption.
  rewrite (ltb_lt 0 (depth info)) by assumption.
  assert (Ea : ltb 0 (Body.invMass a) = false -> Body.invMass a = 0).
  { intros E. apply ltb_false_iff in E. lra. }
  assert (Eb : ltb 0 (Body.invMass b) = false -> Body.invMass b = 0).
  { intros E. apply ltb_false_iff in E. lra. }
  destruct (ltb 0 (Body.invMass a)) eqn:E1;
    destruct (ltb 0 (Body.invMass b)) eqn:E2;
    simpl; split;
    try (rewrite (Ea eq_refl)); try (rewrite (Eb eq_refl));
    apply vec3_eq; simpl; unfold Rdiv; ring.
Qed.

(** The contact branch of [resolveCollision] by the sign of the relative
    velocity of A with respect to B along the info's normal n: when it is
    positive the pair is left untouched, a pair whose inverse masses sum to
    zero is left untouched, and otherwise A's velocity gains
    j * invMassA * n and B's velocity loses j * invMassB * n, with
    e = min(restitutionA, restitutionB) and
    j = -(1 + e) * velAlongNormal / (invMassA + invMassB).  Inverse masses
    are non-negative, as the constructor makes them.  Whether a positive
    sign means that the bodies separate depends on which way n points. *)
Theorem impulse_resolution (a b : Body.PhysicsBody) (info : CollisionInfo) :
  World.collisionInfoFor a b = Some info ->
  0 <= Body.invMass a -> 0 <= Body.invMass b ->
  let n := normal info in
  let velAlongNormal :=
    Three.dot (Three.sub (Body.velocity a) (Body.velocity b)) n in
  let e := Rmin (Body.restitution a) (Body.restitution b) in
  let j := - (1 + e) * velAlongNormal / (Body.invMass a + Body.invMass b) in
  let a' := fst (World.resolveCollision a b) in
  let b' := snd (World.resolveCollision a b) in
  (0 < velAlongNormal -> a' = a /\ b' = b)
  /\ (Body.invMass a + Body.invMass b = 0 -> a' = a /\ b' = b)
  /\ (velAlongNormal <= 0 -> Body.invMass a + Body.invMass b <> 0 ->
      Body.velocity a'
      = Three.add (Body.velocity a) (Three.multiplyScalar n (j * Body.invMass a))
      /\ Body.velocity b'
         = Three.sub (Body.velocity b) (Three.multiplyScalar n (j * Body.invMass b))).
Proof.
  intros Hinfo Ha Hb n van e j a' b'. subst a' b'.
  rewrite (resolveCollision_with_info a b info Hinfo).
  split; [| split].
  - intros Hv. rewrite resolveWithInfo_separating by assumption. auto.
  - intros Hs. rewrite resolveWithInfo_no_mass by assumption. auto.
  - intros Hv Hs. apply resolveWithInfo_velocities; assumption.
Qed.

Lemma impulse_resolution_witness :
  let p := vec3 0 0 0 in
  let p' := vec3 (0 + 3 / 2) 0 0 in
  let a := Body.newPhysicsBody (placedOptions p (vec3 1 0 0)) in
  let b := Body.newPhysicsBody (placedOptions p' (vec3 0 0 0)) in
  let n := Three.normalize (Three.sub p p') in
  let velAlongNormal :=
    Three.dot (Three.sub (Body.velocity a) (Body.velocity b)) n in
  let e := Rmin (Body.restitution a) (Body.restitution b) in
  let j := - (1 + e) * velAlongNormal / (Body.invMass a + Body.invMass b) in
  let a' := fst (World.resolveCollision a b) in
  let b' := snd (World.resolveCollision a b) in
  (0 < velAlongNormal -> a' = a /\ b' = b)
  /\ (Body.invMass a + Body.invMass b = 0 -> a' = a /\ b' = b)
  /\ (velAlongNormal <= 0 -> Body.invMass a + Body.invMass b <> 0 ->
      Body.velocity a'
      = Three.add (Body.velocity a) (Three.multiplyScalar n (j * Body.invMass a))
      /\ Body.velocity b'
         = Three.sub (Body.velocity b) (Three.multiplyScalar n (j * Body.invMass b))).
Proof.
  intros p p' a b n.
  assert (Hd : Three.distanceTo p p' = 3 / 2) by (apply distanceTo_along_x; lra).
  assert (Hinfo : World.collisionInfoFor a b
                  = Some (mkInfo n (1 + 1 - Three.distanceTo p p')
                                 (Three.add (Three.multiplyScalar n 1) p))).
  { unfold World.collisionInfoFor, Body.checkCollision. simpl.
    fold p p'. rewrite Hd. rewrite ltb_lt by lra. reflexivity. }
  apply (impulse_resolution a b _ Hinfo).
  - apply newPhysicsBody_invMass_nonneg.
  - apply newPhysicsBody_invMass_nonneg.
Defined.

Lemma newPhysicsBody_boxBody (p v : Vector3) :
  Body.newPhysicsBody
    (Body.mkOptions (Some p) (Some v) None None None None None None None None
                    (Some (vec3 1 1 1)) None None None)
  = boxBody p v.
Proof.
  unfold Body.newPhysicsBody, boxBody. simpl. rewrite ltb_lt by lra.
  f_equal. lra.
Qed.

(** Two unit boxes 3/2 apart along X: they intersect, and the contact the
    first reports has its normal pointing at the second. *)
Lemma box_pair_contact (v v' : Vector3) :
  let a := boxBody Three.zero v in
  let b := boxBody (vec3 (3 / 2) 0 0) v' in
  World.checkCollision a b = true
  /\ World.collisionInfoFor a b
     = Some (mkInfo (vec3 1 0 0) (1 / 2) (vec3 (3 / 4) 0 0)).
Proof.
  intros a b.
  set (p := Three.zero). set (p' := vec3 (3 / 2) 0 0). set (h := vec3 1 1 1).
  assert (Ox : ColliderM.overlapOn p h p' h (vec3 1 0 0) = 1 / 2).
  { rewrite overlapOn_x. simpl. rewrite Rabs_R1. minmax. }
  assert (Oy : ColliderM.overlapOn p h p' h (vec3 0 1 0) = 2).
  { rewrite overlapOn_y. simpl. rewrite Rabs_R1. minmax. }
  assert (Oz : ColliderM.overlapOn p h p' h (vec3 0 0 1) = 2).
  { rewrite overlapOn_z. simpl. rewrite Rabs_R1. minmax. }
  split.
  - unfold World.checkCollision, a, b, boxBody. simpl.
    fold p p' h. apply boxIntersectsBox_of_overlaps; simpl; lra.
  - unfold World.collisionInfoFor, Body.checkCollision, a, b, boxBody.
    cbn [Body.class Body.collider]. fold p p' h.
    rewrite box_info_overlapping by (simpl; lra).
    rewrite Ox, Oy, Oz. f_equal. f_equal.
    + unfold leastOverlapAxis, orientedAxis.
      rewrite (leb_le (1 / 2) 2) by lra. simpl.
      rewrite ltb_ge; [reflexivity |].
      unfold Three.dot, Three.subVectors, Three.sub. simpl. lra.
    + minmax.
    + apply vec3_eq; simpl; lra.
Qed.

Lemma normalize_minus_x (d : R) :
  0 < d -> Three.normalize (vec3 (- d) 0 0) = vec3 (-1) 0 0.
Proof.
  intros H. unfold Three.normalize, Three.length, Three.lengthSq, Three.dot.
  simpl. replace (- d * - d + 0 * 0 + 0 * 0) with (d * d) by ring.
  rewrite sqrt_square by lra. rewrite num_or_nonzero by lra.
  apply vec3_eq; simpl; field; lra.
Qed.

(** Two unit spheres 3/2 apart along X: the contact the first reports has its
    normal pointing away from the second. *)
Lemma sphere_pair_contact (v v' : Vector3) :
  let a := unitBody Three.zero v Three.zero Three.zero false in
  let b := unitBody (vec3 (3 / 2) 0 0) v' Three.zero Three.zero false in
  World.checkCollision a b = true
  /\ World.collisionInfoFor a b
     = Some (mkInfo (vec3 (-1) 0 0) (1 / 2) (vec3 (-1) 0 0)).
Proof.
  intros a b.
  assert (Hd : Three.distanceTo Three.zero (vec3 (3 / 2) 0 0) = 3 / 2).
  { replace (vec3 (3 / 2) 0 0) with (vec3 (0 + 3 / 2) 0 0)
      by (apply vec3_eq; simpl; lra).
    apply distanceTo_along_x. lra. }
  assert (Hn : Three.normalize (Three.sub Three.zero (vec3 (3 / 2) 0 0))
               = vec3 (-1) 0 0).
  { replace (Three.sub Three.zero (vec3 (3 / 2) 0 0)) with (vec3 (- (3 / 2)) 0 0)
      by (apply vec3_eq; simpl; lra).
    apply normalize_minus_x. lra. }
  split.
  - unfold World.checkCollision, a, b, unitBody.
    cbn [Body.collider].
    change (SphereCollider ?q 1) with (ColliderM.newSphereCollider q 1).
    apply sphere_intersects_iff.
    unfold Three.distanceToSquared, Three.lengthSq, Three.dot, Three.sub.
    simpl. lra.
  - unfold World.collisionInfoFor, Body.checkCollision, a, b, unitBody.
    cbn [Body.class Body.collider].
    change (SphereCollider ?q 1) with (ColliderM.newSphereCollider q 1).
    rewrite sphere_info_hit by (rewrite Hd; lra).
    rewrite Hd, Hn. f_equal. f_equal; [lra | apply vec3_eq; simpl; lra].
Qed.

(** C3, at the failing input: two dynamic boxes of half-extents (1, 1, 1),
    A at the origin and B resting at (3/2, 0, 0), overlapping by 1/2 along X.
    The contact A reports has the normal (1, 0, 0), from A to B.  When A
    moves toward B at speed 1 the relative velocity along that normal is
    positive and the pair is left as it is, still overlapping.  When A moves
    away from B at speed 1 the bodies are separating, yet the resolution
    runs: A's velocity becomes -9/20 and B's -11/20, so B is set in pursuit
    of A, and the positional correction moves each box 1/40 toward the
    other, deepening the overlap.  Two unit spheres at the same places and
    with the same velocities, whose contact normal (-1, 0, 0) points from B
    to A, are treated the other way round: the separating pair is left alone
    and the approaching pair bounces and is pushed apart. *)
Theorem separating_boxes_driven_together :
  let still := vec3 (3 / 2) 0 0 in
  let toward := vec3 1 0 0 in
  let away := vec3 (-1) 0 0 in
  let boxB := boxBody still Three.zero in
  let sphere p v := unitBody p v Three.zero Three.zero false in
  let sphereB := sphere still Three.zero in
  (* boxes *)
  World.checkCollision (boxBody Three.zero away) boxB = true
  /\ World.collisionInfoFor (boxBody Three.zero away) boxB
     = Some (mkInfo (vec3 1 0 0) (1 / 2) (vec3 (3 / 4) 0 0))
  /\ World.collidePair (boxBody Three.zero toward) boxB
     = (boxBody Three.zero toward, boxB)
  /\ (let r := World.collidePair (boxBody Three.zero away) boxB in
      Body.velocity (fst r) = vec3 (- (9 / 20)) 0 0
      /\ Body.velocity (snd r) = vec3 (- (11 / 20)) 0 0
      /\ Body.position (fst r) = vec3 (1 / 40) 0 0
      /\ Body.position (snd r) = vec3 (3 / 2 - 1 / 40) 0 0)
  (* spheres *)
  /\ World.collidePair (sphere Three.zero away) sphereB
     = (sphere Three.zero away, sphereB)
  /\ (let r := World.collidePair (sphere Three.zero toward) sphereB in
      Body.velocity (fst r) = vec3 (9 / 20) 0 0
      /\ Body.velocity (snd r) = vec3 (11 / 20) 0 0
      /\ Body.position (fst r) = vec3 (- (1 / 40)) 0 0
      /\ Body.position (snd r) = vec3 (3 / 2 + 1 / 40) 0 0).
Proof.
  intros still toward away boxB sphere sphereB.
  destruct (box_pair_contact away Three.zero) as [Bc Bi].
  destruct (box_pair_contact toward Three.zero) as [Bc' Bi'].
  destruct (sphere_pair_contact away Three.zero) as [Sc Si].
  destruct (sphere_pair_contact toward Three.zero) as [Sc' Si'].
  cbv zeta in *. subst sphereB sphere. cbv beta.
  fold still boxB in Bc, Bi, Bc', Bi'. fold still in Sc, Si, Sc', Si'.
  set (sphereB := unitBody still Three.zero Three.zero Three.zero false) in *.
  split; [exact Bc |]. split; [exact Bi |].
  split.
  { unfold World.collidePair. rewrite Bc'.
    rewrite (resolveCollision_with_info _ _ _ Bi').
    apply resolveWithInfo_separating.
    unfold Three.dot, Three.sub. simpl. lra. }
  split.
  { unfold World.collidePair. rewrite Bc.
    rewrite (resolveCollision_with_info _ _ _ Bi).
    set (a := boxBody Three.zero away).
    set (info := mkInfo (vec3 1 0 0) (1 / 2) (vec3 (3 / 4) 0 0)).
    assert (Hv : Three.dot (Three.sub (Body.velocity a) (Body.velocity boxB))
                           (normal info) <= 0)
      by (unfold Three.dot, Three.sub; simpl; lra).
    assert (Ha : 0 <= Body.invMass a) by (simpl; lra).
    assert (Hb : 0 <= Body.invMass boxB) by (simpl; lra).
    assert (Hs : Body.invMass a + Body.invMass boxB <> 0) by (simpl; lra).
    destruct (resolveWithInfo_velocities a boxB info Ha Hb Hv Hs) as [V1 V2].
    destruct (resolveWithInfo_positions a boxB info Ha Hb Hv Hs) as [P1 P2];
      [simpl; lra |].
    cbv zeta in V1, V2, P1, P2. rewrite V1, V2, P1, P2.
    assert (Hm : Rmin (1 / 10) (1 / 10) = 1 / 10) by minmax.
    repeat split; apply vec3_eq; simpl; rewrite ?Hm;
      unfold Three.dot, Three.sub; simpl; lra. }
  split.
  { unfold World.collidePair. rewrite Sc.
    rewrite (resolveCollision_with_info _ _ _ Si).
    apply resolveWithInfo_separating.
    unfold Three.dot, Three.sub. simpl. lra. }
  unfold World.collidePair. rewrite Sc'.
  rewrite (resolveCollision_with_info _ _ _ Si').
  set (a := unitBody Three.zero toward Three.zero Three.zero false).
  set (info := mkInfo (vec3 (-1) 0 0) (1 / 2) (vec3 (-1) 0 0)).
  assert (Hv : Three.dot (Three.sub (Body.velocity a) (Body.velocity sphereB))
                         (normal info) <= 0)
    by (unfold Three.dot, Three.sub; simpl; lra).
  assert (Ha : 0 <= Body.invMass a) by (simpl; lra).
  assert (Hb : 0 <= Body.invMass sphereB) by (simpl; lra).
  assert (Hs : Body.invMass a + Body.invMass sphereB <> 0) by (simpl; lra).
  destruct (resolveWithInfo_velocities a sphereB info Ha Hb Hv Hs) as [V1 V2].
  destruct (resolveWithInfo_positions a sphereB info Ha Hb Hv Hs) as [P1 P2];
    [simpl; lra |].
  cbv zeta in V1, V2, P1, P2. rewrite V1, V2, P1, P2.
  assert (Hm : Rmin (1 / 10) (1 / 10) = 1 / 10) by minmax.
  repeat split; apply vec3_eq; simpl; rewrite ?Hm;
    unfold Three.dot, Three.sub; simpl; lra.
Qed.

(** ** From one sub-step to [update] *)

Section UpdateLift.

Variable Inv : World.PhysicsWorld -> World.PhysicsWorld -> Prop.
Hypothesis Inv_refl : forall w, Inv w w.
Hypothesis Inv_trans : forall a b c, Inv a b -> Inv b c -> Inv a c.
Hypothesis Inv_step : forall t w, Inv w (World.fixedUpdate t w).
Hypothesis Inv_accumulator : forall w a, Inv w (World.set_accumulator w a).

Lemma subStepLoop_lift (n : nat) :
  forall w, Inv w (fst (World.subStepLoop n w)).
Proof.
  induction n as [| k IH]; intros w; simpl; [apply Inv_refl |].
  destruct (leb _ _); [| apply Inv_refl].
  eapply Inv_trans; [apply Inv_step |].
  eapply Inv_trans; [apply Inv_accumulator |]. apply IH.
Qed.

Lemma update_lift (deltaTime : R) (w : World.PhysicsWorld) :
  Inv w (World.update deltaTime w).
Proof.
  unfold World.update.
  eapply Inv_trans; [apply Inv_accumulator |].
  match goal with
  | |- context [World.subStepLoop ?n ?w0] =>
      pose proof (subStepLoop_lift n w0) as H;
      destruct (World.subStepLoop n w0) as [w1 r]
  end.
  simpl in H. eapply Inv_trans; [exact H |].
  destruct r; [| apply Inv_refl].
  destruct (ltb 0 _); [| apply Inv_refl].
  eapply Inv_trans; [apply Inv_step | apply Inv_accumulator].
Qed.

End UpdateLift.

Lemma update_keepsMass (deltaTime : R) (w : World.PhysicsWorld) :
  Forall2 keepsMass (World.bodies w) (World.bodies (World.update deltaTime w))
  /\ Forall2 keepsMass (World.staticBodies w)
                       (World.staticBodies (World.update deltaTime w)).
Proof.
  apply (update_lift
           (fun w w' =>
              Forall2 keepsMass (World.bodies w) (World.bodies w')
              /\ Forall2 keepsMass (World.staticBodies w) (World.staticBodies w'))).
  - intros w0. split; apply Forall2_refl_on, keepsMass_refl.
  - intros a b c [H1 H2] [K1 K2].
    split; eapply Forall2_compose; eauto using keepsMass_trans.
  - intros t w0. apply fixedUpdate_keepsMass.
  - intros w0 a. simpl. split; apply Forall2_refl_on, keepsMass_refl.
Qed.

(** C5, counterexample: a body constructed with [{ mass: 0 }] is not static,
    yet its inverse mass is 0. *)
Lemma massless_dynamic_body :
  let b := Body.newPhysicsBody
             (Body.mkOptions None None None (Some 0) None None None None None
                             None None None None None) in
  Body.invMass b = 0 /\ Body.isStatic b = false
  /\ ~ (Body.invMass b = 0 <-> Body.isStatic b = true).
Proof.
  simpl. rewrite ltb_ge by lra.
  split; [reflexivity | split; [reflexivity |]].
  intros [H _]. specialize (H eq_refl). discriminate.
Qed.

(** C5 (amended): after construction a static body has inverse mass 0, and
    the inverse mass is 0 exactly when the body is static or its mass option
    (1 by default) is not positive; the inverse mass is never negative.  The
    inverse mass, the mass and the static flag of every body, dynamic or
    static, are left unchanged by [applyForce], [applyImpulse] and by every
    [update] of a world holding the body. *)
Theorem inverse_mass_invariant (o : Body.Options) (f : Vector3)
        (deltaTime : R) (w : World.PhysicsWorld) :
  let b := Body.newPhysicsBody o in
  (Body.isStatic b = true -> Body.invMass b = 0)
  /\ (Body.invMass b = 0
      <-> Body.isStatic b = true \/ Body.orElse (Body.o_mass o) 1 <= 0)
  /\ 0 <= Body.invMass b
  /\ keepsMass b (Body.applyForce b f)
  /\ keepsMass b (Body.applyImpulse b f)
  /\ Forall2 keepsMass (World.bodies w) (World.bodies (World.update deltaTime w))
  /\ Forall2 keepsMass (World.staticBodies w)
                       (World.staticBodies (World.update deltaTime w)).
Proof.
  intros b.
  split; [apply newPhysicsBody_static_invMass |].
  split; [apply newPhysicsBody_invMass_zero_iff |].
  split; [apply newPhysicsBody_invMass_nonneg |].
  split; [apply preserved_keepsMass, applyForce_preserved |].
  split; [apply preserved_keepsMass, applyImpulse_preserved |].
  apply update_keepsMass.
Qed.

Lemma inverse_mass_invariant_witness :
  let b := Body.newPhysicsBody (Body.staticOptions noOptions) in
  Body.invMass b = 0.
Proof.
  pose proof (inverse_mass_invariant (Body.staticOptions noOptions) Three.zero 0
                (World.newPhysicsWorld (-10) 60)) as (H & _).
  apply H. reflexivity.
Defined.

(** ** Flat-world bounds *)

(** C9, counterexample: in a flat world a body below the ground threshold
    (here below height 0) that is moving upward faster than 0.1 is moved to
    height 0.05 but is not classified as grounded. *)
Lemma rising_body_not_grounded :
  let w := World.newPhysicsWorld (-10) 60 in
  let b := Body.newPhysicsBody (placedOptions (vec3 0 (-1) 0) (vec3 0 (1 / 2) 0)) in
  let b' := World.checkWorldBounds w b in
  vy (Body.position b) < World.groundThreshold w
  /\ Body.position b' = vec3 0 (5 / 100) 0
  /\ Body.onGround b' = false
  /\ Body.velocity b' = vec3 0 (1 / 2) 0.
Proof.
  unfold World.checkWorldBounds. simpl.
  rewrite (ltb_lt (-1) (15 / 100)) by lra.
  rewrite (ltb_lt (-1) 0) by lra. simpl.
  rewrite (leb_gt (1 / 2) (1 / 10)) by lra. simpl.
  repeat split; try reflexivity; lra.
Qed.

(** C9 (amended): with no planet field set, the bounds check on a body
    - at or above the ground threshold marks it not grounded and leaves its
      position and velocity alone;
    - below the threshold, moves it to height 0.05 when its height is
      negative (and leaves its position alone otherwise), and, when its
      vertical velocity is at most 0.1, marks it grounded and zeroes a
      negative vertical velocity; a body rising faster than 0.1 keeps its
      ground flag and velocity.
    The horizontal coordinates never change. *)
Theorem flat_world_bounds (w : World.PhysicsWorld) (b : Body.PhysicsBody) :
  World.planetBody w = None ->
  let b' := World.checkWorldBounds w b in
  let y := vy (Body.position b) in
  let v := vy (Body.velocity b) in
  (World.groundThreshold w <= y ->
   Body.onGround b' = false
   /\ Body.position b' = Body.position b /\ Body.velocity b' = Body.velocity b)
  /\ (y < World.groundThreshold w ->
      (y < 0 -> Body.position b' = World.set_vy (Body.position b) (5 / 100))
      /\ (0 <= y -> Body.position b' = Body.position b)
      /\ (v <= 1 / 10 ->
          Body.onGround b' = true
          /\ Body.velocity b' = World.set_vy (Body.velocity b) (Rmax v 0))
      /\ (1 / 10 < v ->
          Body.onGround b' = Body.onGround b
          /\ Body.velocity b' = Body.velocity b))
  /\ vx (Body.position b') = vx (Body.position b)
  /\ vz (Body.position b') = vz (Body.position b).
Proof.
  intros Hp b' y v. unfold b', World.checkWorldBounds. rewrite Hp. fold y.
  split; [| split].
  - intros Hy. rewrite (ltb_ge y _) by assumption. simpl. auto.
  - intros Hy. rewrite (ltb_lt y _) by assumption.
    assert (Hv : forall q, Body.velocity
                             (if ltb y 0 then Body.set_position b q else b)
                           = Body.velocity b)
      by (intros q; destruct (ltb y 0); reflexivity).
    rewrite Hv. fold v.
    split; [| split; [| split]].
    + intros H0. rewrite (ltb_lt y 0) by assumption.
      destruct (leb v (1 / 10)); simpl; [| reflexivity].
      fold v. destruct (ltb v 0); reflexivity.
    + intros H0. rewrite (ltb_ge y 0) by assumption.
      destruct (leb v (1 / 10)); simpl; [| reflexivity].
      fold v. destruct (ltb v 0); reflexivity.
    + intros Hle. rewrite (leb_le v _) by assumption. simpl. rewrite Hv. fold v.
      destruct (Rlt_dec v 0) as [Hn | Hn].
      * rewrite (ltb_lt v 0) by assumption. simpl.
        rewrite Rmax_right by lra. destruct (ltb y 0); auto.
      * rewrite (ltb_ge v 0) by lra. simpl.
        rewrite Rmax_left by lra.
        split; [reflexivity |].
        destruct (ltb y 0); simpl; unfold World.set_vy;
          fold v; destruct (Body.velocity b); reflexivity.
    + intros Hgt. rewrite (leb_gt v _) by assumption.
      destruct (ltb y 0); auto.
  - destruct (ltb y (World.groundThreshold w)); [| simpl; auto].
    destruct (ltb y 0); simpl;
      destruct (leb _ (1 / 10)); simpl; try destruct (ltb _ 0); simpl; auto.
Qed.

Lemma flat_world_bounds_witness :
  let w := World.newPhysicsWorld (-10) 60 in
  let b := Body.newPhysicsBody (placedOptions (vec3 0 (-1) 0) (vec3 0 (-3) 0)) in
  let b' := World.checkWorldBounds w b in
  Body.position b' = World.set_vy (Body.position b) (5 / 100)
  /\ Body.onGround b' = true
  /\ Body.velocity b' = World.set_vy (Body.velocity b) (Rmax (-3) 0).
Proof.
  intros w b b'.
  destruct (flat_world_bounds w b eq_refl) as (_ & H & _).
  simpl in H. destruct H as (H1 & _ & H2 & _); [lra |].
  split; [apply H1; lra | apply H2; lra].
Defined.

(** ** [clear] *)

(** With a planet installed, phase 3 applies the radial force. *)
Lemma gravityAndForces_radial (w : World.PhysicsWorld) (p : Planet.PlanetBody)
      (t : R) (b : Body.PhysicsBody) :
  World.planetBody w = Some p ->
  World.gravityAndForces w t b
  = Body.integrateForces (Planet.applyGravitationalForce p b) t.
Proof.
  intros Hp. unfold World.gravityAndForces, Planet.applyGravitationalForce.
  rewrite Hp. destruct (Body.usesGravity b); reflexivity.
Qed.

Lemma collideWithStatics_planets (ss : list Body.PhysicsBody) :
  Forall (fun s => Body.isPlanet s = true) ss ->
  forall a, World.collideWithStatics a ss = (a, ss).
Proof.
  induction 1 as [| s rest Hs Hrest IH]; intros a; simpl; [reflexivity |].
  rewrite Hs, IH. reflexivity.
Qed.

(** A world with one dynamic body and no static body other than planets has
    nothing to collide. *)
Lemma detectCollisions_single (w : World.PhysicsWorld) (b : Body.PhysicsBody) :
  World.bodies w = [b] ->
  Forall (fun s => Body.isPlanet s = true) (World.staticBodies w) ->
  World.detectCollisions w = w.
Proof.
  intros Hb Hs. unfold World.detectCollisions. rewrite Hb. simpl.
  rewrite (collideWithStatics_planets _ Hs).
  destruct w; simpl in *; subst; reflexivity.
Qed.

Lemma fixedUpdate_single_planet (t : R) (w : World.PhysicsWorld)
      (p : Planet.PlanetBody) (b : Body.PhysicsBody) :
  World.planetBody w = Some p ->
  World.bodies w = [b] ->
  Forall (fun s => Body.isPlanet s = true) (World.staticBodies w) ->
  World.fixedUpdate t w
  = World.set_bodies w
      [Planet.handlePlanetSurfaceInteraction p
         (Body.integrateForces
            (Planet.applyGravitationalForce p
               (Body.integrateVelocity (Planet.emergencyCorrection p b) t)) t) t].
Proof.
  intros Hp Hb Hs. rewrite fixedUpdate_phases. rewrite Hb. simpl map.
  rewrite (detectCollisions_single _ (perBodyPhases w t b))
    by (simpl; auto).
  unfold boundsPass. simpl. rewrite Hp.
  unfold perBodyPhases. rewrite Hp.
  rewrite (gravityAndForces_radial w p) by assumption. reflexivity.
Qed.

(** C10: [clear] leaves in the two lists only the player's body, in the
    list its static flag selects, or nothing when there is no player body,
    and changes no other field: the planet field, the gravity vector and the
    accumulator are kept.  A sub-step after [clear] on a world with a planet
    installed and a dynamic player body is the radial model alone: emergency
    correction, velocity integration, radial gravity, force integration and
    surface interaction, with no static body left in the lists. *)
Theorem clear_keeps_planet_field (playerBody : option Body.PhysicsBody)
        (w : World.PhysicsWorld) :
  let w' := World.clear playerBody w in
  (forall pb, playerBody = Some pb -> Body.isStatic pb = false ->
              World.bodies w' = [pb] /\ World.staticBodies w' = [])
  /\ (forall pb, playerBody = Some pb -> Body.isStatic pb = true ->
                 World.bodies w' = [] /\ World.staticBodies w' = [pb])
  /\ (playerBody = None -> World.bodies w' = [] /\ World.staticBodies w' = [])
  /\ w' = World.set_staticBodies (World.set_bodies w (World.bodies w'))
                                 (World.staticBodies w')
  /\ World.planetBody w' = World.planetBody w
  /\ World.gravity w' = World.gravity w
  /\ World.accumulator w' = World.accumulator w
  /\ (forall x, In x (World.bodies w' ++ World.staticBodies w') ->
                playerBody = Some x)
  /\ (forall p pb t,
         World.planetBody w = Some p -> playerBody = Some pb ->
         Body.isStatic pb = false ->
         World.bodies (World.fixedUpdate t w')
         = [Planet.handlePlanetSurfaceInteraction p
              (Body.integrateForces
                 (Planet.applyGravitationalForce p
                    (Body.integrateVelocity (Planet.emergencyCorrection p pb) t))
                 t) t]
         /\ World.staticBodies (World.fixedUpdate t w') = []).
Proof.
  intros w'. subst w'.
  split; [intros pb -> Hs; simpl; rewrite Hs; auto |].
  split; [intros pb -> Hs; simpl; rewrite Hs; auto |].
  split; [intros ->; simpl; auto |].
  split; [destruct playerBody; reflexivity |].
  split; [destruct playerBody; reflexivity |].
  split; [destruct playerBody; reflexivity |].
  split; [destruct playerBody; reflexivity |].
  split.
  - intros x. destruct playerBody as [pb |]; simpl; [| tauto].
    destruct (Body.isStatic pb); simpl; intros [-> | []]; reflexivity.
  - intros p pb t Hp -> Hs.
    rewrite (fixedUpdate_single_planet t _ p pb);
      simpl; rewrite ?Hs; auto.
Qed.

Lemma clear_keeps_planet_field_witness :
  let planet := Planet.newPlanetBody noOptions in
  let pb := Body.newPhysicsBody (placedOptions (vec3 0 21 0) (vec3 0 0 0)) in
  let w := World.setPlanetBody
             (World.addBody (World.addBody (World.newPhysicsWorld (-10) 60)
                                           (Planet.body planet)) pb)
             planet in
  let w' := World.clear (Some pb) w in
  World.staticBodies w = [Planet.body planet]
  /\ World.bodies w' = [pb] /\ World.staticBodies w' = []
  /\ World.planetBody w' = Some planet.
Proof.
  intros planet pb w w'.
  destruct (clear_keeps_planet_field (Some pb) w) as (H & _ & _ & _ & Hp & _).
  split; [reflexivity |].
  destruct (H pb eq_refl eq_refl) as [Hb Hs].
  split; [exact Hb | split; [exact Hs |]].
  fold w' in Hp. rewrite Hp. reflexivity.
Defined.

(** ** Static bodies *)

Lemma resolveWithInfo_static (a s : Body.PhysicsBody) (i : CollisionInfo) :
  Body.invMass s = 0 -> snd (World.resolveWithInfo a s i) = s.
Proof.
  intros H. unfold World.resolveWithInfo. rewrite H, num_or_at_zero.
  rewrite (ltb_ge 0 0) by lra. split_ifs; reflexivity.
Qed.

Lemma resolveFallback_static (a s : Body.PhysicsBody) :
  Body.invMass s = 0 -> snd (World.resolveFallback a s) = s.
Proof.
  intros H. unfold World.resolveFallback. rewrite H.
  rewrite (ltb_ge 0 0) by lra. split_ifs; reflexivity.
Qed.

Lemma collidePair_static (a s : Body.PhysicsBody) :
  Body.invMass s = 0 -> snd (World.collidePair a s) = s.
Proof.
  intros H. unfold World.collidePair, World.resolveCollision.
  destruct (World.checkCollision a s); [| reflexivity].
  destruct (World.collisionInfoFor a s).
  - apply resolveWithInfo_static. assumption.
  - apply resolveFallback_static. assumption.
Qed.

Lemma collideWithStatics_static (ss : list Body.PhysicsBody) :
  Forall (fun s => Body.invMass s = 0) ss ->
  forall a, snd (World.collideWithStatics a ss) = ss.
Proof.
  induction 1 as [| s rest Hs Hrest IH]; intros a; simpl; [reflexivity |].
  pose proof (collidePair_static a s Hs) as Hp.
  destruct (Body.isPlanet s).
  - specialize (IH a). destruct (World.collideWithStatics a rest). simpl in *.
    congruence.
  - destruct (World.collidePair a s) as [a1 s1]. simpl in Hp. subst s1.
    specialize (IH a1). destruct (World.collideWithStatics a1 rest). simpl in *.
    congruence.
Qed.

Lemma detectFrom_static (count : nat) (ss : list Body.PhysicsBody) :
  Forall (fun s => Body.invMass s = 0) ss ->
  forall todo, snd (World.detectFrom count todo ss) = ss.
Proof.
  intros Hss. induction count as [| k IH]; intros todo; simpl.
  - destruct todo; reflexivity.
  - destruct todo as [| a later]; [reflexivity |].
    destruct (World.collideWithLater a later) as [a1 later1].
    pose proof (collideWithStatics_static ss Hss a1) as Hs.
    destruct (World.collideWithStatics a1 ss) as [a2 ss1]. simpl in Hs. subst ss1.
    specialize (IH later1). destruct (World.detectFrom k later1 ss). simpl in *.
    assumption.
Qed.

Lemma fixedUpdate_static (t : R) (w : World.PhysicsWorld) :
  Forall (fun s => Body.invMass s = 0) (World.staticBodies w) ->
  World.staticBodies (World.fixedUpdate t w) = World.staticBodies w.
Proof.
  intros Hss. rewrite fixedUpdate_phases.
  destruct (boundsPass_keepsMass
              (World.detectCollisions
                 (World.set_bodies w (map (perBodyPhases w t) (World.bodies w)))))
    as [_ ->].
  unfold World.detectCollisions. simpl.
  match goal with
  | |- context [World.detectFrom ?n ?l ?ss] =>
      pose proof (detectFrom_static n ss Hss l) as H;
      destruct (World.detectFrom n l ss)
  end.
  simpl in *. assumption.
Qed.

Lemma update_static (deltaTime : R) (w : World.PhysicsWorld) :
  Forall (fun s => Body.invMass s = 0) (World.staticBodies w) ->
  World.staticBodies (World.update deltaTime w) = World.staticBodies w.
Proof.
  apply (update_lift
           (fun w w' =>
              Forall (fun s => Body.invMass s = 0) (World.staticBodies w) ->
              World.staticBodies w' = World.staticBodies w)).
  - reflexivity.
  - intros a b c Hab Hbc Ha. specialize (Hab Ha). rewrite <- Hab.
    apply Hbc. rewrite Hab. assumption.
  - intros t w0. apply fixedUpdate_static.
  - reflexivity.
Qed.

Lemma updates_static (deltas : list R) :
  forall w,
    Forall (fun s => Body.invMass s = 0) (World.staticBodies w) ->
    World.staticBodies (fold_left (fun w d => World.update d w) deltas w)
    = World.staticBodies w.
Proof.
  induction deltas as [| d rest IH]; intros w H; simpl; [reflexivity |].
  rewrite IH; rewrite update_static; auto.
Qed.

Lemma static_operations_noop (b : Body.PhysicsBody) (p : Planet.PlanetBody)
      (t : R) (f : Vector3) :
  Body.isStatic b = true ->
  Body.integrateVelocity b t = b /\ Body.integrateForces b t = b
  /\ Body.applyForce b f = b /\ Body.applyImpulse b f = b
  /\ Planet.applyGravitationalForce p b = b.
Proof.
  intros H.
  unfold Body.integrateVelocity, Body.integrateForces, Body.applyImpulse,
    Planet.applyGravitationalForce, Body.applyForce.
  rewrite H. destruct (negb _); auto.
Qed.

(** C4: a body the constructor makes static has inverse mass 0 and is
    registered in the static list; velocity integration, force application
    and integration, impulses and radial gravity return a static body
    unchanged, a [StaticBody] is returned unchanged by the surface
    interaction, collision resolution leaves a body of inverse mass 0
    unchanged; and in a world whose static bodies have inverse mass 0, no
    sequence of [update] calls changes any static body, so their positions
    and velocities stay what they were. *)
Theorem static_bodies_never_move (w : World.PhysicsWorld) (deltas : list R) :
  Forall (fun s => Body.invMass s = 0) (World.staticBodies w) ->
  let w' := fold_left (fun w d => World.update d w) deltas w in
  World.staticBodies w' = World.staticBodies w
  /\ map Body.position (World.staticBodies w')
     = map Body.position (World.staticBodies w)
  /\ map Body.velocity (World.staticBodies w')
     = map Body.velocity (World.staticBodies w)
  /\ (forall o, Body.isStatic (Body.newPhysicsBody o) = true ->
                Body.invMass (Body.newPhysicsBody o) = 0
                /\ World.staticBodies (World.addBody w (Body.newPhysicsBody o))
                   = World.staticBodies w ++ [Body.newPhysicsBody o])
  /\ (forall o, Body.isStatic (Body.newStaticBody o) = true
                /\ Body.invMass (Body.newStaticBody o) = 0
                /\ forall p t, Planet.handlePlanetSurfaceInteraction
                                 p (Body.newStaticBody o) t
                               = Body.newStaticBody o)
  /\ (forall b p t f, Body.isStatic b = true ->
                      Body.integrateVelocity b t = b
                      /\ Body.integrateForces b t = b
                      /\ Body.applyForce b f = b
                      /\ Body.applyImpulse b f = b
                      /\ Planet.applyGravitationalForce p b = b)
  /\ (forall a s, Body.invMass s = 0 -> snd (World.resolveCollision a s) = s).
Proof.
  intros Hss w'. subst w'.
  rewrite (updates_static deltas w Hss).
  split; [reflexivity |]. split; [reflexivity |]. split; [reflexivity |].
  split.
  { intros o Ho. split; [apply newPhysicsBody_static_invMass; assumption |].
    unfold World.addBody. rewrite Ho. reflexivity. }
  split.
  { intros o. split; [reflexivity |]. split; [reflexivity |]. reflexivity. }
  split; [intros b p t f; apply static_operations_noop |].
  intros a s Hs. unfold World.resolveCollision.
  destruct (World.collisionInfoFor a s).
  - apply resolveWithInfo_static. assumption.
  - apply resolveFallback_static. assumption.
Qed.

Lemma static_bodies_never_move_witness :
  let w := World.addBody
             (World.addBody (World.newPhysicsWorld (-10) 60)
                            (Body.newBoxObstacle noOptions))
             (Body.newPhysicsBody (placedOptions (vec3 0 (3 / 2) 0) (vec3 0 (-1) 0))) in
  let w' := fold_left (fun w d => World.update d w) [1 / 60; 1 / 30] w in
  World.staticBodies w' = [Body.newBoxObstacle noOptions].
Proof.
  intros w w'.
  assert (H : Forall (fun s => Body.invMass s = 0) (World.staticBodies w)).
  { simpl. constructor; [reflexivity | constructor]. }
  destruct (static_bodies_never_move w [1 / 60; 1 / 30] H) as (Hs & _).
  exact Hs.
Defined.

(** ** Collider and body position *)

Lemma Forall_through {A : Type} (P Q : A -> Prop) (Rel : A -> A -> Prop)
      (l l' : list A) :
  (forall x y, P x -> Rel x y -> Q y) ->
  Forall P l -> Forall2 Rel l l' -> Forall Q l'.
Proof.
  intros H HP HR. induction HR; constructor; inversion HP; subst; eauto.
Qed.

Lemma perBodyPhases_synced (w : World.PhysicsWorld) (t : R) (b : Body.PhysicsBody) :
  Body.isStatic b = false ->
  Body.isStatic (perBodyPhases w t b) = false
  /\ colliderSynced (perBodyPhases w t b).
Proof.
  intros Hs. split.
  { destruct (perBodyPhases_preserved w t b) as (_ & H & _). congruence. }
  unfold perBodyPhases.
  destruct (World.planetBody w) as [p |].
  - destruct (emergencyCorrection_preserved p b) as (_ & He & _).
    assert (H2 : colliderSynced
                   (Body.integrateVelocity (Planet.emergencyCorrection p b) t))
      by (apply integrateVelocity_synced; congruence).
    eapply handlePlanetSurfaceInteraction_preserved.
    eapply gravityAndForces_preserved. exact H2.
  - eapply gravityAndForces_preserved.
    apply integrateVelocity_synced. assumption.
Qed.

(** Up to and including the collision pass, every non-static dynamic body
    has its collider at its position. *)
Lemma beforeBounds_synced (t : R) (w : World.PhysicsWorld) :
  Forall (fun b => Body.isStatic b = false) (World.bodies w) ->
  Forall (fun b => Body.isStatic b = false /\ colliderSynced b)
         (World.bodies
            (World.detectCollisions
               (World.set_bodies w (map (perBodyPhases w t) (World.bodies w))))).
Proof.
  intros Hdyn.
  destruct (detectCollisions_preserved
              (World.set_bodies w (map (perBodyPhases w t) (World.bodies w))))
    as [Hb _]. simpl in Hb.
  eapply (Forall_through
            (fun b => Body.isStatic b = false /\ colliderSynced b)); [| | exact Hb].
  - intros x y [Hx1 Hx2] Hpres. unfold preserved in Hpres.
    destruct Hpres as (_ & Hy & _ & _ & _ & Hsync). split; [congruence | auto].
  - apply Forall_forall. intros x Hin. apply in_map_iff in Hin.
    destruct Hin as (b & <- & Hin). apply perBodyPhases_synced.
    rewrite Forall_forall in Hdyn. auto.
Qed.

(** In the planet model, a sub-step ends with every dynamic body's collider
    at the body's position. *)
Lemma fixedUpdate_planet_synced (t : R) (w : World.PhysicsWorld)
      (p : Planet.PlanetBody) :
  World.planetBody w = Some p ->
  Forall (fun b => Body.isStatic b = false) (World.bodies w) ->
  Forall (fun b => Body.isStatic b = false /\ colliderSynced b)
         (World.bodies (World.fixedUpdate t w)).
Proof.
  intros Hp Hdyn. rewrite fixedUpdate_phases. unfold boundsPass.
  destruct (detectCollisions_fields
              (World.set_bodies w (map (perBodyPhases w t) (World.bodies w))))
    as (Hp' & _).
  simpl in Hp'. rewrite Hp', Hp. apply beforeBounds_synced. assumption.
Qed.

Lemma gravityAndForces_position (w : World.PhysicsWorld) (t : R)
      (b : Body.PhysicsBody) :
  Body.position (World.gravityAndForces w t b) = Body.position b
  /\ Body.collider (World.gravityAndForces w t b) = Body.collider b.
Proof.
  unfold World.gravityAndForces, Planet.applyGravitationalForce,
    Body.integrateForces, Body.applyForce.
  destruct (Body.usesGravity b); simpl;
    destruct (World.planetBody w); simpl;
    destruct (Body.isStatic b) eqn:E; simpl; rewrite ?E; simpl; auto.
Qed.

Lemma fixedUpdate_single_flat (t : R) (w : World.PhysicsWorld) (b : Body.PhysicsBody) :
  World.planetBody w = None ->
  World.bodies w = [b] -> World.staticBodies w = [] ->
  World.fixedUpdate t w
  = World.set_bodies w
      [World.checkWorldBounds w
         (World.gravityAndForces w t (Body.integrateVelocity b t))].
Proof.
  intros Hp Hb Hs. rewrite fixedUpdate_phases. rewrite Hb. simpl map.
  rewrite (detectCollisions_single _ (perBodyPhases w t b))
    by (simpl; rewrite ?Hs; auto).
  unfold boundsPass. simpl. rewrite Hp. unfold perBodyPhases. rewrite Hp.
  simpl. unfold World.checkWorldBounds. simpl. rewrite Hp. reflexivity.
Qed.

(** The flat-world clamp moves the body and leaves the collider where the
    velocity integration put it. *)
Lemma bounds_clamp_leaves_collider (t : R) (w : World.PhysicsWorld)
      (b : Body.PhysicsBody) (c : Collider) :
  World.planetBody w = None ->
  World.bodies w = [b] -> World.staticBodies w = [] ->
  Body.isStatic b = false -> Body.collider b = Some c ->
  0 <= World.groundThreshold w ->
  let y := vy (Body.position b) + vy (Body.velocity b) * t in
  y < 0 ->
  exists b',
    World.bodies (World.fixedUpdate t w) = [b']
    /\ vy (Body.position b') = 5 / 100
    /\ exists c', Body.collider b' = Some c'
                  /\ vy (ColliderM.position c') = y.
Proof.
  intros Hp Hb Hs Hst Hc Hg y Hy.
  rewrite (fixedUpdate_single_flat t w b Hp Hb Hs). simpl.
  eexists. split; [reflexivity |].
  destruct (gravityAndForces_position w t (Body.integrateVelocity b t))
    as [Epos Ecol].
  set (b3 := World.gravityAndForces w t (Body.integrateVelocity b t)) in *.
  assert (Epos2 : Body.position (Body.integrateVelocity b t)
                  = Three.add (Body.position b)
                              (Three.multiplyScalar (Body.velocity b) t)).
  { unfold Body.integrateVelocity. rewrite Hst. reflexivity. }
  assert (Ecol2 : Body.collider (Body.integrateVelocity b t)
                  = Some (ColliderM.updatePosition c
                            (Three.add (Body.position b)
                               (Three.multiplyScalar (Body.velocity b) t)))).
  { unfold Body.integrateVelocity. rewrite Hst. simpl. rewrite Hc. reflexivity. }
  assert (Ey : vy (Body.position b3) = y).
  { rewrite Epos, Epos2. reflexivity. }
  unfold World.checkWorldBounds. rewrite Hp, Ey.
  rewrite (ltb_lt y (World.groundThreshold w)) by lra.
  rewrite (ltb_lt y 0) by assumption.
  split.
  - destruct (leb _ (1 / 10)); simpl; [| reflexivity].
    destruct (ltb _ 0); reflexivity.
  - exists (ColliderM.updatePosition c
              (Three.add (Body.position b)
                         (Three.multiplyScalar (Body.velocity b) t))).
    split.
    + rewrite <- Ecol2, <- Ecol.
      destruct (leb _ (1 / 10)); simpl; [| reflexivity].
      destruct (ltb _ 0); reflexivity.
    + rewrite updatePosition_position. reflexivity.
Qed.

(** C8, at the failing input: a flat world holding one dynamic body at
    height -1, at rest.  After one sub-step the body sits at height 0.05
    and its collider at height -1. *)
Theorem collider_diverges_after_bounds_clamp :
  let b := Body.newPhysicsBody (placedOptions (vec3 0 (-1) 0) (vec3 0 0 0)) in
  let w := World.addBody (World.newPhysicsWorld (-10) 60) b in
  colliderSynced b
  /\ exists b' c',
      World.bodies (World.fixedUpdate (1 / 60) w) = [b']
      /\ Body.collider b' = Some c'
      /\ vy (Body.position b') = 5 / 100
      /\ vy (ColliderM.position c') = -1
      /\ ~ colliderSynced b'.
Proof.
  intros b w. split.
  { unfold colliderSynced. simpl. intros c H. injection H as <-. reflexivity. }
  destruct (bounds_clamp_leaves_collider (1 / 60) w b
              (ColliderM.newSphereCollider (vec3 0 (-1) 0) 1))
    as (b' & Hb' & Hy & c' & Hc' & Hcy); try reflexivity.
  - simpl. lra.
  - simpl. lra.
  - exists b', c'. simpl in Hcy.
    split; [exact Hb' |]. split; [exact Hc' |]. split; [exact Hy |].
    split; [lra |].
    intros Hsync. specialize (Hsync c' Hc'). rewrite Hsync in Hcy. lra.
Qed.

(** ** The planet's safety teleport *)

Lemma length_y (d : R) : 0 <= d -> Three.length (vec3 0 d 0) = d.
Proof.
  intros H. unfold Three.length, Three.lengthSq, Three.dot. simpl.
  replace (0 * 0 + d * d + 0 * 0) with (d * d) by ring.
  apply sqrt_square. assumption.
Qed.

Lemma normalize_y (d : R) : 0 < d -> Three.normalize (vec3 0 d 0) = vec3 0 1 0.
Proof.
  intros H. unfold Three.normalize. rewrite length_y by lra.
  rewrite num_or_nonzero by lra.
  apply vec3_eq; simpl; field; lra.
Qed.

Lemma subVectors_zero (v : Vector3) : Three.subVectors v Three.zero = v.
Proof. apply vec3_eq; simpl; lra. Qed.

Lemma newPhysicsBody_unitBody (p v : Vector3) :
  Body.newPhysicsBody (placedOptions p v)
  = unitBody p v Three.zero Three.zero false.
Proof.
  unfold Body.newPhysicsBody, unitBody. simpl. rewrite ltb_lt by lra.
  f_equal. lra.
Qed.

Ltac vec_solve := apply vec3_eq; simpl; first [lra | field; lra].

Ltac body_eq :=
  unfold Body.applyForce, unitBody, Body.syncCollider, Body.set_position,
    Body.set_collider, Body.set_velocity, Body.set_forces,
    Body.set_acceleration, Body.set_onGround;
  simpl;
  f_equal; first [reflexivity | lra | vec_solve | (do 2 f_equal; vec_solve)].

(** Phase 1 on a body on the planet's axis, inside the safe distance. *)
Lemma emergencyCorrection_on_axis (d : R) (v a f : Vector3) (g : bool) :
  0 < d < 18 ->
  Planet.emergencyCorrection planet20 (unitBody (vec3 0 d 0) v a f g)
  = unitBody (vec3 0 19 0) v a f g.
Proof.
  intros H. unfold Planet.emergencyCorrection.
  change (Body.position (unitBody (vec3 0 d 0) v a f g)) with (vec3 0 d 0).
  change (Planet.center planet20) with Three.zero.
  change (Planet.radius planet20) with 20.
  rewrite subVectors_zero, length_y by lra. rewrite ltb_lt by lra.
  rewrite normalize_y by lra.
  change (Body.radius (unitBody (vec3 0 d 0) v a f g)) with (Some 1).
  unfold opt_or. rewrite num_or_nonzero by lra.
  body_eq.
Qed.

(** Phase 2 on a body at rest off the ground. *)
Lemma integrateVelocity_at_rest (p a f : Vector3) (t : R) :
  Body.integrateVelocity (unitBody p Three.zero a f false) t
  = unitBody p Three.zero a f false.
Proof.
  unfold Body.integrateVelocity, Body.stabilize. simpl.
  rewrite Rabs_R0. rewrite ltb_lt by lra.
  body_eq.
Qed.

(** Phase 3 on a body at rest on the planet's axis: radial gravity gives it
    the velocity [-25 t] along the axis. *)
Lemma gravityAndForces_on_axis (w : World.PhysicsWorld) (d : R) (a : Vector3)
      (g : bool) (t : R) :
  World.planetBody w = Some planet20 -> 1 <= d -> 0 <= t <= 1 ->
  World.gravityAndForces w t (unitBody (vec3 0 d 0) Three.zero a Three.zero g)
  = unitBody (vec3 0 d 0) (vec3 0 (- (25 * t)) 0) (vec3 0 (-25) 0) Three.zero g.
Proof.
  intros Hp Hd Ht. rewrite (gravityAndForces_radial w planet20) by assumption.
  unfold Planet.applyGravitationalForce.
  change (Body.usesGravity (unitBody (vec3 0 d 0) Three.zero a Three.zero g))
    with true.
  change (Body.position (unitBody (vec3 0 d 0) Three.zero a Three.zero g))
    with (vec3 0 d 0).
  change (Planet.center planet20) with Three.zero.
  change (Planet.epsilon planet20) with (1 / 1000000).
  cbv iota beta delta [negb].
  replace (Three.lengthSq (Three.subVectors Three.zero (vec3 0 d 0)))
    with (d * d) by (unfold Three.lengthSq, Three.dot; simpl; ring).
  rewrite Rmax_left by nra. rewrite sqrt_square by lra.
  unfold Body.applyForce, Body.integrateForces. simpl.
  replace (0 + (0 + (0 - d) * (1 / d) * (1 * 25)) * 1 * t) with (- (25 * t))
    by (field; lra).
  rewrite ltb_ge by lra.
  body_eq.
Qed.

(** Phase 4 on a body at distance 19: outside the safe distance, off the
    ground; only the push force is recorded. *)
Lemma surfaceInteraction_at_19 (v a : Vector3) (g : bool) (t : R) :
  Planet.handlePlanetSurfaceInteraction planet20
    (unitBody (vec3 0 19 0) v a Three.zero g) t
  = unitBody (vec3 0 19 0) v a (vec3 0 (11 / 10) 0) false.
Proof.
  unfold Planet.handlePlanetSurfaceInteraction.
  change (Body.usesGravity (unitBody (vec3 0 19 0) v a Three.zero g)) with true.
  change (Body.position (unitBody (vec3 0 19 0) v a Three.zero g))
    with (vec3 0 19 0).
  change (Planet.center planet20) with Three.zero.
  change (Planet.epsilon planet20) with (1 / 1000000).
  change (Planet.minSafeDistance planet20) with (20 * (9 / 10)).
  cbv iota beta delta [negb].
  rewrite subVectors_zero, length_y by lra.
  rewrite Rmax_left by lra. rewrite ltb_ge by lra.
  unfold Planet.surfaceResponse, Planet.writeSurfaceNormal,
    Planet.entityIsJumping.
  simpl. rewrite num_or_nonzero by lra.
  replace (20 + 2 / 10 + 1 - 19) with (22 / 10) by lra.
  rewrite Rabs_right by lra. rewrite (ltb_ge (22 / 10)) by lra.
  rewrite ltb_lt by lra. simpl.
  body_eq.
Qed.

Lemma timeSteps_one_frame (w : World.PhysicsWorld) :
  World.accumulator w = 0 -> World.fixedTimeStep w = 1 / 60 ->
  World.maxSubSteps w = 3%nat ->
  World.timeSteps (1 / 60) w = [1 / 60].
Proof.
  intros Ha Hf Hn. unfold World.timeSteps. rewrite Ha, Hf, Hn.
  rewrite Rmin_left by lra. simpl.
  rewrite (leb_le (1 / 60)) by lra.
  rewrite (leb_gt (1 / 60)) by lra. reflexivity.
Qed.

(** C1, counterexample: a planet of radius 20 (safe distance 18) and a body
    at rest at distance 17 from its centre.  One [update] of 1/60 s runs one
    sub-step; the body ends at distance 19, but radial gravity, integrated
    after the correction, has given it the velocity 5/12 toward the centre,
    and the surface pass, finding it outside the safe distance and off the
    ground, leaves that velocity. *)
Lemma teleported_body_falls_inward :
  let b := Body.newPhysicsBody (placedOptions (vec3 0 17 0) (vec3 0 0 0)) in
  let w := planetWorld b in
  Three.distanceTo (Body.position b) (Planet.center planet20)
  = Planet.minSafeDistance planet20 - 1
  /\ exists b',
      World.bodies (World.update (1 / 60) w) = [b']
      /\ Body.position b' = vec3 0 19 0
      /\ Body.velocity b' = vec3 0 (- (5 / 12)) 0
      /\ Three.dot (Body.velocity b')
                   (Three.normalize
                      (Three.sub (Body.position b') (Planet.center planet20)))
         < 0.
Proof.
  intros b w. split.
  { change (Body.position b) with (vec3 0 17 0).
    change (Planet.center planet20) with Three.zero.
    rewrite distanceTo_length.
    change (Three.sub ?x Three.zero) with (Three.subVectors x Three.zero).
    rewrite subVectors_zero, length_y by lra.
    change (Planet.minSafeDistance planet20) with (20 * (9 / 10)). lra. }
  rewrite update_runs_timeSteps.
  rewrite timeSteps_one_frame by reflexivity.
  unfold runSteps. simpl fold_left.
  rewrite (fixedUpdate_single_planet (1 / 60) w planet20 b)
    by (try reflexivity; repeat constructor).
  unfold b at 1. rewrite newPhysicsBody_unitBody.
  rewrite emergencyCorrection_on_axis by lra.
  rewrite integrateVelocity_at_rest.
  rewrite <- (gravityAndForces_radial w planet20) by reflexivity.
  rewrite gravityAndForces_on_axis by (try reflexivity; lra).
  rewrite surfaceInteraction_at_19.
  eexists. split; [reflexivity |].
  split; [reflexivity |].
  split; [apply vec3_eq; simpl; lra |].
  change (Body.position _) with (vec3 0 19 0).
  change (Planet.center planet20) with Three.zero.
  change (Three.sub ?x Three.zero) with (Three.subVectors x Three.zero).
  rewrite subVectors_zero, normalize_y by lra.
  unfold Three.dot. simpl. lra.
Qed.

Lemma sub_nonzero (a b : Vector3) : a <> b -> Three.sub a b <> Three.zero.
Proof.
  intros Hne Hz. apply Hne. unfold Three.sub, Three.zero in Hz.
  injection Hz as Hx Hy Hz. apply vec3_eq; lra.
Qed.

(** The direction from [c] to [c + u * k], for a unit [u] and [0 < k]. *)
Lemma normalize_offset_unit (c u : Vector3) (k : R) :
  Three.lengthSq u = 1 -> 0 < k ->
  Three.normalize (Three.sub (Three.add c (Three.multiplyScalar u k)) c) = u.
Proof.
  intros Hu Hk. unfold Three.normalize.
  rewrite length_offset_unit by (assumption || lra).
  rewrite num_or_nonzero by lra.
  apply vec3_eq; simpl; field; lra.
Qed.

Lemma emergencyCorrection_teleports (p : Planet.PlanetBody) (b : Body.PhysicsBody) :
  Body.position b <> Planet.center p ->
  Three.distanceTo (Body.position b) (Planet.center p) < Planet.radius p * (9 / 10) ->
  0 <= opt_or (Body.radius b) (5 / 10) ->
  let b1 := Planet.emergencyCorrection p b in
  Three.distanceTo (Body.position b1) (Planet.center p)
  = Planet.radius p * (9 / 10) + opt_or (Body.radius b) (5 / 10)
  /\ Body.velocity b1 = Body.velocity b
  /\ colliderSynced b1.
Proof.
  intros Hne Hd Hr b1. unfold b1, Planet.emergencyCorrection.
  rewrite distanceTo_length in Hd. unfold Three.subVectors.
  rewrite ltb_lt by assumption.
  split; [| split; [reflexivity | apply syncCollider_synced]].
  rewrite distanceTo_length. simpl Body.position.
  apply length_offset_unit.
  - apply lengthSq_normalize, sub_nonzero. assumption.
  - pose proof (length_nonneg (Three.sub (Body.position b) (Planet.center p))).
    lra.
Qed.

Lemma surfaceResponse_position (p : Planet.PlanetBody) (b : Body.PhysicsBody)
      (fc : Vector3) (d : R) :
  Body.position (Planet.surfaceResponse p b fc d) = Body.position b.
Proof.
  unfold Planet.surfaceResponse, Planet.groundState, Planet.writeSurfaceNormal,
    Body.applyForce.
  destruct (Body.entity b) as [e |]; [destruct (surfaceNormal e) |];
    simpl; split_ifs; reflexivity.
Qed.

Lemma dot_multiplyScalar_l (v u : Vector3) (k : R) :
  Three.dot (Three.multiplyScalar v k) u = k * Three.dot v u.
Proof. unfold Three.dot, Three.multiplyScalar. simpl. ring. Qed.

Lemma dot_multiplyScalar_r (v u : Vector3) (k : R) :
  Three.dot v (Three.multiplyScalar u k) = k * Three.dot v u.
Proof. unfold Three.dot, Three.multiplyScalar. simpl. ring. Qed.

Lemma dot_sub_l (v w u : Vector3) :
  Three.dot (Three.sub v w) u = Three.dot v u - Three.dot w u.
Proof. unfold Three.dot, Three.sub. simpl. ring. Qed.

(** The ground-state branch scales a velocity that is not inward. *)
Lemma groundState_outward (b : Body.PhysicsBody) (rd : Vector3) :
  0 <= Three.dot (Body.velocity b) rd ->
  exists k, 0 < k
            /\ Body.velocity (Planet.groundState b rd)
               = Three.multiplyScalar (Body.velocity b) k.
Proof.
  intros H. unfold Planet.groundState.
  rewrite (ltb_ge (Three.dot (Body.velocity b) rd) 0) by assumption.
  destruct (ltb (95 / 100) _); simpl.
  - exists (98 / 100 * (95 / 100)). split; [lra |]. vec_solve.
  - exists (98 / 100). split; [lra |]. reflexivity.
Qed.

Lemma surfaceResponse_outward (p : Planet.PlanetBody) (b : Body.PhysicsBody)
      (fc : Vector3) (d : R) :
  0 < d -> 0 <= Three.dot (Body.velocity b) fc ->
  exists k, 0 < k
            /\ Body.velocity (Planet.surfaceResponse p b fc d)
               = Three.multiplyScalar (Body.velocity b) k.
Proof.
  intros Hd Hv. unfold Planet.surfaceResponse.
  set (rd := Three.divideScalar fc d).
  set (b2 := Planet.writeSurfaceNormal b rd).
  set (b3 := Body.set_onGround b2 _).
  set (b4 := if ltb (1 / 100) _ then _ else b3).
  assert (E2 : Body.velocity b2 = Body.velocity b).
  { unfold b2, Planet.writeSurfaceNormal.
    destruct (Body.entity b) as [e |]; [destruct (surfaceNormal e) |];
      reflexivity. }
  assert (E4 : Body.velocity b4 = Body.velocity b).
  { unfold b4, Body.applyForce. rewrite <- E2.
    destruct (ltb (1 / 100) _); [destruct (Body.isStatic b3) |]; reflexivity. }
  destruct (Body.onGround b4).
  - rewrite <- E4. apply groundState_outward. rewrite E4.
    unfold rd, Three.divideScalar. rewrite dot_multiplyScalar_r.
    apply Rmult_le_pos; [| assumption].
    unfold Rdiv. rewrite Rmult_1_l. left. apply Rinv_0_lt_compat. assumption.
  - exists 1. split; [lra |]. rewrite E4. vec_solve.
Qed.

Lemma lengthSq_multiplyScalar (v : Vector3) (k : R) :
  Three.lengthSq (Three.multiplyScalar v k) = k * k * Three.lengthSq v.
Proof. unfold Three.lengthSq, Three.dot, Three.multiplyScalar. simpl. ring. Qed.

Lemma signOf_square (k : R) : signOf k * signOf k = 1 \/ signOf k = 0.
Proof.
  unfold signOf. destruct (ltb 0 k); [left; ring |].
  destruct (ltb k 0); [left; ring | right; reflexivity].
Qed.

Lemma signOf_pos (k : R) : 0 < k -> signOf k = 1.
Proof. intros H. unfold signOf. rewrite ltb_lt by assumption. reflexivity. Qed.

(** Normalizing a scaled unit vector gives the unit vector back with the
    sign of the scale: itself, its opposite, or the zero vector. *)
Lemma normalize_scaled_unit (u : Vector3) (k : R) :
  Three.lengthSq u = 1 ->
  Three.normalize (Three.multiplyScalar u k) = Three.multiplyScalar u (signOf k).
Proof.
  intros Hu. unfold Three.normalize, Three.length.
  rewrite lengthSq_multiplyScalar, Hu, Rmult_1_r.
  unfold signOf.
  destruct (Rlt_dec 0 k) as [Hp | Hp].
  - rewrite (ltb_lt 0 k) by assumption.
    rewrite sqrt_square by lra. rewrite num_or_nonzero by lra.
    apply vec3_eq; simpl; field; lra.
  - rewrite (ltb_ge 0 k) by lra.
    destruct (Rlt_dec k 0) as [Hn | Hn].
    + rewrite (ltb_lt k 0) by assumption.
      replace (k * k) with ((- k) * (- k)) by ring.
      rewrite sqrt_square by lra. rewrite num_or_nonzero by lra.
      apply vec3_eq; simpl; field; lra.
    + rewrite (ltb_ge k 0) by lra.
      assert (Hk : k = 0) by lra. subst k.
      apply vec3_eq; simpl; ring.
Qed.

(** The safety teleport of the surface pass, whatever the sign of the safe
    offset: where it puts the body, the direction it leaves in
    [fromCenter] (the unit direction with the sign of the offset), and the
    velocity not against that direction. *)
Lemma safetyTeleport_direction (p : Planet.PlanetBody) (b : Body.PhysicsBody)
      (fc : Vector3) :
  fc <> Three.zero ->
  let u := Three.normalize fc in
  let k := Planet.minSafeDistance p + opt_or (Body.radius b) (5 / 10) in
  let r := Planet.safetyTeleport p b fc in
  snd r = Three.multiplyScalar u (signOf k)
  /\ Body.position (fst r)
     = Three.add (Planet.center p) (Three.multiplyScalar u k)
  /\ 0 <= Three.dot (Body.velocity (fst r)) (snd r).
Proof.
  intros Hfc u k r. subst r. unfold Planet.safetyTeleport. cbv zeta.
  fold u k.
  assert (Hu : Three.lengthSq u = 1) by (apply lengthSq_normalize; assumption).
  rewrite (normalize_scaled_unit u k Hu). simpl snd. simpl fst.
  set (rd := Three.multiplyScalar u (signOf k)).
  assert (Hrd : Three.dot rd rd = 1 \/ rd = Three.zero).
  { unfold rd. destruct (signOf_square k) as [H | H].
    - left. rewrite dot_multiplyScalar_l, dot_multiplyScalar_r.
      change (Three.dot u u) with (Three.lengthSq u). rewrite Hu.
      rewrite Rmult_1_r. exact H.
    - right. rewrite H. apply vec3_eq; simpl; ring. }
  split; [reflexivity |].
  destruct (ltb (Three.dot (Body.velocity b) rd) 0) eqn:E.
  - split; [reflexivity |]. simpl Body.velocity.
    rewrite dot_sub_l, dot_multiplyScalar_l.
    destruct Hrd as [H | H].
    + rewrite H. lra.
    + rewrite H. unfold Three.dot. simpl. lra.
  - split; [reflexivity |]. apply ltb_false_iff in E. exact E.
Qed.

(** With a positive safe offset the direction left is the unit direction
    itself. *)
Lemma safetyTeleport_spec (p : Planet.PlanetBody) (b : Body.PhysicsBody)
      (fc : Vector3) :
  fc <> Three.zero ->
  0 < Planet.minSafeDistance p + opt_or (Body.radius b) (5 / 10) ->
  let u := Three.normalize fc in
  let r := Planet.safetyTeleport p b fc in
  snd r = u
  /\ Body.position (fst r)
     = Three.add (Planet.center p)
         (Three.multiplyScalar u
            (Planet.minSafeDistance p + opt_or (Body.radius b) (5 / 10)))
  /\ 0 <= Three.dot (Body.velocity (fst r)) u.
Proof.
  intros Hfc Hk u r.
  destruct (safetyTeleport_direction p b fc Hfc) as (H1 & H2 & H3).
  cbv zeta in H1, H2, H3. fold u r in H1, H2, H3.
  assert (E : snd r = u).
  { rewrite H1, signOf_pos by assumption. apply vec3_eq; simpl; ring. }
  split; [exact E |]. split; [exact H2 |]. rewrite <- E. exact H3.
Qed.

Lemma safetyTeleport_synced (p : Planet.PlanetBody) (b : Body.PhysicsBody)
      (fc : Vector3) :
  colliderSynced (fst (Planet.safetyTeleport p b fc)).
Proof.
  unfold Planet.safetyTeleport. cbv zeta. simpl fst.
  destruct (ltb _ 0).
  - pose proof (syncCollider_synced
                  (Body.set_position b
                     (Three.add (Planet.center p)
                        (Three.multiplyScalar (Three.normalize fc)
                           (Planet.minSafeDistance p
                            + opt_or (Body.radius b) (5 / 10)))))) as H.
    unfold colliderSynced in *. simpl in *. exact H.
  - apply syncCollider_synced.
Qed.

Lemma surfaceInteraction_teleports (p : Planet.PlanetBody) (b : Body.PhysicsBody)
      (t : R) :
  0 < Planet.epsilon p < Planet.minSafeDistance p ->
  Body.position b <> Planet.center p ->
  Three.distanceTo (Body.position b) (Planet.center p) < Planet.minSafeDistance p ->
  0 <= opt_or (Body.radius b) (5 / 10) ->
  Body.usesGravity b = true ->
  let b2 := Planet.handlePlanetSurfaceInteraction p b t in
  Three.distanceTo (Body.position b2) (Planet.center p)
  = Planet.minSafeDistance p + opt_or (Body.radius b) (5 / 10)
  /\ 0 <= Three.dot (Body.velocity b2)
                    (Three.normalize
                       (Three.sub (Body.position b2) (Planet.center p)))
  /\ colliderSynced b2.
Proof.
  intros He Hne Hd Hr Hg b2. unfold b2, Planet.handlePlanetSurfaceInteraction.
  rewrite Hg. cbv iota beta delta [negb].
  rewrite distanceTo_length in Hd. unfold Three.subVectors.
  set (fc0 := Three.sub (Body.position b) (Planet.center p)) in *.
  set (d := Rmax (Three.length fc0) (Planet.epsilon p)).
  assert (Hdlt : d < Planet.minSafeDistance p) by (unfold d; minmax).
  assert (Hdpos : 0 < d) by (unfold d; minmax).
  rewrite (ltb_lt d _) by assumption.
  assert (Hfc0 : fc0 <> Three.zero) by (apply sub_nonzero; assumption).
  destruct (safetyTeleport_spec p b fc0 Hfc0) as (Hu & Hpos & Hvel); [lra |].
  pose proof (safetyTeleport_synced p b fc0) as Hsync.
  destruct (Planet.safetyTeleport p b fc0) as [b1 fc]. simpl in Hu, Hpos, Hvel, Hsync.
  set (u := Three.normalize fc0) in *.
  assert (Hunit : Three.lengthSq u = 1) by (apply lengthSq_normalize; assumption).
  rewrite surfaceResponse_position, Hpos.
  split; [| split].
  - rewrite distanceTo_length. apply length_offset_unit; [assumption | lra].
  - rewrite normalize_offset_unit by (assumption || lra).
    destruct (surfaceResponse_outward p b1 fc d Hdpos) as (k & Hk & Hv).
    { rewrite Hu. assumption. }
    rewrite Hv, dot_multiplyScalar_l. apply Rmult_le_pos; [lra | assumption].
  - eapply surfaceResponse_preserved. assumption.
Qed.

(** A sub-step in a world whose only body, the planet apart, is a
    gravity-using dynamic body:
    whatever velocity integration did, the surface pass leaves the body at
    least the safe distance from the centre (unless integration put it
    exactly at the centre, where the teleport has no direction to use). *)
Lemma fixedUpdate_single_outside (t : R) (w : World.PhysicsWorld)
      (p : Planet.PlanetBody) (b : Body.PhysicsBody) :
  World.planetBody w = Some p ->
  World.bodies w = [b] ->
  Forall (fun s => Body.isPlanet s = true) (World.staticBodies w) ->
  0 < Planet.epsilon p < Planet.minSafeDistance p ->
  0 <= opt_or (Body.radius b) (5 / 10) ->
  Body.usesGravity b = true ->
  Body.position (Body.integrateVelocity (Planet.emergencyCorrection p b) t)
  <> Planet.center p ->
  exists b',
    World.bodies (World.fixedUpdate t w) = [b']
    /\ Planet.minSafeDistance p
       <= Three.distanceTo (Body.position b') (Planet.center p).
Proof.
  intros Hp Hb Hs He Hr Hg Hne.
  rewrite (fixedUpdate_single_planet t w p b Hp Hb Hs). simpl.
  eexists. split; [reflexivity |].
  set (b2 := Body.integrateVelocity (Planet.emergencyCorrection p b) t) in *.
  assert (P2 : preserved b b2).
  { eapply preserved_trans; [apply emergencyCorrection_preserved |].
    apply integrateVelocity_preserved. }
  set (b3 := Body.integrateForces (Planet.applyGravitationalForce p b2) t).
  assert (E3 : b3 = World.gravityAndForces w t b2)
    by (symmetry; apply gravityAndForces_radial; assumption).
  assert (P3 : preserved b b3).
  { eapply preserved_trans; [exact P2 |]. rewrite E3.
    apply gravityAndForces_preserved. }
  assert (Epos : Body.position b3 = Body.position b2).
  { rewrite E3. apply gravityAndForces_position. }
  destruct P3 as (_ & _ & _ & Hg3 & Hr3 & _).
  rewrite Hg in Hg3. 
  destruct (Rlt_dec (Three.distanceTo (Body.position b3) (Planet.center p))
                    (Planet.minSafeDistance p)) as [Hin | Hout].
  - destruct (surfaceInteraction_teleports p b3 t He) as (H1 & _);
      try assumption.
    + rewrite Epos. assumption.
    + rewrite Hr3. assumption.
    + rewrite H1, Hr3. lra.
  - unfold Planet.handlePlanetSurfaceInteraction. rewrite Hg3.
    cbv iota beta delta [negb].
    rewrite distanceTo_length in Hout. unfold Three.subVectors.
    rewrite ltb_ge by minmax.
    rewrite surfaceResponse_position, distanceTo_length. lra.
Qed.

(** C1 (amended): with a planet field installed, a dynamic body that lies
    inside the safe distance (and not exactly at the planet's centre, with a
    non-negative body radius) is put by the emergency correction that opens
    every sub-step at distance minSafeDistance + bodyRadius from the centre,
    its collider along with it and its velocity untouched; the surface pass
    of the sub-step does the same to a gravity-using body it finds inside
    the safe distance and leaves it with no inward radial velocity; and in a
    world whose only body, the planet apart, is that gravity-using body, the
    sub-step ends with the body at least minSafeDistance from the centre,
    unless velocity integration has put it exactly at the centre. *)
Theorem safety_teleport_outward (p : Planet.PlanetBody) (b : Body.PhysicsBody)
        (t : R) :
  Planet.minSafeDistance p = Planet.radius p * (9 / 10) ->
  0 < Planet.epsilon p < Planet.minSafeDistance p ->
  Body.position b <> Planet.center p ->
  Three.distanceTo (Body.position b) (Planet.center p) < Planet.minSafeDistance p ->
  0 <= opt_or (Body.radius b) (5 / 10) ->
  let safe := Planet.minSafeDistance p + opt_or (Body.radius b) (5 / 10) in
  let b1 := Planet.emergencyCorrection p b in
  let b2 := Planet.handlePlanetSurfaceInteraction p b t in
  (Three.distanceTo (Body.position b1) (Planet.center p) = safe
   /\ Planet.minSafeDistance p <= Three.distanceTo (Body.position b1) (Planet.center p)
   /\ Body.velocity b1 = Body.velocity b
   /\ colliderSynced b1)
  /\ (Body.usesGravity b = true ->
      Three.distanceTo (Body.position b2) (Planet.center p) = safe
      /\ Planet.minSafeDistance p <= Three.distanceTo (Body.position b2) (Planet.center p)
      /\ 0 <= Three.dot (Body.velocity b2)
                        (Three.normalize
                           (Three.sub (Body.position b2) (Planet.center p)))
      /\ colliderSynced b2)
  /\ (forall w,
         World.planetBody w = Some p ->
         World.bodies w = [b] ->
         Forall (fun s => Body.isPlanet s = true) (World.staticBodies w) ->
         Body.usesGravity b = true ->
         Body.position (Body.integrateVelocity b1 t) <> Planet.center p ->
         exists b',
           World.bodies (World.fixedUpdate t w) = [b']
           /\ Planet.minSafeDistance p
              <= Three.distanceTo (Body.position b') (Planet.center p)).
Proof.
  intros Hms He Hne Hd Hr safe b1 b2. split; [| split].
  - rewrite Hms in Hd.
    destruct (emergencyCorrection_teleports p b Hne Hd Hr) as (H1 & H2 & H3).
    fold b1 in H1, H2, H3. rewrite <- Hms in H1.
    split; [exact H1 |]. split; [rewrite H1; lra |]. auto.
  - intros Hg.
    destruct (surfaceInteraction_teleports p b t He Hne Hd Hr Hg) as (H1 & H2 & H3).
    fold b2 in H1, H2, H3.
    split; [exact H1 |]. split; [rewrite H1; lra |]. auto.
  - intros w Hp Hb Hs Hg Hc.
    apply (fixedUpdate_single_outside t w p b); assumption.
Qed.

Lemma safety_teleport_outward_witness :
  let b := unitBody (vec3 0 17 0) (vec3 0 (-3) 0) Three.zero Three.zero false in
  let b1 := Planet.emergencyCorrection planet20 b in
  let b2 := Planet.handlePlanetSurfaceInteraction planet20 b (1 / 60) in
  Three.distanceTo (Body.position b1) (Planet.center planet20) = 20 * (9 / 10) + 1
  /\ Three.distanceTo (Body.position b2) (Planet.center planet20) = 20 * (9 / 10) + 1
  /\ 0 <= Three.dot (Body.velocity b2)
                    (Three.normalize
                       (Three.sub (Body.position b2) (Planet.center planet20))).
Proof.
  intros b b1 b2.
  assert (Hd : Three.distanceTo (Body.position b) (Planet.center planet20) = 17).
  { change (Body.position b) with (vec3 0 17 0).
    change (Planet.center planet20) with Three.zero.
    rewrite distanceTo_length.
    change (Three.sub ?x Three.zero) with (Three.subVectors x Three.zero).
    rewrite subVectors_zero. apply length_y. lra. }
  assert (Hr : opt_or (Body.radius b) (5 / 10) = 1).
  { simpl. apply num_or_nonzero. lra. }
  destruct (safety_teleport_outward planet20 b (1 / 60)) as (H1 & H2 & _).
  - reflexivity.
  - simpl. lra.
  - simpl. unfold Three.zero. intros H. injection H as H. lra.
  - rewrite Hd. simpl. lra.
  - rewrite Hr. lra.
  - destruct H1 as (H1 & _). destruct (H2 eq_refl) as (H3 & _ & H4 & _).
    fold b1 in H1. fold b2 in H3, H4. rewrite Hr in H1, H3.
    split; [exact H1 | split; [exact H3 | exact H4]].
Defined.

(** * Further properties of the physics core *)

(** ** Colliders: the broad test and the contact agree *)

Lemma boxIntersectsBox_sym (b o : Three.Box3) :
  Three.boxIntersectsBox b o = Three.boxIntersectsBox o b.
Proof.
  unfold Three.boxIntersectsBox.
  destruct (ltb (vx (Three.bmax o)) (vx (Three.bmin b)));
    destruct (ltb (vx (Three.bmax b)) (vx (Three.bmin o)));
    destruct (ltb (vy (Three.bmax o)) (vy (Three.bmin b)));
    destruct (ltb (vy (Three.bmax b)) (vy (Three.bmin o)));
    destruct (ltb (vz (Three.bmax o)) (vz (Three.bmin b)));
    destruct (ltb (vz (Three.bmax b)) (vz (Three.bmin o)));
    reflexivity.
Qed.

Lemma sphereIntersectsSphere_sym (s o : Three.Sphere) :
  Three.sphereIntersectsSphere s o = Three.sphereIntersectsSphere o s.
Proof.
  unfold Three.sphereIntersectsSphere.
  rewrite (distanceToSquared_sym (Three.center o) (Three.center s)).
  replace ((Three.sradius s + Three.sradius o) * (Three.sradius s + Three.sradius o))
    with ((Three.sradius o + Three.sradius s) * (Three.sradius o + Three.sradius s))
    by ring.
  reflexivity.
Qed.

(** X1: [intersects] does not depend on which collider is the receiver, for
    every pair of shapes. *)
Theorem intersects_symmetric (a b : Collider) :
  ColliderM.intersects a b = ColliderM.intersects b a.
Proof.
  destruct a as [p r | p h bx], b as [p' r' | p' h' bx']; simpl.
  - apply sphereIntersectsSphere_sym.
  - reflexivity.
  - reflexivity.
  - apply boxIntersectsBox_sym.
Qed.

(** Whatever the loop starts from, a finite [minDepth] it returns is one of
    the positive overlaps or the positive value it started with. *)
Lemma satLoop_positive (p h p' h' : Vector3) (todo : list Vector3) :
  forall (m : option R) (ax : Vector3) (d : R) (ax' : Vector3),
    (forall v, m = Some v -> 0 < v) ->
    ColliderM.satLoop p h p' h' todo m ax = Some (Some d, ax') ->
    0 < d.
Proof.
  induction todo as [| axis rest IH]; intros m ax d ax' Hm H; simpl in H.
  - injection H as Hd _. apply Hm. assumption.
  - destruct (leb (ColliderM.overlapOn p h p' h' axis) 0) eqn:E; [discriminate |].
    apply leb_false_iff in E.
    destruct (match m with Some d0 => ltb _ d0 | None => true end).
    + eapply IH; [| exact H]. intros v Hv. injection Hv as <-. assumption.
    + eapply IH; [| exact H]. assumption.
Qed.

(** X2: a contact is only ever reported for colliders that [intersects] accepts,
    and its depth is never negative (it is positive between two spheres and
    between two boxes). *)
Theorem contact_implies_intersects (a b : Collider) (i : CollisionInfo) :
  ColliderM.getCollisionInfo a b = Some i ->
  ColliderM.intersects a b = true
  /\ 0 <= depth i
  /\ (match a, b with
      | SphereCollider _ _, SphereCollider _ _ => 0 < depth i
      | BoxCollider _ _ _, BoxCollider _ _ _ => 0 < depth i
      | _, _ => True
      end).
Proof.
  destruct a as [p r | p h bx], b as [p' r' | p' h' bx']; simpl.
  - destruct (ltb (Three.distanceTo p p') (r + r')) eqn:E; [| discriminate].
    apply ltb_true_iff in E. intros H. injection H as <-. simpl.
    pose proof (distanceTo_nonneg p p') as Hd.
    split; [| split; lra].
    change (ColliderM.intersects (ColliderM.newSphereCollider p r)
              (ColliderM.newSphereCollider p' r') = true).
    rewrite sphere_intersects_iff, distanceToSquared_sym.
    apply distSq_le_iff; lra.
  - unfold ColliderM.boxSphereInfo.
    destruct (Three.boxIntersectsSphere bx' (ColliderM.sphereOf p r)) eqn:E;
      simpl; [| discriminate].
    destruct (ltb r _) eqn:E2; [discriminate |].
    apply ltb_false_iff in E2. intros H. injection H as <-. simpl.
    split; [reflexivity | split; [lra | exact I]].
  - unfold ColliderM.boxSphereInfo.
    destruct (Three.boxIntersectsSphere bx (ColliderM.sphereOf p' r')) eqn:E;
      simpl; [| discriminate].
    destruct (ltb r' _) eqn:E2; [discriminate |].
    apply ltb_false_iff in E2. intros H. injection H as <-. simpl.
    split; [reflexivity | split; [lra | exact I]].
  - unfold ColliderM.boxBoxInfo.
    destruct (Three.boxIntersectsBox bx bx') eqn:E; cbv beta iota delta [negb];
      [| discriminate].
    destruct (ColliderM.satLoop p h p' h' ColliderM.axes None (vec3 1 0 0))
      as [[m ax] |] eqn:Es; [| intros H; discriminate H].
    destruct (satLoop_axes_finite p h p' h' _ m ax Es) as [v ->].
    intros H. injection H as <-. simpl.
    assert (Hv : 0 < v).
    { eapply satLoop_positive; [| exact Es]. intros ? ?. discriminate. }
    split; [reflexivity | split; lra].
Qed.

Lemma contact_implies_intersects_witness :
  let a := ColliderM.newSphereCollider (vec3 0 0 0) 1 in
  let b := ColliderM.newSphereCollider (vec3 (0 + 3 / 2) 0 0) 1 in
  ColliderM.intersects a b = true.
Proof.
  intros a b.
  assert (Hd : Three.distanceTo (vec3 0 0 0) (vec3 (0 + 3 / 2) 0 0) = 3 / 2)
    by (apply distanceTo_along_x; lra).
  refine (proj1 (contact_implies_intersects a b _ _)).
  apply sphere_info_hit. rewrite Hd. lra.
Defined.

(** ** Box against sphere *)

Lemma boxSphereInfo_spec (p h : Vector3) (bx : Three.Box3) (p' : Vector3) (r' : R) :
  let closest := Three.clamp p' (Three.bmin bx) (Three.bmax bx) in
  let d := Three.distanceTo closest p' in
  ColliderM.boxSphereInfo p h bx p' r'
  = if leb d r'
    then Some (mkInfo (Three.normalize (Three.subVectors p' closest))
                      (r' - d) closest)
    else None.
Proof.
  intros closest d. unfold ColliderM.boxSphereInfo, Three.boxIntersectsSphere.
  simpl. fold closest.
  pose proof (distanceTo_nonneg closest p') as Hd. fold d in Hd.
  destruct (Rle_dec d r') as [Hle | Hgt].
  - rewrite (leb_le d r') by assumption.
    rewrite leb_le; [| fold (Three.distanceToSquared closest p');
                       rewrite <- distanceTo_sq; fold d; nra].
    simpl. fold d. rewrite (ltb_ge r' d) by assumption. reflexivity.
  - rewrite (leb_gt d r') by lra.
    destruct (leb _ _); simpl; [| reflexivity].
    fold d. rewrite (ltb_lt r' d) by lra. reflexivity.
Qed.

(** A point inside the box is its own closest point. *)
Lemma clamp_inside (x lo hi : Vector3) :
  vx lo <= vx x <= vx hi -> vy lo <= vy x <= vy hi -> vz lo <= vz x <= vz hi ->
  Three.clamp x lo hi = x.
Proof.
  intros Hx Hy Hz. unfold Three.clamp. apply vec3_eq; simpl; minmax.
Qed.

Lemma distanceTo_self (x : Vector3) : Three.distanceTo x x = 0.
Proof.
  unfold Three.distanceTo, Three.distanceToSquared, Three.lengthSq, Three.dot,
    Three.sub. simpl.
  replace ((vx x - vx x) * (vx x - vx x) + (vy x - vy x) * (vy x - vy x)
           + (vz x - vz x) * (vz x - vz x)) with 0 by ring.
  apply sqrt_0.
Qed.

Lemma subVectors_self (x : Vector3) : Three.subVectors x x = Three.zero.
Proof. apply vec3_eq; simpl; ring. Qed.

(** X3: between a box and a sphere, whichever is the receiver, a contact is
    reported exactly when the point of the box closest to the sphere's
    centre is within the radius; the normal points from that point to the
    centre, the depth is the radius minus that distance, the contact point
    is that point.  When the centre lies in the box the closest point is
    the centre itself: the contact has the zero vector for normal and the
    whole radius for depth. *)
Theorem box_sphere_contact (p h p' : Vector3) (r' : R) :
  let box := ColliderM.newBoxCollider p h in
  let sphere := ColliderM.newSphereCollider p' r' in
  let lo := Three.sub p h in
  let hi := Three.add p h in
  let closest := Three.clamp p' lo hi in
  let d := Three.distanceTo closest p' in
  ColliderM.getCollisionInfo sphere box = ColliderM.getCollisionInfo box sphere
  /\ (d <= r' ->
      ColliderM.getCollisionInfo box sphere
      = Some (mkInfo (Three.normalize (Three.subVectors p' closest))
                     (r' - d) closest))
  /\ (r' < d -> ColliderM.getCollisionInfo box sphere = None)
  /\ (vx lo <= vx p' <= vx hi -> vy lo <= vy p' <= vy hi ->
      vz lo <= vz p' <= vz hi -> 0 <= r' ->
      ColliderM.getCollisionInfo box sphere = Some (mkInfo Three.zero r' p')).
Proof.
  intros box sphere lo hi closest d.
  split; [reflexivity |].
  unfold box, sphere, ColliderM.newBoxCollider, ColliderM.newSphereCollider,
    ColliderM.getCollisionInfo.
  rewrite boxSphereInfo_spec. simpl Three.bmin. simpl Three.bmax.
  fold lo hi closest d.
  split; [| split].
  - intros Hd. rewrite leb_le by assumption. reflexivity.
  - intros Hd. rewrite leb_gt by assumption. reflexivity.
  - intros Hx Hy Hz Hr.
    assert (Ec : closest = p') by (apply clamp_inside; assumption).
    assert (Ed : d = 0) by (unfold d; rewrite Ec; apply distanceTo_self).
    rewrite Ed, Ec, leb_le by assumption.
    rewrite subVectors_self, normalize_zero.
    do 2 f_equal. lra.
Qed.

Lemma box_sphere_contact_witness :
  ColliderM.getCollisionInfo
    (ColliderM.newBoxCollider (vec3 0 0 0) (vec3 1 1 1))
    (ColliderM.newSphereCollider (vec3 (1 / 2) 0 0) (1 / 4))
  = Some (mkInfo Three.zero (1 / 4) (vec3 (1 / 2) 0 0)).
Proof.
  pose proof (box_sphere_contact (vec3 0 0 0) (vec3 1 1 1) (vec3 (1 / 2) 0 0)
                (1 / 4)) as (_ & _ & _ & H).
  apply H; simpl; lra.
Defined.

(** A contact whose normal is the zero vector moves nothing. *)
Lemma resolveWithInfo_zero_normal (a b : Body.PhysicsBody) (i : CollisionInfo) :
  normal i = Three.zero ->
  let r := World.resolveWithInfo a b i in
  Body.position (fst r) = Body.position a
  /\ Body.velocity (fst r) = Body.velocity a
  /\ Body.position (snd r) = Body.position b
  /\ Body.velocity (snd r) = Body.velocity b.
Proof.
  intros Hn. unfold World.resolveWithInfo. rewrite Hn.
  split_ifs; simpl; repeat split; try reflexivity;
    apply vec3_eq; simpl; ring.
Qed.

(** X4: a sphere whose centre lies inside a box is not pushed out: the contact
    it gets has no direction, and resolution leaves the position and the
    velocity of both bodies as they were. *)
Theorem sphere_inside_box_not_resolved (a s : Body.PhysicsBody)
        (r : R) (ps h : Vector3) :
  Body.class a = PlainBody ->
  Body.collider a = Some (ColliderM.newSphereCollider (Body.position a) r) ->
  Body.collider s = Some (ColliderM.newBoxCollider ps h) ->
  0 <= r ->
  vx ps - vx h <= vx (Body.position a) <= vx ps + vx h ->
  vy ps - vy h <= vy (Body.position a) <= vy ps + vy h ->
  vz ps - vz h <= vz (Body.position a) <= vz ps + vz h ->
  World.checkCollision a s = true
  /\ World.collisionInfoFor a s
     = Some (mkInfo Three.zero r (Body.position a))
  /\ Body.position (fst (World.collidePair a s)) = Body.position a
  /\ Body.velocity (fst (World.collidePair a s)) = Body.velocity a
  /\ Body.position (snd (World.collidePair a s)) = Body.position s
  /\ Body.velocity (snd (World.collidePair a s)) = Body.velocity s.
Proof.
  intros Hc Ha Hs Hr Hx Hy Hz.
  assert (Hinfo : World.collisionInfoFor a s
                  = Some (mkInfo Three.zero r (Body.position a))).
  { unfold World.collisionInfoFor, Body.checkCollision. rewrite Hc, Ha, Hs.
    change (ColliderM.getCollisionInfo
              (ColliderM.newSphereCollider (Body.position a) r)
              (ColliderM.newBoxCollider ps h))
      with (ColliderM.boxSphereInfo ps h (ColliderM.updateBox ps h)
              (Body.position a) r).
    rewrite boxSphereInfo_spec. simpl Three.bmin. simpl Three.bmax.
    rewrite clamp_inside by (simpl; assumption).
    rewrite distanceTo_self, leb_le by assumption.
    rewrite subVectors_self, normalize_zero. do 2 f_equal. lra. }
  assert (Hchk : World.checkCollision a s = true).
  { unfold World.checkCollision. rewrite Ha, Hs.
    unfold ColliderM.intersects, ColliderM.newSphereCollider,
      ColliderM.newBoxCollider, Three.boxIntersectsSphere. simpl.
    rewrite clamp_inside by (simpl; assumption).
    apply leb_le.
    replace (Three.distanceToSquared (Body.position a) (Body.position a)) with 0.
    - nra.
    - unfold Three.distanceToSquared, Three.lengthSq, Three.dot, Three.sub.
      simpl. ring. }
  split; [exact Hchk |]. split; [exact Hinfo |].
  unfold World.collidePair. rewrite Hchk.
  unfold World.resolveCollision. rewrite Hinfo.
  apply resolveWithInfo_zero_normal. reflexivity.
Qed.

Lemma sphere_inside_box_not_resolved_witness :
  let a := Body.newPhysicsBody (placedOptions (vec3 (1 / 2) 0 0) (vec3 1 0 0)) in
  let s := Body.newBoxObstacle noOptions in
  Body.position (fst (World.collidePair a s)) = Body.position a
  /\ Body.velocity (fst (World.collidePair a s)) = Body.velocity a.
Proof.
  intros a s.
  destruct (sphere_inside_box_not_resolved a s 1 (vec3 0 0 0) (vec3 1 1 1))
    as (_ & _ & H1 & H2 & _); try reflexivity; simpl; try lra.
  split; assumption.
Defined.

(** ** Box against box, from both sides *)

Lemma overlapOn_sym (p h p' h' axis : Vector3) :
  ColliderM.overlapOn p h p' h' axis = ColliderM.overlapOn p' h' p h axis.
Proof.
  unfold ColliderM.overlapOn. rewrite Rmin_comm, Rmax_comm. reflexivity.
Qed.

Lemma orientedAxis_reverse (p p' axis : Vector3) :
  (Three.dot (Three.subVectors p' p) axis <> 0 ->
   orientedAxis p' p axis = Three.multiplyScalar (orientedAxis p p' axis) (-1))
  /\ (Three.dot (Three.subVectors p' p) axis = 0 ->
      orientedAxis p' p axis = orientedAxis p p' axis).
Proof.
  assert (E : Three.dot (Three.subVectors p p') axis
              = - Three.dot (Three.subVectors p' p) axis).
  { unfold Three.dot, Three.subVectors, Three.sub. simpl. ring. }
  unfold orientedAxis. rewrite E.
  set (d := Three.dot (Three.subVectors p' p) axis). split.
  - intros Hne. destruct (Rlt_dec d 0) as [Hn | Hn].
    + rewrite (ltb_lt d 0) by assumption. rewrite (ltb_ge (- d) 0) by lra.
      apply vec3_eq; simpl; ring.
    + rewrite (ltb_ge d 0) by lra. rewrite (ltb_lt (- d) 0) by lra.
      reflexivity.
  - intros ->. rewrite Ropp_0. reflexivity.
Qed.

(** X5: two overlapping boxes seen from either side: the same depth and contact
    point, and opposite normals, except that when the centres do not differ
    along the axis of least overlap both sides get the same normal. *)
Theorem box_box_reciprocal (p h p' h' : Vector3) :
  0 <= vx h -> 0 <= vy h -> 0 <= vz h ->
  0 <= vx h' -> 0 <= vy h' -> 0 <= vz h' ->
  let ox := ColliderM.overlapOn p h p' h' (vec3 1 0 0) in
  let oy := ColliderM.overlapOn p h p' h' (vec3 0 1 0) in
  let oz := ColliderM.overlapOn p h p' h' (vec3 0 0 1) in
  0 < ox -> 0 < oy -> 0 < oz ->
  let A := ColliderM.newBoxCollider p h in
  let B := ColliderM.newBoxCollider p' h' in
  let axis := leastOverlapAxis ox oy oz in
  exists i i',
    ColliderM.getCollisionInfo A B = Some i
    /\ ColliderM.getCollisionInfo B A = Some i'
    /\ depth i' = depth i
    /\ point i' = point i
    /\ (Three.dot (Three.subVectors p' p) axis <> 0 ->
        normal i' = Three.multiplyScalar (normal i) (-1))
    /\ (Three.dot (Three.subVectors p' p) axis = 0 -> normal i' = normal i).
Proof.
  intros Hx Hy Hz Hx' Hy' Hz' ox oy oz Ox Oy Oz A B axis.
  pose proof (box_info_overlapping p h p' h' Hx Hy Hz Hx' Hy' Hz' Ox Oy Oz) as HA.
  assert (Ex : ColliderM.overlapOn p' h' p h (vec3 1 0 0) = ox)
    by apply overlapOn_sym.
  assert (Ey : ColliderM.overlapOn p' h' p h (vec3 0 1 0) = oy)
    by apply overlapOn_sym.
  assert (Ez : ColliderM.overlapOn p' h' p h (vec3 0 0 1) = oz)
    by apply overlapOn_sym.
  pose proof (box_info_overlapping p' h' p h Hx' Hy' Hz' Hx Hy Hz) as HB.
  cbv zeta in HA, HB. rewrite Ex, Ey, Ez in HB.
  specialize (HB Ox Oy Oz). fold ox oy oz axis in HA, HB.
  eexists. eexists. split; [exact HA |]. split; [exact HB |]. simpl.
  split; [reflexivity |].
  split; [apply vec3_eq; simpl; ring |].
  apply orientedAxis_reverse.
Qed.

Lemma box_box_reciprocal_witness :
  exists i i',
    ColliderM.getCollisionInfo
      (ColliderM.newBoxCollider (vec3 0 0 0) (vec3 1 1 1))
      (ColliderM.newBoxCollider (vec3 (3 / 2) 0 0) (vec3 1 1 1)) = Some i
    /\ ColliderM.getCollisionInfo
         (ColliderM.newBoxCollider (vec3 (3 / 2) 0 0) (vec3 1 1 1))
         (ColliderM.newBoxCollider (vec3 0 0 0) (vec3 1 1 1)) = Some i'
    /\ depth i' = depth i.
Proof.
  destruct (box_box_reciprocal (vec3 0 0 0) (vec3 1 1 1) (vec3 (3 / 2) 0 0)
              (vec3 1 1 1)) as (i & i' & H1 & H2 & H3 & _);
    try (simpl; lra).
  - rewrite overlapOn_x. simpl. rewrite !Rabs_right by lra. minmax.
  - rewrite overlapOn_y. simpl. rewrite !Rabs_right by lra. minmax.
  - rewrite overlapOn_z. simpl. rewrite !Rabs_right by lra. minmax.
  - exists i, i'. auto.
Defined.

(** ** Ground planes *)

(** X6: [GroundPlane.checkCollision]: a body without a radius (a box body) gets
    no contact; a body of radius r gets one exactly when its centre is less
    than r above the plane, with positive depth r minus that height, and,
    for a unit plane normal, a contact point lying on the plane. *)
Theorem groundPlane_contact (g other : Body.PhysicsBody) (n : Vector3) (off : R) :
  Body.class g = GroundPlane n off ->
  let height := Three.dot (Body.position other) n - off in
  (Body.radius other = None -> Body.checkCollision g other = None)
  /\ (forall r, Body.radius other = Some r ->
        (height < r ->
         exists i, Body.checkCollision g other = Some i
                   /\ normal i = n /\ depth i = r - height /\ 0 < depth i
                   /\ (Three.lengthSq n = 1 -> Three.dot (point i) n = off))
        /\ (r <= height -> Body.checkCollision g other = None)).
Proof.
  intros Hc height. unfold Body.checkCollision. rewrite Hc. split.
  - intros ->. reflexivity.
  - intros r ->. fold height. split.
    + intros Hlt. rewrite ltb_lt by assumption. eexists.
      split; [reflexivity |]. simpl.
      split; [reflexivity |]. split; [reflexivity |]. split; [lra |].
      intros Hn. rewrite dot_sub_l, dot_multiplyScalar_l.
      change (Three.dot n n) with (Three.lengthSq n). rewrite Hn.
      unfold height. ring.
    + intros Hge. rewrite ltb_ge by assumption. reflexivity.
Qed.

Lemma groundPlane_contact_witness :
  let g := Body.newGroundPlane noOptions in
  let other := Body.newPhysicsBody (placedOptions (vec3 5 (1 / 2) 0) (vec3 0 0 0)) in
  exists i, Body.checkCollision g other = Some i
            /\ normal i = vec3 0 1 0 /\ depth i = 1 - (1 / 2).
Proof.
  intros g other.
  destruct (groundPlane_contact g other (vec3 0 1 0) 0 eq_refl) as (_ & H).
  destruct (H 1 eq_refl) as (H1 & _).
  destruct H1 as (i & Hi & Hn & Hd & _).
  - unfold Three.dot. simpl. lra.
  - exists i. split; [exact Hi |]. split; [exact Hn |].
    rewrite Hd. unfold Three.dot. simpl. lra.
Defined.

(** X7: in the world's collision pass a body with a sphere collider meets
    another body with a sphere collider, a [GroundPlane] included, as two
    spheres: nothing happens when the spheres are apart, and when they
    overlap the contact used is the sphere-sphere one.  The other body's own
    [checkCollision] (the plane test of a [GroundPlane]) is not consulted
    in either case. *)
Theorem sphere_colliders_decide (a g : Body.PhysicsBody)
        (pa pg : Vector3) (ra rg : R) :
  Body.class a = PlainBody ->
  Body.collider a = Some (ColliderM.newSphereCollider pa ra) ->
  Body.collider g = Some (ColliderM.newSphereCollider pg rg) ->
  ((ra + rg) * (ra + rg) < Three.distanceToSquared pa pg ->
   World.collidePair a g = (a, g))
  /\ (Three.distanceTo pa pg < ra + rg ->
      World.collisionInfoFor a g
      = Some (mkInfo (Three.normalize (Three.sub pa pg))
                     (ra + rg - Three.distanceTo pa pg)
                     (Three.add (Three.multiplyScalar
                                   (Three.normalize (Three.sub pa pg)) ra) pa))).
Proof.
  intros Hc Ha Hg. split.
  - intros Hfar. unfold World.collidePair, World.checkCollision.
    rewrite Ha, Hg.
    assert (E : ColliderM.intersects (ColliderM.newSphereCollider pa ra)
                  (ColliderM.newSphereCollider pg rg) = false).
    { destruct (ColliderM.intersects _ _) eqn:E; [| reflexivity].
      apply sphere_intersects_iff in E.
      rewrite distanceToSquared_sym in E. lra. }
    rewrite E. reflexivity.
  - intros Hnear. unfold World.collisionInfoFor, Body.checkCollision.
    rewrite Hc, Ha, Hg. rewrite sphere_info_hit by assumption. reflexivity.
Qed.

Lemma sphere_colliders_decide_witness :
  let a := Body.newPhysicsBody (placedOptions (vec3 5 (1 / 2) 0) (vec3 0 (-1) 0)) in
  let g := Body.newGroundPlane noOptions in
  World.collidePair a g = (a, g)
  /\ exists i, Body.checkCollision g a = Some i.
Proof.
  intros a g. split.
  - destruct (sphere_colliders_decide a g (vec3 5 (1 / 2) 0) (vec3 0 0 0) 1 1)
      as (H & _); try reflexivity.
    apply H. unfold Three.distanceToSquared, Three.lengthSq, Three.dot, Three.sub.
    simpl. lra.
  - unfold Body.checkCollision. simpl. rewrite ltb_lt.
    + eexists. reflexivity.
    + unfold Three.dot. simpl. lra.
Defined.

(** ** Stabilization and integration *)

(** One component of the first pass of [stabilize]. *)
Lemma component_cut_twice (t x : R) :
  let x1 := if ltb (Rabs x) t then 0 else x in
  (if ltb (Rabs x1) t then 0 else x1) = x1.
Proof.
  cbv zeta. destruct (ltb (Rabs x) t) eqn:E.
  - destruct (ltb (Rabs 0) t); reflexivity.
  - rewrite E. reflexivity.
Qed.

Lemma component_cut_cases (t x : R) :
  let x1 := if ltb (Rabs x) t then 0 else x in
  x1 = 0 \/ (x1 = x /\ t <= Rabs x1).
Proof.
  cbv zeta. destruct (ltb (Rabs x) t) eqn:E; [left; reflexivity |].
  right. apply ltb_false_iff in E. auto.
Qed.

Lemma stabilize_velocity_twice (b : Body.PhysicsBody) :
  Body.velocity (Body.stabilize (Body.stabilize b)) = Body.velocity (Body.stabilize b).
Proof.
  unfold Body.stabilize. simpl.
  set (t := Body.stabilizeThreshold b).
  set (x1 := if ltb (Rabs (vx (Body.velocity b))) t then 0 else vx (Body.velocity b)).
  set (y1 := if ltb (Rabs (vy (Body.velocity b))) t then 0 else vy (Body.velocity b)).
  set (z1 := if ltb (Rabs (vz (Body.velocity b))) t then 0 else vz (Body.velocity b)).
  pose proof (component_cut_twice t (vx (Body.velocity b))) as Hx.
  pose proof (component_cut_twice t (vy (Body.velocity b))) as Hy.
  pose proof (component_cut_twice t (vz (Body.velocity b))) as Hz.
  cbv zeta in Hx, Hy, Hz. fold x1 in Hx. fold y1 in Hy. fold z1 in Hz.
  destruct (Body.onGround b).
  - destruct (ltb (sqrt (x1 * x1 + z1 * z1)) (t * 2)) eqn:E; simpl.
    + rewrite Hy.
      assert (E0 : (if ltb (Rabs 0) t then 0 else 0) = 0)
        by (destruct (ltb (Rabs 0) t); reflexivity).
      rewrite !E0.
      destruct (ltb (sqrt (0 * 0 + 0 * 0)) (t * 2)); reflexivity.
    + rewrite Hx, Hy, Hz, E. reflexivity.
  - simpl. rewrite Hx, Hy, Hz. reflexivity.
Qed.

(** X8: [stabilize] touches the velocity alone; afterwards every velocity
    component is either zero or the component it was, at least the
    threshold in magnitude; on the ground the horizontal speed is zero or
    at least twice the threshold; and stabilizing again changes nothing. *)
Theorem stabilize_settles (b : Body.PhysicsBody) :
  let b' := Body.stabilize b in
  let t := Body.stabilizeThreshold b in
  let v := Body.velocity b in
  let v' := Body.velocity b' in
  b' = Body.set_velocity b v'
  /\ Body.stabilize b' = b'
  /\ (vx v' = 0 \/ (vx v' = vx v /\ t <= Rabs (vx v')))
  /\ (vy v' = 0 \/ (vy v' = vy v /\ t <= Rabs (vy v')))
  /\ (vz v' = 0 \/ (vz v' = vz v /\ t <= Rabs (vz v')))
  /\ (Body.onGround b = true ->
      (vx v' = 0 /\ vz v' = 0)
      \/ t * 2 <= sqrt (vx v' * vx v' + vz v' * vz v')).
Proof.
  intros b' t v v'.
  split; [reflexivity |].
  split.
  { change (Body.stabilize (Body.stabilize b) = Body.stabilize b).
    transitivity (Body.set_velocity (Body.stabilize b)
                    (Body.velocity (Body.stabilize (Body.stabilize b))));
      [reflexivity |].
    rewrite stabilize_velocity_twice. reflexivity. }
  pose proof (component_cut_cases t (vx v)) as Hx.
  pose proof (component_cut_cases t (vy v)) as Hy.
  pose proof (component_cut_cases t (vz v)) as Hz.
  cbv zeta in Hx, Hy, Hz.
  unfold v', b', Body.stabilize. simpl. fold t v.
  set (x1 := if ltb (Rabs (vx v)) t then 0 else vx v) in *.
  set (y1 := if ltb (Rabs (vy v)) t then 0 else vy v) in *.
  set (z1 := if ltb (Rabs (vz v)) t then 0 else vz v) in *.
  destruct (Body.onGround b).
  - destruct (ltb (sqrt (x1 * x1 + z1 * z1)) (t * 2)) eqn:E; simpl.
    + split; [left; reflexivity |]. split; [exact Hy |].
      split; [left; reflexivity |]. intros _. left. auto.
    + split; [exact Hx |]. split; [exact Hy |]. split; [exact Hz |].
      intros _. right. apply ltb_false_iff in E. exact E.
  - simpl. split; [exact Hx |]. split; [exact Hy |]. split; [exact Hz |].
    intros H. discriminate.
Qed.

Lemma stabilize_settles_witness :
  let b := unitBody Three.zero (vec3 (1 / 100) 3 0) Three.zero Three.zero true in
  vx (Body.velocity (Body.stabilize b)) = 0
  /\ vz (Body.velocity (Body.stabilize b)) = 0.
Proof.
  intros b.
  destruct (stabilize_settles b) as (_ & _ & _ & _ & _ & H).
  destruct (H eq_refl) as [H0 | Hbig]; [exact H0 |].
  exfalso. revert Hbig. unfold Body.stabilize. simpl.
  rewrite (Rabs_right (1 / 100)) by lra. rewrite (ltb_lt (1 / 100)) by lra.
  rewrite Rabs_R0. rewrite (ltb_lt 0) by lra.
  destruct (ltb (sqrt (0 * 0 + 0 * 0)) (5 / 100 * 2)); simpl;
    replace (0 * 0 + 0 * 0) with 0 by ring; rewrite sqrt_0; lra.
Defined.

(** X9: a dynamic body integrated in isolation: [integrateVelocity] moves it by
    exactly velocity times dt (the velocity it had before stabilization) and
    brings the collider along; forces applied in between add up; and
    [integrateForces] then adds (force * inverse mass) * dt to the
    stabilized velocity, with the world-y component floored at
    -maxFallSpeed and no other component limited, records the acceleration
    and empties the force accumulator. *)
Theorem integration_in_isolation (b : Body.PhysicsBody) (f g : Vector3) (dt : R) :
  Body.isStatic b = false ->
  let b1 := Body.integrateVelocity b dt in
  let b2 := Body.applyForce (Body.applyForce b1 f) g in
  let b3 := Body.integrateForces b2 dt in
  let F := Three.add (Three.add (Body.forces b) f) g in
  let v1 := Body.velocity (Body.stabilize b) in
  let k := Body.invMass b * dt in
  Body.position b1
  = Three.add (Body.position b) (Three.multiplyScalar (Body.velocity b) dt)
  /\ colliderSynced b1
  /\ Body.velocity b1 = v1
  /\ Body.forces b2 = F
  /\ Body.forces (Body.applyForce (Body.applyForce b1 g) f) = F
  /\ Body.position b3 = Body.position b1
  /\ Body.forces b3 = Three.zero
  /\ Body.acceleration b3 = Three.multiplyScalar F (Body.invMass b)
  /\ vx (Body.velocity b3) = vx v1 + vx F * k
  /\ vz (Body.velocity b3) = vz v1 + vz F * k
  /\ vy (Body.velocity b3) = Rmax (vy v1 + vy F * k) (- Body.maxFallSpeed b)
  /\ - Body.maxFallSpeed b <= vy (Body.velocity b3).
Proof.
  intros Hs b1 b2 b3 F v1 k.
  assert (E1 : b1 = Body.syncCollider
                      (Body.stabilize
                         (Body.set_position b
                            (Three.add (Body.position b)
                               (Three.multiplyScalar (Body.velocity b) dt))))).
  { unfold b1, Body.integrateVelocity. rewrite Hs. reflexivity. }
  assert (Hs1 : Body.isStatic b1 = false) by (rewrite E1; exact Hs).
  assert (E2 : b2 = Body.set_forces b1 F).
  { unfold b2, Body.applyForce. rewrite Hs1. simpl. rewrite Hs1.
    rewrite E1. reflexivity. }
  split; [rewrite E1; reflexivity |].
  split; [rewrite E1; apply syncCollider_synced |].
  split; [rewrite E1; reflexivity |].
  split; [rewrite E2; reflexivity |].
  split.
  { unfold Body.applyForce. rewrite Hs1. simpl. rewrite Hs1. simpl.
    rewrite E1. simpl. unfold F. apply vec3_eq; simpl; ring. }
  assert (E3 : b3 = Body.integrateForces (Body.set_forces b1 F) dt)
    by (unfold b3; rewrite E2; reflexivity).
  unfold Body.integrateForces in E3. simpl in E3. rewrite Hs1 in E3.
  assert (Ev : Body.velocity b1 = v1) by (rewrite E1; reflexivity).
  assert (Ei : Body.invMass b1 = Body.invMass b) by (rewrite E1; reflexivity).
  assert (Em : Body.maxFallSpeed b1 = Body.maxFallSpeed b)
    by (rewrite E1; reflexivity).
  rewrite Ev, Ei, Em in E3.
  rewrite E3.
  destruct (Rlt_dec (vy v1 + (vy (Body.forces b) + vy f + vy g)
                              * Body.invMass b * dt)
                    (- Body.maxFallSpeed b)) as [Hc | Hc].
  - rewrite ltb_lt by exact Hc. unfold k, F. simpl.
    repeat split; try reflexivity; try ring;
      try (rewrite Rmax_right by lra); lra.
  - rewrite ltb_ge by lra. unfold k, F. simpl.
    repeat split; try reflexivity; try ring;
      try (rewrite Rmax_left by lra); lra.
Qed.

Lemma integration_in_isolation_witness :
  let b := unitBody (vec3 0 10 0) (vec3 1 0 0) Three.zero Three.zero false in
  Body.position (Body.integrateVelocity b (1 / 10))
  = Three.add (Body.position b) (Three.multiplyScalar (Body.velocity b) (1 / 10)).
Proof.
  intros b.
  exact (proj1 (integration_in_isolation b Three.zero Three.zero (1 / 10) eq_refl)).
Defined.

(** ** Impulse resolution: momentum, restitution, correction *)

Lemma momentum_arith (v w n J ia ib ma mb : R) :
  ma * ia = 1 -> mb * ib = 1 ->
  (v + n * J * ia) * ma + (w - n * J * ib) * mb = v * ma + w * mb.
Proof.
  intros Ha Hb.
  replace ((v + n * J * ia) * ma + (w - n * J * ib) * mb)
    with (v * ma + w * mb + n * J * (ma * ia) - n * J * (mb * ib)) by ring.
  rewrite Ha, Hb. ring.
Qed.

Lemma resolveWithInfo_momentum (a b : Body.PhysicsBody) (i : CollisionInfo) :
  0 < Body.invMass a -> 0 < Body.invMass b ->
  Body.mass a * Body.invMass a = 1 -> Body.mass b * Body.invMass b = 1 ->
  let r := World.resolveWithInfo a b i in
  Three.add (Three.multiplyScalar (Body.velocity (fst r)) (Body.mass a))
            (Three.multiplyScalar (Body.velocity (snd r)) (Body.mass b))
  = Three.add (Three.multiplyScalar (Body.velocity a) (Body.mass a))
              (Three.multiplyScalar (Body.velocity b) (Body.mass b)).
Proof.
  intros Ha Hb Ma Mb. unfold World.resolveWithInfo. rewrite !num_or_zero.
  rewrite (ltb_lt 0 (Body.invMass a)), (ltb_lt 0 (Body.invMass b)) by assumption.
  split_ifs; simpl; try reflexivity;
    apply vec3_eq; simpl; apply momentum_arith; assumption.
Qed.

Lemma resolveFallback_momentum (a b : Body.PhysicsBody) :
  0 < Body.invMass a -> 0 < Body.invMass b ->
  Body.mass a * Body.invMass a = 1 -> Body.mass b * Body.invMass b = 1 ->
  let r := World.resolveFallback a b in
  Three.add (Three.multiplyScalar (Body.velocity (fst r)) (Body.mass a))
            (Three.multiplyScalar (Body.velocity (snd r)) (Body.mass b))
  = Three.add (Three.multiplyScalar (Body.velocity a) (Body.mass a))
              (Three.multiplyScalar (Body.velocity b) (Body.mass b)).
Proof.
  intros Ha Hb Ma Mb. unfold World.resolveFallback.
  rewrite (ltb_lt 0 (Body.invMass a)), (ltb_lt 0 (Body.invMass b)) by assumption.
  split_ifs; simpl; try reflexivity;
    apply vec3_eq; simpl; apply momentum_arith; assumption.
Qed.

(** X10: resolving a pair of dynamic bodies (positive inverse mass, mass the
    reciprocal of it) conserves their total momentum, whichever branch of
    [resolveCollision] is taken and whether or not the pair intersects. *)
Theorem momentum_conserved (a b : Body.PhysicsBody) :
  0 < Body.invMass a -> 0 < Body.invMass b ->
  Body.mass a * Body.invMass a = 1 -> Body.mass b * Body.invMass b = 1 ->
  let momentum (x y : Body.PhysicsBody) :=
    Three.add (Three.multiplyScalar (Body.velocity x) (Body.mass a))
              (Three.multiplyScalar (Body.velocity y) (Body.mass b)) in
  momentum (fst (World.resolveCollision a b)) (snd (World.resolveCollision a b))
  = momentum a b
  /\ momentum (fst (World.collidePair a b)) (snd (World.collidePair a b))
     = momentum a b.
Proof.
  intros Ha Hb Ma Mb momentum.
  assert (H : momentum (fst (World.resolveCollision a b))
                       (snd (World.resolveCollision a b)) = momentum a b).
  { unfold momentum, World.resolveCollision.
    destruct (World.collisionInfoFor a b).
    - apply resolveWithInfo_momentum; assumption.
    - apply resolveFallback_momentum; assumption. }
  split; [exact H |].
  unfold World.collidePair. destruct (World.checkCollision a b);
    [exact H | reflexivity].
Qed.

Lemma momentum_conserved_witness :
  let a := Body.newPhysicsBody (placedOptions (vec3 0 0 0) (vec3 1 0 0)) in
  let b := Body.newPhysicsBody (placedOptions (vec3 (0 + 3 / 2) 0 0) (vec3 0 0 0)) in
  Three.add
    (Three.multiplyScalar (Body.velocity (fst (World.collidePair a b))) (Body.mass a))
    (Three.multiplyScalar (Body.velocity (snd (World.collidePair a b))) (Body.mass b))
  = Three.add (Three.multiplyScalar (Body.velocity a) (Body.mass a))
              (Three.multiplyScalar (Body.velocity b) (Body.mass b)).
Proof.
  intros a b.
  assert (Ha : 0 < Body.invMass a /\ Body.mass a * Body.invMass a = 1)
    by (simpl; rewrite ltb_lt by lra; split; lra).
  assert (Hb : 0 < Body.invMass b /\ Body.mass b * Body.invMass b = 1)
    by (simpl; rewrite ltb_lt by lra; split; lra).
  exact (proj2 (momentum_conserved a b (proj1 Ha) (proj1 Hb) (proj2 Ha) (proj2 Hb))).
Defined.

(** X11: the restitution law and the positional correction of the contact
    branch, stated on the info's normal n.  For bodies of non-negative
    inverse mass of which at least one can move, whose relative velocity
    (A minus B) along n is not positive: after resolution the relative
    velocity along a unit n is minus e times what it was, e the smaller of
    the two restitutions; when the depth is positive the displacement from
    B to A has changed by one tenth of the depth along n, and otherwise no
    position changes.  For a normal that points from B to A (sphere
    contacts) the condition means approaching bodies and the correction
    moves them apart; for a normal that points from A to B (box contacts)
    it means separating bodies and the correction moves them together. *)
Theorem contact_restitution_and_correction (a b : Body.PhysicsBody)
        (info : CollisionInfo) :
  World.collisionInfoFor a b = Some info ->
  0 <= Body.invMass a -> 0 <= Body.invMass b ->
  Body.invMass a + Body.invMass b <> 0 ->
  let n := normal info in
  let velAlongNormal :=
    Three.dot (Three.sub (Body.velocity a) (Body.velocity b)) n in
  velAlongNormal <= 0 ->
  let e := Rmin (Body.restitution a) (Body.restitution b) in
  let a' := fst (World.resolveCollision a b) in
  let b' := snd (World.resolveCollision a b) in
  (Three.lengthSq n = 1 ->
   Three.dot (Three.sub (Body.velocity a') (Body.velocity b')) n
   = - e * velAlongNormal)
  /\ (0 < depth info ->
      Three.sub (Body.position a') (Body.position b')
      = Three.add (Three.sub (Body.position a) (Body.position b))
                  (Three.multiplyScalar n (depth info * (1 / 10))))
  /\ (depth info <= 0 ->
      Body.position a' = Body.position a /\ Body.position b' = Body.position b).
Proof.
  intros Hinfo Ha Hb Hsum n van Hv e a' b'. subst a' b'.
  rewrite (resolveCollision_with_info a b info Hinfo).
  split; [| split].
  - intros Hn.
    destruct (resolveWithInfo_velocities a b info Ha Hb Hv Hsum) as [Va Vb].
    rewrite Va, Vb. fold n e van.
    unfold Three.lengthSq, Three.dot in Hn.
    unfold van, Three.dot, Three.sub, Three.add, Three.multiplyScalar. simpl.
    set (s := Body.invMass a + Body.invMass b) in *.
    set (D := (vx (Body.velocity a) - vx (Body.velocity b)) * vx n
              + (vy (Body.velocity a) - vy (Body.velocity b)) * vy n
              + (vz (Body.velocity a) - vz (Body.velocity b)) * vz n).
    replace ((vx (Body.velocity a) + vx n * (- (1 + e) * D / s * Body.invMass a)
              - (vx (Body.velocity b) - vx n * (- (1 + e) * D / s * Body.invMass b)))
             * vx n
             + (vy (Body.velocity a) + vy n * (- (1 + e) * D / s * Body.invMass a)
                - (vy (Body.velocity b) - vy n * (- (1 + e) * D / s * Body.invMass b)))
               * vy n
             + (vz (Body.velocity a) + vz n * (- (1 + e) * D / s * Body.invMass a)
                - (vz (Body.velocity b) - vz n * (- (1 + e) * D / s * Body.invMass b)))
               * vz n)
      with (D + (- (1 + e) * D / s) * s * (vx n * vx n + vy n * vy n + vz n * vz n))
      by (unfold D, s; field; exact Hsum).
    rewrite Hn. field. exact Hsum.
  - intros Hd.
    destruct (resolveWithInfo_positions a b info Ha Hb Hv Hsum Hd) as [Pa Pb].
    rewrite Pa, Pb. fold n.
    apply vec3_eq; simpl; field; exact Hsum.
  - intros Hd. unfold World.resolveWithInfo. rewrite !num_or_zero.
    unfold van, n in Hv.
    rewrite (ltb_ge 0 _ Hv). rewrite (eqb_neq _ 0) by assumption.
    rewrite (ltb_ge 0 (depth info)) by assumption.
    split_ifs; simpl; auto.
Qed.

Lemma contact_restitution_and_correction_witness :
  let p := vec3 0 0 0 in
  let p' := vec3 (0 + 3 / 2) 0 0 in
  let a := Body.newPhysicsBody (placedOptions p' (vec3 (-1) 0 0)) in
  let b := Body.newPhysicsBody (placedOptions p (vec3 0 0 0)) in
  Three.sub (Body.position (fst (World.resolveCollision a b)))
            (Body.position (snd (World.resolveCollision a b)))
  = Three.add (Three.sub p' p)
      (Three.multiplyScalar (Three.normalize (Three.sub p' p))
                            ((1 + 1 - 3 / 2) * (1 / 10))).
Proof.
  intros p p' a b.
  assert (Hd : Three.distanceTo p' p = 3 / 2).
  { rewrite distanceTo_sym. apply distanceTo_along_x. lra. }
  assert (Hn : Three.normalize (Three.sub p' p) = vec3 1 0 0).
  { unfold Three.normalize. rewrite <- distanceTo_length, Hd.
    rewrite num_or_nonzero by lra. apply vec3_eq; simpl; field. }
  assert (Hinfo : World.collisionInfoFor a b
                  = Some (mkInfo (Three.normalize (Three.sub p' p))
                                 (1 + 1 - 3 / 2)
                                 (Three.add (Three.multiplyScalar
                                               (Three.normalize (Three.sub p' p)) 1)
                                            p'))).
  { unfold World.collisionInfoFor, Body.checkCollision. simpl.
    fold p p'. rewrite Hd. rewrite ltb_lt by lra. reflexivity. }
  destruct (contact_restitution_and_correction a b _ Hinfo) as (_ & H & _).
  - apply newPhysicsBody_invMass_nonneg.
  - apply newPhysicsBody_invMass_nonneg.
  - simpl. rewrite ltb_lt by lra. lra.
  - simpl normal. rewrite Hn. unfold Three.dot. simpl. lra.
  - apply H. simpl. lra.
Defined.

(** ** When the fallback resolution is reached *)

(** X12: for two plain bodies the fallback sphere resolution is reached only at
    exact contact: between two sphere colliders of non-negative radius sum,
    only when the centres are exactly the radius sum apart; between a sphere
    of non-negative radius and a box, never. *)
Theorem fallback_only_at_exact_contact (a b : Body.PhysicsBody) :
  Body.class a = PlainBody -> Body.class b = PlainBody ->
  World.checkCollision a b = true ->
  World.collisionInfoFor a b = None ->
  (forall pa ra pb rb,
      Body.collider a = Some (ColliderM.newSphereCollider pa ra) ->
      Body.collider b = Some (ColliderM.newSphereCollider pb rb) ->
      0 <= ra + rb ->
      Three.distanceTo pa pb = ra + rb)
  /\ (forall pa ra pb hb,
         Body.collider a = Some (ColliderM.newSphereCollider pa ra) ->
         Body.collider b = Some (ColliderM.newBoxCollider pb hb) ->
         0 <= ra -> False).
Proof.
  intros Ca Cb Hchk Hinfo. split.
  - intros pa ra pb rb Ha Hb Hr.
    unfold World.checkCollision in Hchk. rewrite Ha, Hb in Hchk.
    apply sphere_intersects_iff in Hchk.
    rewrite distanceToSquared_sym in Hchk.
    apply distSq_le_iff in Hchk; [| assumption].
    unfold World.collisionInfoFor, Body.checkCollision in Hinfo.
    rewrite Ca, Ha, Hb in Hinfo.
    destruct (Rlt_dec (Three.distanceTo pa pb) (ra + rb)) as [Hlt | Hge].
    + rewrite sphere_info_hit in Hinfo by assumption. discriminate.
    + lra.
  - intros pa ra pb hb Ha Hb Hr.
    unfold World.checkCollision in Hchk. rewrite Ha, Hb in Hchk.
    unfold World.collisionInfoFor, Body.checkCollision in Hinfo.
    rewrite Ca, Ha, Hb in Hinfo.
    unfold ColliderM.getCollisionInfo, ColliderM.newSphereCollider,
      ColliderM.newBoxCollider in Hinfo.
    rewrite boxSphereInfo_spec in Hinfo.
    unfold ColliderM.intersects, ColliderM.newSphereCollider,
      ColliderM.newBoxCollider, Three.boxIntersectsSphere in Hchk.
    simpl in Hchk. apply leb_true_iff in Hchk.
    simpl Three.bmin in Hinfo. simpl Three.bmax in Hinfo.
    set (c := Three.clamp pa (Three.sub pb hb) (Three.add pb hb)) in *.
    apply distSq_le_iff in Hchk; [| assumption].
    rewrite leb_le in Hinfo by assumption.
    destruct (Body.checkCollision b a); discriminate.
Qed.

Lemma fallback_only_at_exact_contact_witness :
  let a := Body.newPhysicsBody (placedOptions (vec3 0 0 0) (vec3 1 0 0)) in
  let b := Body.newPhysicsBody (placedOptions (vec3 (0 + 2) 0 0) (vec3 0 0 0)) in
  World.checkCollision a b = true /\ World.collisionInfoFor a b = None
  /\ Three.distanceTo (vec3 0 0 0) (vec3 (0 + 2) 0 0) = 1 + 1.
Proof.
  intros a b.
  assert (Hd : Three.distanceTo (vec3 0 0 0) (vec3 (0 + 2) 0 0) = 2)
    by (apply distanceTo_along_x; lra).
  assert (Hchk : World.checkCollision a b = true).
  { unfold World.checkCollision. simpl.
    change (ColliderM.intersects
              (ColliderM.newSphereCollider (vec3 0 0 0) 1)
              (ColliderM.newSphereCollider (vec3 (0 + 2) 0 0) 1) = true).
    rewrite sphere_intersects_iff, distanceToSquared_sym.
    apply distSq_le_iff; lra. }
  assert (Hinfo : World.collisionInfoFor a b = None).
  { unfold World.collisionInfoFor, Body.checkCollision. simpl.
    rewrite Hd. rewrite (ltb_ge 2 (1 + 1)) by lra.
    rewrite distanceTo_sym, Hd. rewrite (ltb_ge 2 (1 + 1)) by lra.
    reflexivity. }
  split; [exact Hchk |]. split; [exact Hinfo |].
  destruct (fallback_only_at_exact_contact a b eq_refl eq_refl Hchk Hinfo)
    as (H & _).
  apply (H (vec3 0 0 0) 1 (vec3 (0 + 2) 0 0) 1); try reflexivity. lra.
Defined.

(** ** A collision pass with nothing to collide *)

Lemma collideWithLater_none (later : list Body.PhysicsBody) (a : Body.PhysicsBody) :
  Forall (fun b => World.checkCollision a b = false) later ->
  World.collideWithLater a later = (a, later).
Proof.
  induction 1 as [| b rest Hb Hrest IH]; simpl; [reflexivity |].
  unfold World.collidePair. rewrite Hb, IH. reflexivity.
Qed.

Lemma collideWithStatics_none (ss : list Body.PhysicsBody) (a : Body.PhysicsBody) :
  Forall (fun s => Body.isPlanet s = true \/ World.checkCollision a s = false) ss ->
  World.collideWithStatics a ss = (a, ss).
Proof.
  induction 1 as [| s rest Hs Hrest IH]; simpl; [reflexivity |].
  destruct (Body.isPlanet s) eqn:E.
  - rewrite IH. reflexivity.
  - destruct Hs as [Hs | Hs]; [discriminate |].
    unfold World.collidePair. rewrite Hs, IH. reflexivity.
Qed.

Lemma detectFrom_none (ss : list Body.PhysicsBody) (todo : list Body.PhysicsBody) :
  ForallOrdPairs (fun a b => World.checkCollision a b = false) todo ->
  Forall (fun a =>
            Forall (fun s => Body.isPlanet s = true
                             \/ World.checkCollision a s = false) ss) todo ->
  forall count, World.detectFrom count todo ss = (todo, ss).
Proof.
  induction 1 as [| a later Ha Hlater IH]; intros Hss count.
  - destruct count; reflexivity.
  - destruct count as [| k]; [reflexivity |]. simpl.
    inversion Hss as [| ? ? Hsa Hsl]; subst.
    rewrite collideWithLater_none by assumption.
    rewrite collideWithStatics_none by assumption.
    rewrite IH by assumption. reflexivity.
Qed.

(** X13: when no dynamic body intersects a later dynamic body or a static body
    that is not a planet, the collision pass changes nothing at all, and
    planets never count. *)
Theorem detectCollisions_without_contact (w : World.PhysicsWorld) :
  ForallOrdPairs (fun a b => World.checkCollision a b = false) (World.bodies w) ->
  (forall a s, In a (World.bodies w) -> In s (World.staticBodies w) ->
               Body.isPlanet s = false -> World.checkCollision a s = false) ->
  World.detectCollisions w = w.
Proof.
  intros Hpairs Hstat. unfold World.detectCollisions.
  rewrite detectFrom_none.
  - destruct w; reflexivity.
  - assumption.
  - apply Forall_forall. intros a Ha. apply Forall_forall. intros s Hs.
    destruct (Body.isPlanet s) eqn:E; [left; reflexivity |].
    right. apply Hstat; assumption.
Qed.

Lemma detectCollisions_without_contact_witness :
  let a := Body.newPhysicsBody (placedOptions (vec3 0 0 0) (vec3 1 0 0)) in
  let b := Body.newPhysicsBody (placedOptions (vec3 (0 + 3) 0 0) (vec3 (-1) 0 0)) in
  let w := World.addBody
             (World.addBody
                (World.addBody (World.newPhysicsWorld (-10) 60) (Planet.body planet20))
                a) b in
  World.detectCollisions w = w.
Proof.
  intros a b w. apply detectCollisions_without_contact.
  - simpl. constructor; [| constructor; [constructor | constructor]].
    constructor; [| constructor].
    unfold World.checkCollision. simpl.
    unfold Three.sphereIntersectsSphere. simpl. apply leb_gt.
    unfold Three.distanceToSquared, Three.lengthSq, Three.dot, Three.sub.
    simpl. lra.
  - simpl. intros x s Hx [<- | []] Hp. discriminate.
Defined.

(** ** Radial gravity *)

Lemma applyGravitationalForce_dynamic (p : Planet.PlanetBody) (b : Body.PhysicsBody) :
  Body.isStatic b = false -> Body.usesGravity b = true ->
  let toCenter := Three.subVectors (Planet.center p) (Body.position b) in
  let distance := sqrt (Rmax (Three.lengthSq toCenter) (Planet.epsilon p)) in
  Planet.applyGravitationalForce p b
  = Body.set_forces b
      (Three.add (Body.forces b)
         (Three.multiplyScalar (Three.divideScalar toCenter distance)
            (Body.mass b * Planet.gravityStrength p))).
Proof.
  intros Hs Hg. unfold Planet.applyGravitationalForce, Body.applyForce.
  rewrite Hg, Hs. reflexivity.
Qed.

(** X14: the pull of the planet on a dynamic, gravity-using body does not depend
    on the distance: from epsilon (in squared distance) outward the force
    added has magnitude |mass * gravityStrength| and points along the unit
    vector toward the centre.  Closer than that the same vector is divided
    by sqrt(epsilon) instead of the distance, so the force fades to nothing
    at the centre itself.  Static bodies and bodies that opted out of
    gravity are returned unchanged. *)
Theorem radial_gravity_force (p : Planet.PlanetBody) (b : Body.PhysicsBody) :
  0 < Planet.epsilon p ->
  let toCenter := Three.subVectors (Planet.center p) (Body.position b) in
  let pull := Body.mass b * Planet.gravityStrength p in
  let added (b' : Body.PhysicsBody) := Three.sub (Body.forces b') (Body.forces b) in
  let b' := Planet.applyGravitationalForce p b in
  (Body.isStatic b = true \/ Body.usesGravity b = false -> b' = b)
  /\ (Body.isStatic b = false -> Body.usesGravity b = true ->
      b' = Body.set_forces b (Body.forces b')
      /\ (Planet.epsilon p <= Three.lengthSq toCenter ->
          added b'
          = Three.multiplyScalar
              (Three.divideScalar toCenter (Three.length toCenter)) pull
          /\ Three.lengthSq (Three.divideScalar toCenter (Three.length toCenter)) = 1
          /\ Three.lengthSq (added b') = pull * pull)
      /\ (Three.lengthSq toCenter < Planet.epsilon p ->
          added b'
          = Three.multiplyScalar toCenter (pull / sqrt (Planet.epsilon p)))
      /\ (Body.position b = Planet.center p -> added b' = Three.zero)).
Proof.
  intros He toCenter pull added b'. split.
  - intros [Hs | Hg]; unfold b', Planet.applyGravitationalForce, Body.applyForce.
    + rewrite Hs. destruct (negb _); reflexivity.
    + rewrite Hg. reflexivity.
  - intros Hs Hg.
    pose proof (applyGravitationalForce_dynamic p b Hs Hg) as E.
    cbv zeta in E. fold toCenter pull b' in E.
    assert (Hsq : 0 < sqrt (Planet.epsilon p)) by (apply sqrt_lt_R0; assumption).
    split; [rewrite E; reflexivity |].
    split; [| split].
    + intros Hfar. rewrite Rmax_left in E by assumption.
      fold (Three.length toCenter) in E.
      assert (Hl : 0 < Three.length toCenter).
      { unfold Three.length. apply sqrt_lt_R0. lra. }
      assert (Hu : Three.lengthSq
                     (Three.divideScalar toCenter (Three.length toCenter)) = 1).
      { unfold Three.divideScalar. rewrite lengthSq_multiplyScalar.
        rewrite <- length_sq. field. lra. }
      split; [| split; [exact Hu |]].
      * unfold added. rewrite E. apply vec3_eq; simpl; ring.
      * replace (added b')
          with (Three.multiplyScalar
                  (Three.divideScalar toCenter (Three.length toCenter)) pull)
          by (unfold added; rewrite E; apply vec3_eq; simpl; ring).
        rewrite lengthSq_multiplyScalar, Hu. ring.
    + intros Hnear. rewrite Rmax_right in E by lra.
      unfold added. rewrite E. apply vec3_eq; simpl; field; lra.
    + intros Hc. unfold added. rewrite E.
      assert (Hz : toCenter = Three.zero).
      { unfold toCenter. rewrite Hc. apply subVectors_self. }
      rewrite Hz. apply vec3_eq; simpl; ring.
Qed.

Lemma radial_gravity_force_witness :
  let b := unitBody (vec3 0 21 0) Three.zero Three.zero Three.zero false in
  Three.lengthSq
    (Three.sub (Body.forces (Planet.applyGravitationalForce planet20 b))
               (Body.forces b))
  = (1 * 25) * (1 * 25).
Proof.
  intros b.
  destruct (radial_gravity_force planet20 b) as (_ & H).
  - simpl. lra.
  - destruct (H eq_refl eq_refl) as (_ & H1 & _).
    destruct H1 as (_ & _ & H3).
    + simpl. unfold Three.lengthSq, Three.dot. simpl. lra.
    + exact H3.
Defined.

(** ** The surface normal handed to the entity *)

Lemma surfaceResponse_entity (p : Planet.PlanetBody) (b : Body.PhysicsBody)
      (fc : Vector3) (d : R) :
  Body.entity (Planet.surfaceResponse p b fc d)
  = Body.entity (Planet.writeSurfaceNormal b (Three.divideScalar fc d)).
Proof.
  unfold Planet.surfaceResponse, Planet.groundState, Body.applyForce.
  split_ifs; reflexivity.
Qed.

Lemma safetyTeleport_entity (p : Planet.PlanetBody) (b : Body.PhysicsBody)
      (fc : Vector3) :
  Body.entity (fst (Planet.safetyTeleport p b fc)) = Body.entity b.
Proof.
  unfold Planet.safetyTeleport. simpl. destruct (ltb _ 0); reflexivity.
Qed.

Lemma writeSurfaceNormal_entity (b : Body.PhysicsBody) (n : Vector3) :
  Body.entity (Planet.writeSurfaceNormal b n)
  = match Body.entity b with
    | Some e => match surfaceNormal e with
                | Some _ => Some (mkEntity (isJumping e) (Some n))
                | None => Some e
                end
    | None => None
    end.
Proof.
  unfold Planet.writeSurfaceNormal.
  destruct (Body.entity b) as [e |] eqn:E; [| exact E].
  destruct (surfaceNormal e); [reflexivity | exact E].
Qed.

(** X15: what the surface pass writes into the entity of a gravity-using body.
    An entity without a [surfaceNormal] property, and the absence of an
    entity, are left as they are.  Otherwise, with d the distance from the
    centre floored at epsilon: when the body is not inside the safe distance
    the normal written is (position - centre) / d, a unit vector from
    epsilon outward.  When the safety teleport fires (body not at the
    centre), [fromCenter] has been normalized, scaled by the safe offset
    k = minSafeDistance + (radius || 0.5) and normalized again, all in
    place, before that division: the normal written is the unit direction
    with the sign of k, divided by d.  For positive k that is the unit
    direction over d, of length 1 / d rather than 1; for negative k its
    opposite; for k = 0 the zero vector.  The jump flag is kept. *)
Theorem surface_normal_written (p : Planet.PlanetBody) (b : Body.PhysicsBody)
        (t : R) :
  Body.usesGravity b = true ->
  0 < Planet.epsilon p ->
  let fromCenter := Three.subVectors (Body.position b) (Planet.center p) in
  let d := Rmax (Three.length fromCenter) (Planet.epsilon p) in
  let b' := Planet.handlePlanetSurfaceInteraction p b t in
  (Body.entity b = None -> Body.entity b' = None)
  /\ (forall e, Body.entity b = Some e -> surfaceNormal e = None ->
                Body.entity b' = Some e)
  /\ (forall e n0, Body.entity b = Some e -> surfaceNormal e = Some n0 ->
        (Planet.minSafeDistance p <= d ->
         Body.entity b'
         = Some (mkEntity (isJumping e) (Some (Three.divideScalar fromCenter d)))
         /\ (Planet.epsilon p <= Three.length fromCenter ->
             Three.lengthSq (Three.divideScalar fromCenter d) = 1))
        /\ (d < Planet.minSafeDistance p ->
            Body.position b <> Planet.center p ->
            let u := Three.normalize fromCenter in
            let k := Planet.minSafeDistance p + opt_or (Body.radius b) (5 / 10) in
            let written :=
              Three.divideScalar (Three.multiplyScalar u (signOf k)) d in
            Body.entity b' = Some (mkEntity (isJumping e) (Some written))
            /\ (0 < k ->
                written = Three.divideScalar u d
                /\ Three.lengthSq written = (1 / d) * (1 / d))
            /\ (k < 0 ->
                written = Three.divideScalar (Three.multiplyScalar u (-1)) d
                /\ Three.lengthSq written = (1 / d) * (1 / d))
            /\ (k = 0 -> written = Three.zero))).
Proof.
  intros Hg He fromCenter d b'.
  assert (Hd : 0 < d) by (unfold d; minmax).
  assert (Eb : Body.entity b'
               = if ltb d (Planet.minSafeDistance p)
                 then Body.entity
                        (Planet.writeSurfaceNormal
                           (fst (Planet.safetyTeleport p b fromCenter))
                           (Three.divideScalar
                              (snd (Planet.safetyTeleport p b fromCenter)) d))
                 else Body.entity
                        (Planet.writeSurfaceNormal b
                           (Three.divideScalar fromCenter d))).
  { unfold b', Planet.handlePlanetSurfaceInteraction. rewrite Hg.
    cbv beta iota delta [negb]. fold fromCenter d.
    destruct (ltb d (Planet.minSafeDistance p)).
    - destruct (Planet.safetyTeleport p b fromCenter) as [b1 fc].
      apply surfaceResponse_entity.
    - apply surfaceResponse_entity. }
  rewrite !writeSurfaceNormal_entity, safetyTeleport_entity in Eb.
  split; [| split].
  - intros E. rewrite Eb, E. destruct (ltb _ _); reflexivity.
  - intros e E En. rewrite Eb, E, En. destruct (ltb _ _); reflexivity.
  - intros e n0 E En. rewrite E, En in Eb. split.
    + intros Hout. rewrite (ltb_ge d _) in Eb by assumption.
      split; [exact Eb |].
      intros Hfar. unfold d. rewrite Rmax_left by assumption.
      unfold Three.divideScalar. rewrite lengthSq_multiplyScalar.
      rewrite <- length_sq. field. lra.
    + intros Hin Hne u k written. rewrite (ltb_lt d _) in Eb by assumption.
      assert (Hfc : fromCenter <> Three.zero) by (apply sub_nonzero; assumption).
      destruct (safetyTeleport_direction p b fromCenter Hfc) as (Hu & _).
      cbv zeta in Hu. fold u k in Hu. rewrite Hu in Eb.
      assert (Hunit : Three.lengthSq u = 1)
        by (apply lengthSq_normalize; assumption).
      split; [exact Eb |].
      split; [| split].
      * intros Hk. unfold written. rewrite signOf_pos by assumption.
        split.
        -- unfold Three.divideScalar. apply vec3_eq; simpl; ring.
        -- unfold Three.divideScalar.
           rewrite !lengthSq_multiplyScalar, Hunit. ring.
      * intros Hk. unfold written, signOf.
        rewrite (ltb_ge 0 k) by lra. rewrite (ltb_lt k 0) by assumption.
        split; [reflexivity |].
        unfold Three.divideScalar.
        rewrite !lengthSq_multiplyScalar, Hunit. ring.
      * intros Hk. unfold written, signOf. rewrite Hk.
        rewrite (ltb_ge 0 0) by lra.
        unfold Three.divideScalar. apply vec3_eq; simpl; ring.
Qed.

Lemma surface_normal_written_witness :
  let e := mkEntity false (Some (vec3 0 1 0)) in
  let b := Body.set_entity
             (unitBody (vec3 0 9 0) Three.zero Three.zero Three.zero false)
             (Some e) in
  let b' := Planet.handlePlanetSurfaceInteraction planet20 b (1 / 60) in
  let written :=
    Three.divideScalar
      (Three.multiplyScalar (Three.normalize (vec3 0 9 0))
         (signOf (Planet.minSafeDistance planet20
                  + opt_or (Body.radius b) (5 / 10)))) 9 in
  Body.entity b' = Some (mkEntity false (Some written))
  /\ written = Three.divideScalar (Three.normalize (vec3 0 9 0)) 9
  /\ Three.lengthSq written = (1 / 9) * (1 / 9).
Proof.
  intros e b b' written.
  assert (Hfc : Three.subVectors (Body.position b) (Planet.center planet20)
                = vec3 0 9 0) by apply subVectors_zero.
  assert (Hd : Rmax (Three.length (vec3 0 9 0)) (Planet.epsilon planet20) = 9).
  { rewrite length_y by lra. simpl. apply Rmax_left. lra. }
  assert (Hr : opt_or (Body.radius b) (5 / 10) = 1)
    by (simpl; apply num_or_nonzero; lra).
  destruct (surface_normal_written planet20 b (1 / 60) eq_refl) as (_ & _ & H).
  - simpl. lra.
  - destruct (H e (vec3 0 1 0) eq_refl eq_refl) as (_ & H2).
    rewrite Hfc, Hd in H2.
    destruct H2 as (H3 & H4 & _).
    + simpl. lra.
    + simpl. unfold Three.zero. intros E. injection E as E. lra.
    + destruct H4 as (H5 & H6).
      * rewrite Hr. simpl. lra.
      * split; [exact H3 | split; [exact H5 | exact H6]].
Defined.

(** ** The accumulator between frames *)

Lemma loopTimeSteps_bounds (n : nat) (fts : R) :
  0 < fts ->
  forall acc,
    Forall (fun t => t = fts /\ fts <= acc)
           (fst (fst (World.loopTimeSteps n fts acc)))
    /\ snd (fst (World.loopTimeSteps n fts acc)) <= acc
    /\ (0 <= acc -> 0 <= snd (fst (World.loopTimeSteps n fts acc))).
Proof.
  intros Hf. induction n as [| m IH]; intros acc; simpl.
  - split; [constructor | split; [lra | auto]].
  - destruct (Rle_dec fts acc) as [E | E].
    + rewrite leb_le by assumption.
      destruct (IH (acc - fts)) as (H1 & H2 & H3).
      destruct (World.loopTimeSteps m fts (acc - fts)) as [[l acc'] r].
      simpl in *. split; [| split; [lra | intros _; apply H3; lra]].
      constructor; [split; [reflexivity | assumption] |].
      eapply Forall_impl; [| exact H1]. simpl. intros t [-> Ht]. split; [reflexivity | lra].
    + rewrite leb_gt by lra. simpl.
      split; [constructor | split; [lra | auto]].
Qed.

Lemma timeSteps_within (deltaTime : R) (w : World.PhysicsWorld) :
  0 < World.fixedTimeStep w ->
  Forall (fun t => 0 < t <= World.accumulator w + Rmin deltaTime (1 / 10))
         (World.timeSteps deltaTime w).
Proof.
  intros Hf. unfold World.timeSteps. cbv zeta.
  set (acc0 := World.accumulator w + Rmin deltaTime (1 / 10)).
  destruct (loopTimeSteps_bounds (World.maxSubSteps w) _ Hf acc0)
    as (H1 & H2 & _).
  destruct (World.loopTimeSteps _ _ acc0) as [[l acc] r]. simpl in *.
  assert (Hl : Forall (fun t => 0 < t <= acc0) l).
  { eapply Forall_impl; [| exact H1]. simpl. intros t [-> Ht]. lra. }
  destruct r as [| r']; [| assumption].
  destruct (Rlt_dec 0 acc) as [E | E].
  - rewrite ltb_lt by assumption. apply Forall_app. split; [assumption |].
    constructor; [lra | constructor].
  - rewrite ltb_ge by lra. assumption.
Qed.

(** X16: with a positive fixed time step, a frame that starts from a
    non-negative accumulator plus capped delta leaves the accumulator in
    [0, fixedTimeStep): whatever the loop leaves over is either below one
    step or consumed by the final leftover step. *)
Theorem update_accumulator_range (deltaTime : R) (w : World.PhysicsWorld) :
  0 < World.fixedTimeStep w ->
  0 <= World.accumulator w + Rmin deltaTime (1 / 10) ->
  0 <= World.accumulator (World.update deltaTime w) < World.fixedTimeStep w.
Proof.
  intros Hf Hacc.
  set (acc0 := World.accumulator w + Rmin deltaTime (1 / 10)) in *.
  set (fts := World.fixedTimeStep w) in *.
  set (n := World.maxSubSteps w).
  destruct (loopTimeSteps_bounds n fts Hf acc0) as (_ & _ & Hnn).
  specialize (Hnn Hacc).
  destruct (loopTimeSteps_spec n fts acc0) as (k & Hk & Heq & Hlt).
  unfold World.update. rewrite subStepLoop_runs. simpl.
  fold acc0 fts n. rewrite Heq in *. simpl in Hnn.
  destruct (n - k)%nat as [| r] eqn:Er.
  - destruct (Rlt_dec 0 (acc0 - INR k * fts)) as [E | E].
    + simpl. rewrite !(ltb_lt 0 (acc0 - INR k * fts)) by assumption.
      simpl. lra.
    + simpl. rewrite !(ltb_ge 0 (acc0 - INR k * fts)) by lra.
      simpl. lra.
  - simpl. assert (Hk' : (k < n)%nat) by lia. specialize (Hlt Hk'). lra.
Qed.

Lemma update_accumulator_range_witness :
  let w := World.set_accumulator (World.newPhysicsWorld (-20) 120) (1 / 240) in
  0 <= World.accumulator (World.update (1 / 30) w) < World.fixedTimeStep w.
Proof.
  intros w. apply (update_accumulator_range (1 / 30) w).
  - simpl. lra.
  - simpl. unfold Rmin. destruct (Rle_dec (1 / 30) (1 / 10)); lra.
Defined.

(** ** A body at rest on the planet *)

Lemma stabilize_zero (b : Body.PhysicsBody) :
  Body.velocity b = Three.zero -> Body.stabilize b = b.
Proof.
  intros H. destruct b. simpl in H. subst. unfold Body.stabilize. simpl.
  assert (E0 : forall t, (if ltb (Rabs 0) t then 0 else 0) = 0)
    by (intros t; destruct (ltb (Rabs 0) t); reflexivity).
  rewrite !E0. unfold Body.set_velocity. simpl.
  destruct onGround; [destruct (ltb _ _) |]; reflexivity.
Qed.

Lemma integrateVelocity_resting (b : Body.PhysicsBody) (dt : R) :
  Body.isStatic b = false -> Body.velocity b = Three.zero ->
  Body.integrateVelocity b dt = Body.syncCollider b.
Proof.
  intros Hs Hv. unfold Body.integrateVelocity. rewrite Hs.
  assert (E : Body.set_position b
                (Three.add (Body.position b)
                           (Three.multiplyScalar (Body.velocity b) dt)) = b).
  { rewrite Hv. destruct b. unfold Body.set_position. simpl. f_equal.
    apply vec3_eq; simpl; ring. }
  rewrite E, stabilize_zero by assumption. reflexivity.
Qed.

Lemma lengthSq_neg_sub (a c : Vector3) :
  Three.lengthSq (Three.subVectors c a) = Three.lengthSq (Three.sub a c).
Proof. unfold Three.lengthSq, Three.dot, Three.subVectors, Three.sub. simpl. ring. Qed.

Lemma pull_arith (x I m g im : R) :
  m * im = 1 -> 0 < I -> (0 + x * (1 / I) * (m * g)) * im = x * (g / I).
Proof.
  intros Hm HI.
  replace ((0 + x * (1 / I) * (m * g)) * im) with (x * (1 / I) * g * (m * im))
    by ring.
  rewrite Hm. field. lra.
Qed.

Lemma fall_bound (y I k M : R) :
  0 < I -> y * y <= I * I -> 0 <= k <= M -> - M <= y * (k / I).
Proof.
  intros HI Hy Hk.
  assert (Hq : - I <= y) by nra.
  assert (Hq' : -1 <= y / I).
  { apply Rmult_le_reg_r with I; [lra |].
    replace (y / I * I) with y by (field; lra). lra. }
  replace (y * (k / I)) with (y / I * k) by (field; lra).
  nra.
Qed.

(** Gravity and force integration on a body at rest at distance I. *)
Lemma gravity_step_resting (p : Planet.PlanetBody) (b : Body.PhysicsBody) (dt I : R) :
  Body.isStatic b = false -> Body.usesGravity b = true ->
  Body.velocity b = Three.zero -> Body.forces b = Three.zero ->
  Body.mass b * Body.invMass b = 1 ->
  Three.length (Three.sub (Body.position b) (Planet.center p)) = I ->
  0 < I -> Planet.epsilon p <= I * I ->
  0 <= Planet.gravityStrength p * dt <= Body.maxFallSpeed b ->
  let toCenter := Three.subVectors (Planet.center p) (Body.position b) in
  let g := Planet.gravityStrength p in
  Body.integrateForces (Planet.applyGravitationalForce p b) dt
  = Body.set_forces
      (Body.set_velocity
         (Body.set_acceleration b (Three.multiplyScalar toCenter (g / I)))
         (Three.multiplyScalar toCenter (g * dt / I)))
      Three.zero.
Proof.
  intros Hs Hg Hv Hf Hm HI Ipos He Hgd toCenter g.
  rewrite applyGravitationalForce_dynamic by assumption. fold toCenter g.
  assert (Hsq : Three.lengthSq toCenter = I * I).
  { unfold toCenter. rewrite lengthSq_neg_sub, <- length_sq, HI. reflexivity. }
  rewrite Hsq, Rmax_left by assumption. rewrite sqrt_square by lra.
  unfold Body.integrateForces. 
  cbn [Body.isStatic Body.set_forces Body.forces Body.invMass Body.velocity Body.maxFallSpeed Body.set_acceleration Body.set_velocity].
  rewrite Hs, Hv, Hf.
  set (m := Body.mass b) in *. set (im := Body.invMass b) in *.
  assert (EA : Three.multiplyScalar
                 (Three.add Three.zero
                    (Three.multiplyScalar (Three.divideScalar toCenter I) (m * g)))
                 im
               = Three.multiplyScalar toCenter (g / I)).
  { apply vec3_eq; simpl; apply pull_arith; (assumption || lra). }
  rewrite EA.
  assert (EV : Three.add Three.zero
                 (Three.multiplyScalar (Three.multiplyScalar toCenter (g / I)) dt)
               = Three.multiplyScalar toCenter (g * dt / I)).
  { apply vec3_eq; simpl; field; lra. }
  rewrite EV.
  assert (Hy : - Body.maxFallSpeed b <= vy (Three.multiplyScalar toCenter (g * dt / I))).
  { unfold Three.lengthSq, Three.dot in Hsq.
    change (vy (Three.multiplyScalar toCenter (g * dt / I)))
      with (vy toCenter * (g * dt / I)).
    apply fall_bound; [lra | nra | exact Hgd]. }
  rewrite ltb_ge by exact Hy.
  destruct b. reflexivity.
Qed.

Lemma writeSurfaceNormal_fields (b : Body.PhysicsBody) (n : Vector3) :
  let b' := Planet.writeSurfaceNormal b n in
  Body.position b' = Body.position b /\ Body.velocity b' = Body.velocity b
  /\ Body.forces b' = Body.forces b /\ Body.radius b' = Body.radius b
  /\ Body.maxFallSpeed b' = Body.maxFallSpeed b
  /\ Body.onGround b' = Body.onGround b.
Proof.
  unfold Planet.writeSurfaceNormal.
  destruct (Body.entity b) as [e |]; [destruct (surfaceNormal e) |];
    simpl; repeat split; reflexivity.
Qed.

(** The surface pass on a body exactly on the ideal shell: no teleport, no
    push, the grounded branch. *)
Lemma surface_step_grounded (p : Planet.PlanetBody) (x : Body.PhysicsBody)
      (dt : R) :
  Body.usesGravity x = true ->
  Three.length (Three.sub (Body.position x) (Planet.center p)) = idealDistance p x ->
  Planet.epsilon p <= idealDistance p x ->
  Planet.minSafeDistance p <= idealDistance p x ->
  0 < Planet.groundThreshold p ->
  let rd := Three.divideScalar (Three.sub (Body.position x) (Planet.center p))
                               (idealDistance p x) in
  Planet.handlePlanetSurfaceInteraction p x dt
  = Planet.groundState
      (Body.set_onGround (Planet.writeSurfaceNormal x rd) true) rd.
Proof.
  intros Hg HI He Hms Hgt rd.
  unfold Planet.handlePlanetSurfaceInteraction. rewrite Hg.
  cbv beta iota zeta delta [negb].
  change (Three.subVectors (Body.position x) (Planet.center p))
    with (Three.sub (Body.position x) (Planet.center p)).
  rewrite HI.
  rewrite (Rmax_left (idealDistance p x)) by assumption.
  rewrite (ltb_ge (idealDistance p x)) by assumption.
  unfold Planet.surfaceResponse. cbv zeta. fold rd.
  destruct (writeSurfaceNormal_fields x rd) as (_ & _ & _ & Wr & _ & _).
  replace (Planet.radius p + Planet.surfaceOffset p
           + opt_or (Body.radius (Planet.writeSurfaceNormal x rd)) (5 / 10)
           - idealDistance p x) with 0
    by (rewrite Wr; unfold idealDistance; ring).
  rewrite Rabs_R0, (ltb_lt 0 (Planet.groundThreshold p)) by assumption.
  rewrite (ltb_ge (1 / 100) 0) by lra.
  reflexivity.
Qed.

(** On the shell a velocity that points at the centre is cancelled. *)
Lemma surface_step_on_shell (p : Planet.PlanetBody) (x : Body.PhysicsBody)
      (dt k : R) :
  Body.usesGravity x = true ->
  Three.length (Three.sub (Body.position x) (Planet.center p)) = idealDistance p x ->
  0 < idealDistance p x ->
  Planet.epsilon p <= idealDistance p x ->
  Planet.minSafeDistance p <= idealDistance p x ->
  0 < Planet.groundThreshold p ->
  0 <= k ->
  Body.velocity x
  = Three.multiplyScalar (Three.subVectors (Planet.center p) (Body.position x)) k ->
  let x' := Planet.handlePlanetSurfaceInteraction p x dt in
  Body.position x' = Body.position x
  /\ Body.velocity x' = Three.zero
  /\ Body.forces x' = Body.forces x
  /\ Body.onGround x' = true
  /\ Body.maxFallSpeed x' = Body.maxFallSpeed x.
Proof.
  intros Hg HI Ipos He Hms Hgt Hk Hv.
  rewrite (surface_step_grounded p x dt Hg HI He Hms Hgt).
  set (I := idealDistance p x) in *.
  set (fc := Three.sub (Body.position x) (Planet.center p)) in *.
  set (rd := Three.divideScalar fc I).
  destruct (writeSurfaceNormal_fields x rd) as (Wp & Wv & Wf & Wr & Wm & Wg).
  set (x2 := Planet.writeSurfaceNormal x rd) in *.
  unfold Planet.groundState.
  cbn [Body.velocity Body.set_onGround Body.set_velocity Body.position
       Body.forces Body.onGround Body.maxFallSpeed].
  rewrite Wp, Wv, Wf, Wm, Hv.
  split; [reflexivity |]. split; [| auto].
  assert (Hsq : vx fc * vx fc + vy fc * vy fc + vz fc * vz fc = I * I).
  { rewrite <- HI. rewrite length_sq. reflexivity. }
  set (V := Three.multiplyScalar (Three.subVectors (Planet.center p) (Body.position x)) k).
  assert (Env : Three.dot V rd = - (k * I)).
  { unfold V, rd, Three.dot, Three.divideScalar, Three.multiplyScalar,
      Three.subVectors, Three.sub. simpl.
    unfold fc, Three.sub in Hsq. simpl in Hsq.
    transitivity (- k * (1 / I)
                  * ((vx (Body.position x) - vx (Planet.center p))
                     * (vx (Body.position x) - vx (Planet.center p))
                     + (vy (Body.position x) - vy (Planet.center p))
                       * (vy (Body.position x) - vy (Planet.center p))
                     + (vz (Body.position x) - vz (Planet.center p))
                       * (vz (Body.position x) - vz (Planet.center p))));
      [ring |].
    rewrite Hsq. field. lra. }
  rewrite Env.
  assert (E1 : (if ltb (- (k * I)) 0
                then Three.sub V (Three.multiplyScalar rd (- (k * I)))
                else V) = Three.zero).
  { destruct (Rlt_dec (- (k * I)) 0) as [Hn | Hn].
    - rewrite ltb_lt by assumption.
      unfold V, rd, fc, Three.divideScalar. apply vec3_eq; simpl; field; lra.
    - rewrite ltb_ge by lra.
      assert (Hk0 : k = 0) by nra.
      unfold V. rewrite Hk0. apply vec3_eq; simpl; ring. }
  rewrite E1.
  destruct (ltb (95 / 100) _); apply vec3_eq; simpl; ring.
Qed.

(** What every planet made by the constructor satisfies when its radius is
    not negative, against a body whose effective radius is not negative. *)
Lemma newPlanetBody_shell (o : Body.Options) (b : Body.PhysicsBody) :
  let p := Planet.newPlanetBody o in
  0 <= Planet.radius p ->
  0 <= opt_or (Body.radius b) (5 / 10) ->
  0 < idealDistance p b
  /\ Planet.epsilon p <= idealDistance p b * idealDistance p b
  /\ Planet.epsilon p <= idealDistance p b
  /\ Planet.minSafeDistance p <= idealDistance p b
  /\ Planet.radius p * (9 / 10) <= idealDistance p b
  /\ 0 < Planet.groundThreshold p.
Proof.
  intros p Hr Hb. unfold idealDistance.
  change (Planet.surfaceOffset p) with (2 / 10).
  change (Planet.epsilon p) with (1 / 1000000).
  change (Planet.groundThreshold p) with (3 / 10).
  change (Planet.minSafeDistance p) with (Planet.radius p * (9 / 10)).
  set (r := Planet.radius p) in *. set (q := opt_or (Body.radius b) (5 / 10)) in *.
  repeat split; try lra. nra.
Qed.

(** One sub-step on a body resting on the ideal shell. *)
Lemma resting_step (p : Planet.PlanetBody) (b : Body.PhysicsBody) (t : R) :
  restsOnShell p b ->
  0 < idealDistance p b ->
  Planet.epsilon p <= idealDistance p b * idealDistance p b ->
  Planet.epsilon p <= idealDistance p b ->
  Planet.minSafeDistance p <= idealDistance p b ->
  Planet.radius p * (9 / 10) <= idealDistance p b ->
  0 < Planet.groundThreshold p ->
  0 <= Planet.gravityStrength p * t <= Body.maxFallSpeed b ->
  let b' :=
    Planet.handlePlanetSurfaceInteraction p
      (Body.integrateForces
         (Planet.applyGravitationalForce p
            (Body.integrateVelocity (Planet.emergencyCorrection p b) t)) t) t in
  restsOnShell p b'
  /\ Body.position b' = Body.position b
  /\ Body.onGround b' = true
  /\ Body.radius b' = Body.radius b
  /\ Body.maxFallSpeed b' = Body.maxFallSpeed b.
Proof.
  intros (Hs & Hg & Hv & Hf & Hm & HI) Ipos He2 He Hms Hr Hgt Hgd b'.
  assert (E1 : Planet.emergencyCorrection p b = b).
  { unfold Planet.emergencyCorrection. cbv zeta.
    change (Three.subVectors (Body.position b) (Planet.center p))
      with (Three.sub (Body.position b) (Planet.center p)).
    rewrite HI. rewrite ltb_ge by assumption. reflexivity. }
  assert (E2 : Body.integrateVelocity b t = Body.syncCollider b)
    by (apply integrateVelocity_resting; assumption).
  set (c := Body.syncCollider b).
  assert (E3 := gravity_step_resting p c t (idealDistance p b)
                  Hs Hg Hv Hf Hm HI Ipos He2 Hgd).
  cbv zeta in E3.
  unfold b'. rewrite E1, E2. fold c. rewrite E3.
  set (x := Body.set_forces _ _).
  assert (Hpres : preserved b b').
  { unfold b'. rewrite E1.
    eapply preserved_trans; [apply integrateVelocity_preserved |].
    eapply preserved_trans; [apply applyGravitationalForce_preserved |].
    eapply preserved_trans; [apply integrateForces_preserved |].
    apply handlePlanetSurfaceInteraction_preserved. }
  unfold b' in Hpres. rewrite E1, E2 in Hpres. fold c in Hpres.
  rewrite E3 in Hpres. fold x in Hpres.
  destruct Hpres as (Pim & Pst & Pm & Pg & Pr & _).
  assert (Ix : idealDistance p x = idealDistance p b) by reflexivity.
  assert (Hk : 0 <= Planet.gravityStrength p * t / idealDistance p b).
  { apply Rmult_le_pos; [lra |]. apply Rlt_le, Rinv_0_lt_compat. assumption. }
  destruct (surface_step_on_shell p x t
              (Planet.gravityStrength p * t / idealDistance p b))
    as (Sp & Sv & Sf & Sg & Sm); try (rewrite Ix); try assumption;
    try reflexivity.
  cbv zeta in *.
  unfold restsOnShell, idealDistance.
  rewrite Pst, Pg, Pr, Pm, Pim, Sp, Sv, Sf, Sg, Sm.
  repeat split; try assumption; try reflexivity.
Qed.

Lemma set_bodies_same (w : World.PhysicsWorld) :
  World.set_bodies w (World.bodies w) = w.
Proof. destruct w; reflexivity. Qed.

Lemma runSteps_resting (o : Body.Options) (steps : list R) :
  let p := Planet.newPlanetBody o in
  0 <= Planet.radius p ->
  forall (w : World.PhysicsWorld) (b : Body.PhysicsBody),
    0 <= opt_or (Body.radius b) (5 / 10) ->
    World.planetBody w = Some p ->
    World.bodies w = [b] ->
    Forall (fun s => Body.isPlanet s = true) (World.staticBodies w) ->
    restsOnShell p b ->
    Forall (fun t => 0 <= Planet.gravityStrength p * t <= Body.maxFallSpeed b)
           steps ->
    exists b',
      runSteps steps w = World.set_bodies w [b']
      /\ restsOnShell p b'
      /\ Body.position b' = Body.position b
      /\ Body.radius b' = Body.radius b
      /\ Body.maxFallSpeed b' = Body.maxFallSpeed b
      /\ (steps <> [] -> Body.onGround b' = true).
Proof.
  intros p Hr. unfold runSteps.
  induction steps as [| t rest IH]; intros w b Hq Hp Hb Hst Hrest Hsteps.
  - exists b. simpl. rewrite <- Hb, set_bodies_same.
    repeat (split; [first [assumption | reflexivity] |]).
    intros H. contradiction.
  - assert (Ht := Forall_inv Hsteps). assert (Hrest' := Forall_inv_tail Hsteps).
    cbv beta in Ht.
    destruct (newPlanetBody_shell o b Hr Hq) as (S1 & S2 & S3 & S4 & S5 & S6).
    fold p in S1, S2, S3, S4, S5, S6.
    destruct (resting_step p b t Hrest S1 S2 S3 S4 S5 S6 Ht)
      as (R1 & R2 & R3 & R4 & R5).
    simpl. rewrite (fixedUpdate_single_planet t w p b Hp Hb Hst).
    set (b1 := Planet.handlePlanetSurfaceInteraction p _ t) in *.
    destruct (IH (World.set_bodies w [b1]) b1)
      as (b' & B1 & B2 & B3 & B4 & B5 & B6).
    + rewrite R4. assumption.
    + assumption.
    + reflexivity.
    + assumption.
    + assumption.
    + rewrite R5. assumption.
    + exists b'. rewrite B1.
      split; [reflexivity |].
      split; [assumption |].
      split; [congruence |].
      split; [congruence |].
      split; [congruence |].
      intros _. destruct rest as [| t' rest'].
      * simpl in B1. injection B1 as B1. congruence.
      * apply B6. discriminate.
Qed.

Lemma update_resting (o : Body.Options) (deltaTime : R)
      (w : World.PhysicsWorld) (b : Body.PhysicsBody) :
  let p := Planet.newPlanetBody o in
  0 <= Planet.radius p ->
  0 <= Planet.gravityStrength p ->
  0 <= opt_or (Body.radius b) (5 / 10) ->
  World.planetBody w = Some p ->
  World.bodies w = [b] ->
  Forall (fun s => Body.isPlanet s = true) (World.staticBodies w) ->
  restsOnShell p b ->
  0 < World.fixedTimeStep w ->
  Planet.gravityStrength p * (World.accumulator w + Rmin deltaTime (1 / 10))
  <= Body.maxFallSpeed b ->
  exists b',
    World.update deltaTime w
    = World.set_accumulator (World.set_bodies w [b'])
                            (World.accumulator (World.update deltaTime w))
    /\ restsOnShell p b'
    /\ Body.position b' = Body.position b
    /\ Body.radius b' = Body.radius b
    /\ Body.maxFallSpeed b' = Body.maxFallSpeed b.
Proof.
  intros p Hr Hg Hq Hp Hb Hst Hrest Hf Hfall.
  destruct (runSteps_resting o (World.timeSteps deltaTime w) Hr w b
              Hq Hp Hb Hst Hrest) as (b' & B1 & B2 & B3 & B4 & B5 & _).
  { eapply Forall_impl; [| apply timeSteps_within; assumption].
    cbv beta. intros t Ht. fold p. split; [apply Rmult_le_pos; lra |].
    apply Rle_trans with (2 := Hfall). apply Rmult_le_compat_l; lra. }
  exists b'. rewrite <- B1.
  split; [apply update_runs_timeSteps | auto].
Qed.

(** X17: on a planet made by the constructor with a non-negative radius
    and gravity strength, a lone dynamic body at rest at the ideal distance
    (no velocity, no pending force) is kept there by any sequence of frames
    with non-negative deltas: after them it is still at rest at the same
    position, provided gravity over one fixed step plus the delta cap does
    not exceed the body's fall-speed limit. *)
Theorem resting_body_stays (o : Body.Options) (deltas : list R) :
  let p := Planet.newPlanetBody o in
  0 <= Planet.radius p ->
  0 <= Planet.gravityStrength p ->
  forall (w : World.PhysicsWorld) (b : Body.PhysicsBody),
    0 <= opt_or (Body.radius b) (5 / 10) ->
    World.planetBody w = Some p ->
    World.bodies w = [b] ->
    Forall (fun s => Body.isPlanet s = true) (World.staticBodies w) ->
    restsOnShell p b ->
    0 <= World.accumulator w < World.fixedTimeStep w ->
    Forall (fun d => 0 <= d) deltas ->
    Planet.gravityStrength p * (World.fixedTimeStep w + 1 / 10)
    <= Body.maxFallSpeed b ->
    exists b',
      World.bodies (runFrames deltas w) = [b']
      /\ restsOnShell p b'
      /\ Body.position b' = Body.position b.
Proof.
  intros p Hr Hg. unfold runFrames.
  induction deltas as [| d rest IH];
    intros w b Hq Hp Hb Hst Hrest Hacc Hd Hfall.
  - exists b. simpl. auto.
  - assert (Hd0 := Forall_inv Hd). assert (Hd' := Forall_inv_tail Hd).
    cbv beta in Hd0.
    assert (Hmin : 0 <= Rmin d (1 / 10) <= 1 / 10).
    { split; [apply Rmin_glb; lra | apply Rmin_r]. }
    destruct (update_resting o d w b Hr Hg Hq Hp Hb Hst Hrest)
      as (b1 & U1 & U2 & U3 & U4 & U5).
    { lra. }
    { fold p. apply Rle_trans with (2 := Hfall).
      apply Rmult_le_compat_l; lra. }
    destruct (update_accumulator_range d w) as (A1 & A2); [lra | lra |].
    simpl. rewrite U1.
    set (a := World.accumulator (World.update d w)) in *.
    destruct (IH (World.set_accumulator (World.set_bodies w [b1]) a) b1)
      as (b' & B1 & B2 & B3); try assumption; try reflexivity.
    + rewrite U4. assumption.
    + simpl. lra.
    + simpl. rewrite U5. assumption.
    + exists b'. split; [assumption | split; [assumption | congruence]].
Qed.

Lemma resting_body_stays_witness :
  let b := unitBody (vec3 0 (212 / 10) 0) Three.zero Three.zero Three.zero false in
  exists b',
    World.bodies (runFrames [1 / 60; 1 / 30] (planetWorld b)) = [b']
    /\ restsOnShell planet20 b'
    /\ Body.position b' = vec3 0 (212 / 10) 0.
Proof.
  intros b.
  assert (Hr : 0 <= Planet.radius planet20) by (simpl; lra).
  assert (Hg : 0 <= Planet.gravityStrength planet20) by (simpl; lra).
  assert (Hq : opt_or (Body.radius b) (5 / 10) = 1)
    by (simpl; apply num_or_nonzero; lra).
  apply (resting_body_stays noOptions [1 / 60; 1 / 30] Hr Hg (planetWorld b) b).
  - rewrite Hq. lra.
  - reflexivity.
  - reflexivity.
  - repeat constructor.
  - unfold restsOnShell, idealDistance. rewrite Hq. simpl.
    repeat split; try reflexivity; try lra.
    replace (Three.sub (vec3 0 (212 / 10) 0) Three.zero)
      with (vec3 0 (212 / 10) 0) by (apply vec3_eq; simpl; lra).
    rewrite length_y by lra. lra.
  - simpl. lra.
  - repeat constructor; lra.
  - simpl. lra.
Defined.

(** ** Planets in the static list *)

Lemma resolveWithInfo_class (a b : Body.PhysicsBody) (info : CollisionInfo) :
  Body.class (fst (World.resolveWithInfo a b info)) = Body.class a
  /\ Body.class (snd (World.resolveWithInfo a b info)) = Body.class b.
Proof. unfold World.resolveWithInfo. cbv zeta. split_ifs; split; reflexivity. Qed.

Lemma resolveFallback_class (a b : Body.PhysicsBody) :
  Body.class (fst (World.resolveFallback a b)) = Body.class a
  /\ Body.class (snd (World.resolveFallback a b)) = Body.class b.
Proof. unfold World.resolveFallback. cbv zeta. split_ifs; split; reflexivity. Qed.

Lemma resolveCollision_class (a b : Body.PhysicsBody) :
  Body.class (fst (World.resolveCollision a b)) = Body.class a
  /\ Body.class (snd (World.resolveCollision a b)) = Body.class b.
Proof.
  unfold World.resolveCollision.
  destruct (World.collisionInfoFor a b);
    [apply resolveWithInfo_class | apply resolveFallback_class].
Qed.

Lemma collidePair_isPlanet (a s : Body.PhysicsBody) :
  Body.isPlanet (snd (World.collidePair a s)) = Body.isPlanet s.
Proof.
  unfold World.collidePair, Body.isPlanet.
  destruct (World.checkCollision a s); [| reflexivity].
  destruct (resolveCollision_class a s) as [_ H]. rewrite H. reflexivity.
Qed.

Lemma collideWithStatics_filtered (ss : list Body.PhysicsBody) :
  forall a,
    fst (World.collideWithStatics a (filter notPlanet ss))
    = fst (World.collideWithStatics a ss)
    /\ snd (World.collideWithStatics a (filter notPlanet ss))
       = filter notPlanet (snd (World.collideWithStatics a ss))
    /\ filter Body.isPlanet (snd (World.collideWithStatics a ss))
       = filter Body.isPlanet ss.
Proof.
  induction ss as [| s rest IH]; intros a.
  - simpl. auto.
  - cbn [filter World.collideWithStatics].
    assert (Hn : notPlanet s = negb (Body.isPlanet s)) by reflexivity.
    destruct (Body.isPlanet s) eqn:Hs; rewrite Hn; cbn [negb].
    + destruct (IH a) as (I1 & I2 & I3).
      destruct (World.collideWithStatics a rest) as [a2 rest'].
      cbn [fst snd filter] in *.
      rewrite ?Hs. rewrite Hn. cbn [negb].
      rewrite I3. auto.
    + cbn [World.collideWithStatics]. rewrite Hs.
      pose proof (collidePair_isPlanet a s) as Hc.
      destruct (World.collidePair a s) as [a1 s1]. cbn [snd] in Hc.
      destruct (IH a1) as (I1 & I2 & I3).
      destruct (World.collideWithStatics a1 (filter notPlanet rest))
        as [a3 rest3].
      destruct (World.collideWithStatics a1 rest) as [a2 rest'].
      assert (Hn1 : notPlanet s1 = true)
        by (unfold notPlanet; rewrite Hc, Hs; reflexivity).
      cbn [fst snd filter] in *.
      rewrite Hn1, Hc, Hs. subst. auto.
Qed.

Lemma detectFrom_filtered (count : nat) :
  forall todo ss,
    fst (World.detectFrom count todo (filter notPlanet ss))
    = fst (World.detectFrom count todo ss)
    /\ snd (World.detectFrom count todo (filter notPlanet ss))
       = filter notPlanet (snd (World.detectFrom count todo ss))
    /\ filter Body.isPlanet (snd (World.detectFrom count todo ss))
       = filter Body.isPlanet ss.
Proof.
  induction count as [| k IH]; intros todo ss.
  - simpl. destruct todo; simpl; auto.
  - destruct todo as [| a later]; simpl; [auto |].
    destruct (World.collideWithLater a later) as [a1 later1].
    destruct (collideWithStatics_filtered ss a1) as (C1 & C2 & C3).
    destruct (World.collideWithStatics a1 (filter notPlanet ss)) as [a3 ss3].
    destruct (World.collideWithStatics a1 ss) as [a2 ss1].
    simpl in C1, C2, C3. subst a3 ss3.
    destruct (IH later1 ss1) as (I1 & I2 & I3).
    destruct (World.detectFrom k later1 (filter notPlanet ss1)) as [l3 s3].
    destruct (World.detectFrom k later1 ss1) as [later2 ss2].
    simpl in *. subst. split; [reflexivity | split; [reflexivity |]].
    congruence.
Qed.

(** X18: a sub-step reads the static list through its non-planet entries
    only: the dynamic bodies and the non-planet static bodies come out the
    same when every planet is taken out of the list beforehand, and the
    planets in the list come out as they went in.  A planet acts through the
    world's planet field alone. *)
Theorem static_planets_inert (t : R) (w : World.PhysicsWorld) :
  let w0 := World.set_staticBodies w (filter notPlanet (World.staticBodies w)) in
  World.bodies (World.fixedUpdate t w) = World.bodies (World.fixedUpdate t w0)
  /\ filter notPlanet (World.staticBodies (World.fixedUpdate t w))
     = World.staticBodies (World.fixedUpdate t w0)
  /\ filter Body.isPlanet (World.staticBodies (World.fixedUpdate t w))
     = filter Body.isPlanet (World.staticBodies w).
Proof.
  intros w0. unfold w0. rewrite !fixedUpdate_phases.
  set (bs := map (perBodyPhases w t) (World.bodies w)).
  assert (E0 : map (perBodyPhases
                      (World.set_staticBodies w
                         (filter notPlanet (World.staticBodies w))) t)
                   (World.bodies
                      (World.set_staticBodies w
                         (filter notPlanet (World.staticBodies w)))) = bs)
    by reflexivity.
  rewrite E0.
  unfold World.detectCollisions.
  cbn [World.bodies World.staticBodies World.set_bodies World.set_staticBodies].
  destruct (detectFrom_filtered (List.length bs) bs (World.staticBodies w))
    as (D1 & D2 & D3).
  destruct (World.detectFrom (List.length bs) bs
              (filter notPlanet (World.staticBodies w))) as [b3 s3].
  destruct (World.detectFrom (List.length bs) bs (World.staticBodies w))
    as [b2 s2].
  simpl in D1, D2, D3. subst b3 s3.
  unfold boundsPass.
  cbn [World.planetBody World.set_bodies World.set_staticBodies World.bodies
       World.staticBodies].
  destruct (World.planetBody w);
    cbn [World.planetBody World.set_bodies World.set_staticBodies World.bodies
         World.staticBodies];
    (split; [reflexivity | split; [reflexivity | assumption]]).
Qed.

(** ** Impulses *)

(** X19: [applyImpulse] leaves a static body as it is; on a dynamic body it
    adds impulse * invMass to the velocity and nothing else, so two impulses
    in a row act as their sum, and when invMass is the inverse of the mass
    the momentum changes by exactly the impulse. *)
Theorem impulses_add_up (b : Body.PhysicsBody) (i j : Vector3) :
  Body.applyImpulse (Body.applyImpulse b i) j
  = Body.applyImpulse b (Three.add i j)
  /\ (Body.isStatic b = true -> Body.applyImpulse b i = b)
  /\ (Body.isStatic b = false ->
      Body.applyImpulse b i
      = Body.set_velocity b
          (Three.add (Body.velocity b)
                     (Three.multiplyScalar i (Body.invMass b)))
      /\ (Body.mass b * Body.invMass b = 1 ->
          Three.multiplyScalar
            (Three.sub (Body.velocity (Body.applyImpulse b i)) (Body.velocity b))
            (Body.mass b) = i)).
Proof.
  unfold Body.applyImpulse.
  destruct (Body.isStatic b) eqn:Hs.
  - rewrite Hs. split; [reflexivity | split; [reflexivity | discriminate]].
  - cbn [Body.isStatic Body.set_velocity]. rewrite Hs.
    split; [| split; [discriminate | intros _; split; [reflexivity |]]].
    + unfold Body.set_velocity. simpl. f_equal. apply vec3_eq; simpl; ring.
    + intros Hm. simpl.
      apply vec3_eq; simpl.
      * replace ((vx (Body.velocity b) + vx i * Body.invMass b
                  - vx (Body.velocity b)) * Body.mass b)
          with (vx i * (Body.mass b * Body.invMass b)) by ring.
        rewrite Hm. ring.
      * replace ((vy (Body.velocity b) + vy i * Body.invMass b
                  - vy (Body.velocity b)) * Body.mass b)
          with (vy i * (Body.mass b * Body.invMass b)) by ring.
        rewrite Hm. ring.
      * replace ((vz (Body.velocity b) + vz i * Body.invMass b
                  - vz (Body.velocity b)) * Body.mass b)
          with (vz i * (Body.mass b * Body.invMass b)) by ring.
        rewrite Hm. ring.
Qed.

Lemma impulses_add_up_witness :
  let b := unitBody Three.zero (vec3 1 0 0) Three.zero Three.zero false in
  Three.multiplyScalar
    (Three.sub (Body.velocity (Body.applyImpulse b (vec3 0 2 0)))
               (Body.velocity b))
    (Body.mass b) = vec3 0 2 0.
Proof.
  intros b.
  destruct (impulses_add_up b (vec3 0 2 0) Three.zero) as (_ & _ & H).
  destruct (H eq_refl) as (_ & H1).
  apply H1. simpl. lra.
Defined.

(** ** [addBody] and [removeBody] on the lists of objects *)

Lemma indexOf_first (r : WorldBodies.Ref) (pre post : list WorldBodies.Ref) :
  ~ In r pre ->
  WorldBodies.indexOf r (pre ++ r :: post) = Some (List.length pre).
Proof.
  induction pre as [| x rest IH]; intros Hn; simpl.
  - rewrite Nat.eqb_refl. reflexivity.
  - destruct (Nat.eqb_spec x r) as [E | E].
    + exfalso. apply Hn. left. exact E.
    + rewrite IH; [reflexivity |]. intros H. apply Hn. right. exact H.
Qed.

Lemma indexOf_absent (r : WorldBodies.Ref) (l : list WorldBodies.Ref) :
  ~ In r l -> WorldBodies.indexOf r l = None.
Proof.
  induction l as [| x rest IH]; intros Hn; simpl.
  - reflexivity.
  - destruct (Nat.eqb_spec x r) as [E | E].
    + exfalso. apply Hn. left. exact E.
    + rewrite IH; [reflexivity |]. intros H. apply Hn. right. exact H.
Qed.

(** A list that holds [r] splits at the first place that holds it. *)
Lemma first_occurrence (r : WorldBodies.Ref) (l : list WorldBodies.Ref) :
  In r l -> exists pre post, l = pre ++ r :: post /\ ~ In r pre.
Proof.
  induction l as [| x rest IH]; intros H.
  - contradiction.
  - destruct (Nat.eq_dec x r) as [E | E].
    + exists [], rest. subst x. split; [reflexivity | intros F; exact F].
    + destruct H as [H | H]; [contradiction |].
      destruct (IH H) as (pre & post & Hl & Hn).
      exists (x :: pre), post. split; [rewrite Hl; reflexivity |].
      intros [F | F]; [contradiction | exact (Hn F)].
Qed.

Lemma splice1_middle (pre post : list WorldBodies.Ref) (x : WorldBodies.Ref) :
  WorldBodies.splice1 (List.length pre) (pre ++ x :: post) = pre ++ post.
Proof. induction pre as [| y rest IH]; simpl; [reflexivity | f_equal; exact IH]. Qed.

Lemma statesOf_app (heap : WorldBodies.Ref -> option Body.PhysicsBody)
      (l1 l2 : list WorldBodies.Ref) :
  WorldBodies.statesOf heap (l1 ++ l2)
  = WorldBodies.statesOf heap l1 ++ WorldBodies.statesOf heap l2.
Proof.
  induction l1 as [| x rest IH]; simpl; [reflexivity |].
  destruct (heap x); simpl; rewrite IH; reflexivity.
Qed.

(** [removeBody] on a registered body: its first occurrence goes. *)
Lemma removeBody_first (heap : WorldBodies.Ref -> option Body.PhysicsBody)
      (w : WorldBodies.Lists) (r : WorldBodies.Ref) (pre post : list WorldBodies.Ref) :
  listOf heap r w = pre ++ r :: post -> ~ In r pre ->
  listOf heap r (WorldBodies.removeBody heap (Some r) w) = pre ++ post
  /\ otherListOf heap r (WorldBodies.removeBody heap (Some r) w)
     = otherListOf heap r w.
Proof.
  unfold listOf, otherListOf, WorldBodies.removeBody.
  destruct (WorldBodies.isStaticOf heap r); intros Hl Hn;
    rewrite Hl, indexOf_first by assumption; simpl;
    rewrite splice1_middle; split; reflexivity.
Qed.

Lemma removeBody_absent (heap : WorldBodies.Ref -> option Body.PhysicsBody)
      (w : WorldBodies.Lists) (r : WorldBodies.Ref) :
  ~ In r (listOf heap r w) -> WorldBodies.removeBody heap (Some r) w = w.
Proof.
  unfold listOf, WorldBodies.removeBody.
  destruct (WorldBodies.isStaticOf heap r); intros Hn;
    rewrite indexOf_absent by assumption; reflexivity.
Qed.

Lemma addBody_lists (heap : WorldBodies.Ref -> option Body.PhysicsBody)
      (w : WorldBodies.Lists) (r : WorldBodies.Ref) (b : Body.PhysicsBody) :
  heap r = Some b ->
  listOf heap r (WorldBodies.addBody heap w r) = listOf heap r w ++ [r]
  /\ otherListOf heap r (WorldBodies.addBody heap w r) = otherListOf heap r w.
Proof.
  intros Hb. unfold listOf, otherListOf, WorldBodies.addBody, WorldBodies.isStaticOf.
  rewrite Hb. destruct (Body.isStatic b); split; reflexivity.
Qed.

Lemma lists_eq (heap : WorldBodies.Ref -> option Body.PhysicsBody)
      (r : WorldBodies.Ref) (w w' : WorldBodies.Lists) :
  listOf heap r w' = listOf heap r w ->
  otherListOf heap r w' = otherListOf heap r w -> w' = w.
Proof.
  unfold listOf, otherListOf. destruct w, w'. simpl.
  destruct (WorldBodies.isStaticOf heap r); intros -> ->; reflexivity.
Qed.

(** X20: [removeBody] looks the body up by reference in the list its
    static flag selects and takes out its first occurrence only: a body
    that is not in that list changes nothing, the other list is never
    touched, and no argument changes nothing.  So removing a body right
    after [addBody] gives the lists back when the body was not registered
    before, while a body that was already registered (added twice) is
    still registered after one [removeBody].  [addBody] ignores an object
    that is not a [PhysicsBody], and on the bodies' states it is the
    [addBody] of module [World]. *)
Theorem removeBody_undoes_addBody
        (heap : WorldBodies.Ref -> option Body.PhysicsBody)
        (w : WorldBodies.Lists) (r : WorldBodies.Ref) :
  let w' := WorldBodies.removeBody heap (Some r) w in
  (~ In r (listOf heap r w) -> w' = w)
  /\ (forall pre post,
         listOf heap r w = pre ++ r :: post -> ~ In r pre ->
         listOf heap r w' = pre ++ post)
  /\ otherListOf heap r w' = otherListOf heap r w
  /\ (forall b, heap r = Some b ->
        let added := WorldBodies.addBody heap w r in
        (~ In r (listOf heap r w) ->
         WorldBodies.removeBody heap (Some r) added = w)
        /\ (In r (listOf heap r w) ->
            In r (listOf heap r (WorldBodies.removeBody heap (Some r) added)))
        /\ (forall base,
               WorldBodies.states heap added base
               = World.addBody (WorldBodies.states heap w base) b))
  /\ (heap r = None -> WorldBodies.addBody heap w r = w)
  /\ WorldBodies.removeBody heap None w = w.
Proof.
  intros w'. unfold w'.
  split; [apply removeBody_absent |].
  split; [intros pre post Hl Hn; apply (removeBody_first heap w r pre post Hl Hn) |].
  split.
  { destruct (in_dec Nat.eq_dec r (listOf heap r w)) as [Hin | Hout].
    - destruct (first_occurrence r _ Hin) as (pre & post & Hl & Hn).
      apply (removeBody_first heap w r pre post Hl Hn).
    - rewrite removeBody_absent by assumption. reflexivity. }
  split; [| split; [| reflexivity]].
  - intros b Hb. set (added := WorldBodies.addBody heap w r).
    destruct (addBody_lists heap w r b Hb) as [A1 A2]. fold added in A1, A2.
    split; [| split].
    + intros Hout.
      assert (Hl : listOf heap r added = listOf heap r w ++ r :: [])
        by exact A1.
      destruct (removeBody_first heap added r _ _ Hl Hout) as [R1 R2].
      apply (lists_eq heap r).
      * rewrite R1. apply app_nil_r.
      * rewrite R2. exact A2.
    + intros Hin.
      destruct (first_occurrence r _ Hin) as (pre & post & Hl & Hn).
      assert (Hl' : listOf heap r added = pre ++ r :: (post ++ [r])).
      { rewrite A1, Hl, <- app_assoc. reflexivity. }
      destruct (removeBody_first heap added r _ _ Hl' Hn) as [R1 _].
      rewrite R1. apply in_or_app. right. apply in_or_app. right. left.
      reflexivity.
    + intros base. unfold added, WorldBodies.states, WorldBodies.addBody,
        World.addBody. rewrite Hb.
      destruct (Body.isStatic b) eqn:Hs; simpl; rewrite ?Hs;
        rewrite statesOf_app; simpl; rewrite Hb; reflexivity.
  - intros Hb. unfold WorldBodies.addBody. rewrite Hb. reflexivity.
Qed.

(** A body registered twice (reference 7, after two other bodies) and
    removed once is still registered. *)
Lemma removeBody_undoes_addBody_witness :
  let heap := fun _ : WorldBodies.Ref =>
                Some (unitBody Three.zero Three.zero Three.zero Three.zero false) in
  let w := WorldBodies.mkLists [1; 2; 7]%nat [] in
  In 7%nat
     (listOf heap 7%nat
        (WorldBodies.removeBody heap (Some 7%nat) (WorldBodies.addBody heap w 7%nat)))
  /\ WorldBodies.removeBody heap (Some 5%nat) (WorldBodies.addBody heap w 5%nat) = w.
Proof.
  intros heap w.
  destruct (removeBody_undoes_addBody heap w 7%nat) as (_ & _ & _ & H7 & _).
  destruct (removeBody_undoes_addBody heap w 5%nat) as (_ & _ & _ & H5 & _).
  destruct (H7 _ eq_refl) as (_ & Hin & _).
  destruct (H5 _ eq_refl) as (Hout & _).
  split.
  - apply Hin. simpl. auto.
  - apply Hout. simpl. intros [H | [H | [H | H]]]; try discriminate H; exact H.
Defined.

(** * The systems around the physics core *)

(** ** The clock and the frame's time step *)

Lemma update_started (s : R) (t : TimeM.Time) :
  TimeM.lastTime t <> 0 ->
  TimeM.update s t
  = (let d := s / 1000 - TimeM.lastTime t in
     let d1 := if ltb (TimeM.maxDeltaTime t) d then TimeM.maxDeltaTime t else d in
     (TimeM.mkTime d1 (s / 1000) (TimeM.elapsedTime t + d1)
                   (S (TimeM.frameCount t)) (TimeM.maxDeltaTime t), d1)).
Proof.
  intros H. unfold TimeM.update. rewrite eqb_neq by assumption. reflexivity.
Qed.

(** X21: a started clock (last time positive, non-negative delta cap) fed
    timestamps that never go back returns, frame by frame, deltas between 0
    and the cap; the elapsed time grows by their sum and the frame count by
    the number of frames; the elapsed time never grows by more than the wall
    time that passed, and by exactly that much when no delta reached the
    cap. *)
Theorem clock_never_ahead (stamps : list R) :
  forall t : TimeM.Time,
    0 < TimeM.lastTime t ->
    0 <= TimeM.maxDeltaTime t ->
    nondecreasingFrom (TimeM.lastTime t * 1000) stamps ->
    let t' := fst (runClock stamps t) in
    let deltas := snd (runClock stamps t) in
    Forall (fun d => 0 <= d <= TimeM.maxDeltaTime t) deltas
    /\ List.length deltas = List.length stamps
    /\ TimeM.elapsedTime t' = TimeM.elapsedTime t + simulatedTime deltas
    /\ TimeM.frameCount t' = (TimeM.frameCount t + List.length stamps)%nat
    /\ simulatedTime deltas <= TimeM.lastTime t' - TimeM.lastTime t
    /\ (Forall (fun d => d < TimeM.maxDeltaTime t) deltas ->
        simulatedTime deltas = TimeM.lastTime t' - TimeM.lastTime t).
Proof.
  induction stamps as [| s rest IH]; intros t Hl Hm Hnd; simpl.
  - repeat split; try constructor; unfold simulatedTime; simpl; try lra; lia.
  - destruct Hnd as [Hs Hnd].
    rewrite update_started by lra. cbv zeta.
    set (d := s / 1000 - TimeM.lastTime t).
    set (d1 := if ltb (TimeM.maxDeltaTime t) d then TimeM.maxDeltaTime t else d).
    set (t1 := TimeM.mkTime d1 (s / 1000) (TimeM.elapsedTime t + d1)
                            (S (TimeM.frameCount t)) (TimeM.maxDeltaTime t)).
    assert (Hd : 0 <= d) by (unfold d; lra).
    assert (Hd1 : 0 <= d1 <= TimeM.maxDeltaTime t /\ d1 <= d
                  /\ (d1 < TimeM.maxDeltaTime t -> d1 = d)).
    { unfold d1. destruct (Rlt_dec (TimeM.maxDeltaTime t) d) as [E | E].
      - rewrite ltb_lt by assumption. repeat split; lra.
      - rewrite ltb_ge by lra. repeat split; lra. }
    destruct (IH t1) as (I1 & I2 & I3 & I4 & I5 & I6).
    { simpl. lra. }
    { assumption. }
    { simpl. replace (s / 1000 * 1000) with s by field. assumption. }
    destruct (runClock rest t1) as [t2 ds]. simpl in *.
    unfold simulatedTime in *. simpl.
    split; [constructor; [lra | assumption] |].
    split; [lia |].
    split; [lra |].
    split; [lia |].
    split; [unfold d in Hd1; lra |].
    intros HF. assert (Hh := Forall_inv HF). assert (Ht := Forall_inv_tail HF).
    specialize (I6 Ht). destruct Hd1 as (_ & _ & Heq). specialize (Heq Hh).
    unfold d in Heq. lra.
Qed.

Lemma clock_never_ahead_witness :
  let t := TimeM.reset 1000 TimeM.newTime in
  simulatedTime (snd (runClock [1016; 1516] t))
  <= TimeM.lastTime (fst (runClock [1016; 1516] t)) - TimeM.lastTime t.
Proof.
  intros t.
  destruct (clock_never_ahead [1016; 1516] t) as (_ & _ & _ & _ & H & _).
  - simpl. lra.
  - simpl. lra.
  - simpl. lra.
  - exact H.
Defined.

Lemma Forall_repeat {A : Type} (P : A -> Prop) (x : A) (k : nat) :
  P x -> Forall P (repeat x k).
Proof. intros H. induction k; simpl; constructor; assumption. Qed.

(** X22: the time step the game loop hands to the physics world is at most
    1/30, so the world's own cap of 0.1 never changes it, and on a started
    clock whose cap is at least 1/30 the clock's cap does not show in it
    either.  With a positive fixed time step and an accumulator below it,
    every sub-step such a frame runs has a positive time step of at most the
    larger of the fixed step and 1/30 - (maxSubSteps - 1) * fixed step. *)
Theorem frame_steps_bounded (timestamp : R) (t : TimeM.Time)
        (w : World.PhysicsWorld) :
  let d := snd (Engine.frameDelta timestamp t) in
  let fts := World.fixedTimeStep w in
  let n := World.maxSubSteps w in
  d <= 1 / 30
  /\ Rmin d (1 / 10) = d
  /\ (TimeM.lastTime t <> 0 -> 1 / 30 <= TimeM.maxDeltaTime t ->
      d = Rmin (timestamp / 1000 - TimeM.lastTime t) (1 / 30))
  /\ (0 < fts -> World.accumulator w < fts ->
      Forall (fun s => 0 < s <= Rmax fts (1 / 30 - (INR n - 1) * fts))
             (World.timeSteps d w)).
Proof.
  intros d fts n.
  assert (Hd : d <= 1 / 30).
  { unfold d, Engine.frameDelta. destruct (TimeM.update timestamp t). simpl.
    apply Rmin_r. }
  split; [assumption |].
  split; [apply Rmin_left; lra |].
  split.
  - intros Hl Hm. unfold d, Engine.frameDelta.
    rewrite update_started by assumption. cbv zeta. simpl.
    destruct (Rlt_dec (TimeM.maxDeltaTime t) (timestamp / 1000 - TimeM.lastTime t))
      as [E | E].
    + rewrite ltb_lt by assumption.
      rewrite Rmin_right by assumption. rewrite Rmin_right by lra. reflexivity.
    + rewrite ltb_ge by lra. reflexivity.
  - intros Hf Hacc.
    destruct (update_accumulator_and_steps d w) as (k & Hk & Hcases).
    cbv zeta in Hcases. fold fts n in Hcases.
    rewrite (Rmin_left d (1 / 10)) in Hcases by lra.
    destruct Hcases as [(Hs & _) | (_ & Hpos & Hs & _)]; rewrite Hs.
    + apply Forall_repeat. split; [assumption | apply Rmax_l].
    + apply Forall_app. split.
      * apply Forall_repeat. split; [assumption | apply Rmax_l].
      * constructor; [| constructor]. split; [assumption |].
        apply Rle_trans with (2 := Rmax_r _ _). lra.
Qed.

Lemma frame_steps_bounded_witness :
  let w := World.newPhysicsWorld (-20) 120 in
  Forall (fun s => 0 < s <= Rmax (World.fixedTimeStep w)
                                 (1 / 30 - (INR (World.maxSubSteps w) - 1)
                                           * World.fixedTimeStep w))
         (World.timeSteps
            (snd (Engine.frameDelta 1050 (TimeM.reset 1000 TimeM.newTime))) w).
Proof.
  intros w.
  destruct (frame_steps_bounded 1050 (TimeM.reset 1000 TimeM.newTime) w)
    as (_ & _ & _ & H).
  apply H; simpl; lra.
Defined.

(** ** Movement: braking and the speed cap *)

Lemma length_multiplyScalar (v : Vector3) (k : R) :
  0 <= k -> Three.length (Three.multiplyScalar v k) = k * Three.length v.
Proof.
  intros Hk. unfold Three.length. rewrite lengthSq_multiplyScalar.
  rewrite sqrt_mult; [| nra | apply lengthSq_nonneg].
  rewrite sqrt_square by assumption. reflexivity.
Qed.

Lemma dot_add_l (v w u : Vector3) :
  Three.dot (Three.add v w) u = Three.dot v u + Three.dot w u.
Proof. unfold Three.dot, Three.add. simpl. ring. Qed.

(** Removing the component along a unit normal leaves a tangential vector. *)
Lemma project_tangent (v n : Vector3) :
  Three.lengthSq n = 1 ->
  Three.dot (Movement.projectVectorToPlane v n) n = 0.
Proof.
  intros Hn. unfold Movement.projectVectorToPlane. cbv zeta.
  rewrite dot_sub_l, dot_multiplyScalar_l.
  change (Three.dot n n) with (Three.lengthSq n). rewrite Hn. ring.
Qed.

Lemma project_of_sum (t n : Vector3) (c : R) :
  Three.lengthSq n = 1 -> Three.dot t n = 0 ->
  Movement.projectVectorToPlane (Three.add t (Three.multiplyScalar n c)) n = t.
Proof.
  intros Hn Ht. unfold Movement.projectVectorToPlane. cbv zeta.
  rewrite dot_add_l, dot_multiplyScalar_l, Ht.
  change (Three.dot n n) with (Three.lengthSq n). rewrite Hn.
  apply vec3_eq; simpl; ring.
Qed.

Lemma project_shorter (v n : Vector3) :
  Three.lengthSq n = 1 ->
  Three.length (Movement.projectVectorToPlane v n) <= Three.length v.
Proof.
  intros Hn. unfold Three.length. apply sqrt_le_1_alt.
  assert (E : Three.lengthSq (Movement.projectVectorToPlane v n)
              = Three.lengthSq v - Three.dot v n * Three.dot v n).
  { unfold Three.lengthSq at 1.
    unfold Movement.projectVectorToPlane at 1. cbv zeta.
    rewrite dot_sub_l, dot_multiplyScalar_l.
    replace (Three.dot n (Movement.projectVectorToPlane v n))
      with (Three.dot (Movement.projectVectorToPlane v n) n)
      by (unfold Three.dot; ring).
    rewrite project_tangent by assumption.
    unfold Movement.projectVectorToPlane. cbv zeta.
    replace (Three.dot v (Three.sub v (Three.multiplyScalar n (Three.dot v n))))
      with (Three.lengthSq v - Three.dot v n * Three.dot v n)
      by (unfold Three.lengthSq, Three.dot, Three.sub, Three.multiplyScalar;
          simpl; ring).
    ring. }
  rewrite E. nra.
Qed.

Lemma validNormal_unit (n : Vector3) :
  Three.lengthSq n = 1 -> Movement.validNormal n = true.
Proof. intros H. unfold Movement.validNormal. rewrite H. apply ltb_lt. lra. Qed.

Lemma steered_planet (p : Movement.Mover) :
  Movement.hasPlanet p = true ->
  Three.lengthSq (Movement.surfaceNormal p) = 1 ->
  Movement.steered p
  = Movement.projectVectorToPlane (Movement.velocity p) (Movement.surfaceNormal p).
Proof.
  intros Hp Hn. unfold Movement.steered. cbv zeta.
  rewrite Hp, validNormal_unit by assumption. reflexivity.
Qed.

Lemma steered_flat (p : Movement.Mover) :
  Movement.hasPlanet p = false ->
  Movement.steered p
  = vec3 (vx (Movement.velocity p)) 0 (vz (Movement.velocity p)).
Proof. intros Hp. unfold Movement.steered. cbv zeta. rewrite Hp. reflexivity. Qed.

(** The steered component of a velocity put together from a tangential
    part and the old velocity's remaining part. *)
Lemma steered_recombined (p : Movement.Mover) (t : Vector3) :
  (Movement.hasPlanet p = true ->
   Three.lengthSq (Movement.surfaceNormal p) = 1
   /\ Three.dot t (Movement.surfaceNormal p) = 0) ->
  (Movement.hasPlanet p = false -> vy t = 0) ->
  let v := Movement.velocity p in
  let n := Movement.surfaceNormal p in
  let v' := if Movement.hasPlanet p
            then Three.add t (Three.multiplyScalar n (Three.dot v n))
            else vec3 (vx t) (vy v) (vz t) in
  Movement.steered (Movement.set_velocity p v') = t
  /\ Three.sub v' t = Three.sub v (Movement.steered p).
Proof.
  intros Hpl Hfl v n v'. unfold v'.
  destruct (Movement.hasPlanet p) eqn:Hp.
  - destruct (Hpl eq_refl) as [Hn Ht].
    rewrite steered_planet by assumption.
    rewrite (steered_planet p) by assumption.
    cbn [Movement.velocity Movement.surfaceNormal Movement.set_velocity].
    fold v n. rewrite project_of_sum by assumption.
    split; [reflexivity |].
    unfold Movement.projectVectorToPlane. apply vec3_eq; simpl; ring.
  - specialize (Hfl eq_refl).
    rewrite steered_flat by assumption.
    rewrite (steered_flat p) by assumption.
    cbn [Movement.velocity Movement.set_velocity vx vy vz]. fold v.
    split; apply vec3_eq; simpl; try rewrite Hfl; ring.
Qed.

(** X23: with a non-negative stop acceleration and time step, in a flat
    world or on a planet with a unit surface normal, [applyStopForce] scales
    the steered velocity component (horizontal, or tangential) by a factor k
    between 0 and 1 and leaves the rest of the velocity (vertical, or
    normal) and every other field as they were: k is 0 below speed 0.1 and
    otherwise 1 - min(speed, stopAccel * dt) / speed, with a fifth of the
    stop acceleration off the ground.  It never reverses or speeds up the
    motion. *)
Theorem stop_force_brakes (m : Movement.Movement) (p : Movement.Mover)
        (deltaTime : R) :
  0 <= Movement.stopAcceleration m ->
  0 <= deltaTime ->
  (Movement.hasPlanet p = true ->
   Three.lengthSq (Movement.surfaceNormal p) = 1) ->
  let p' := Movement.applyStopForce m p deltaTime in
  let speed := Three.length (Movement.steered p) in
  let stopAccel := if Movement.onGround p then Movement.stopAcceleration m
                   else Movement.stopAcceleration m * (2 / 10) in
  let k := if ltb speed (1 / 10) then 0
           else 1 - Rmin speed (stopAccel * deltaTime) / speed in
  0 <= k <= 1
  /\ Movement.steered p' = Three.multiplyScalar (Movement.steered p) k
  /\ Three.sub (Movement.velocity p') (Movement.steered p')
     = Three.sub (Movement.velocity p) (Movement.steered p)
  /\ Three.length (Movement.steered p') = k * speed
  /\ p' = Movement.set_velocity p (Movement.velocity p').
Proof.
  intros Ha Hdt Hn p' speed stopAccel k.
  assert (Hsa : 0 <= stopAccel * deltaTime).
  { unfold stopAccel. destruct (Movement.onGround p); nra. }
  assert (Hsp : 0 <= speed) by apply length_nonneg.
  assert (Hk : 0 <= k <= 1).
  { unfold k. destruct (Rlt_dec speed (1 / 10)) as [E | E].
    - rewrite ltb_lt by assumption. lra.
    - rewrite ltb_ge by lra.
      assert (Hs : 0 < speed) by lra.
      assert (Hq : 0 <= Rmin speed (stopAccel * deltaTime) / speed <= 1).
      { split.
        - apply Rmult_le_pos; [apply Rmin_glb; lra |].
          apply Rlt_le, Rinv_0_lt_compat. assumption.
        - apply Rmult_le_reg_r with speed; [assumption |].
          replace (Rmin speed (stopAccel * deltaTime) / speed * speed)
            with (Rmin speed (stopAccel * deltaTime)) by (field; lra).
          rewrite Rmult_1_l. apply Rmin_l. }
      lra. }
  (* the velocity written, in one shape for both worlds *)
  set (t := Three.multiplyScalar (Movement.steered p) k).
  assert (Ev : p' = Movement.set_velocity p
                 (if Movement.hasPlanet p
                  then Three.add t (Three.multiplyScalar (Movement.surfaceNormal p)
                                      (Three.dot (Movement.velocity p)
                                                 (Movement.surfaceNormal p)))
                  else vec3 (vx t) (vy (Movement.velocity p)) (vz t))).
  { unfold p', Movement.applyStopForce. cbv zeta. fold speed. unfold t, k.
    destruct (Rlt_dec speed (1 / 10)) as [E | E].
    - rewrite !(ltb_lt speed (1 / 10)) by assumption.
      destruct (Movement.hasPlanet p) eqn:Hp.
      + rewrite validNormal_unit by auto. f_equal.
        apply vec3_eq; simpl; ring.
      + f_equal. apply vec3_eq; simpl; ring.
    - rewrite !(ltb_ge speed (1 / 10)) by lra.
      assert (Hs : speed <> 0) by lra.
      unfold Three.normalize. fold speed. rewrite num_or_nonzero by assumption.
      fold stopAccel.
      destruct (Movement.hasPlanet p) eqn:Hp.
      + rewrite validNormal_unit by auto. f_equal.
        apply vec3_eq; simpl; field; assumption.
      + f_equal. rewrite steered_flat by assumption.
        apply vec3_eq; simpl; field; assumption. }
  assert (Ht : Movement.hasPlanet p = true ->
               Three.lengthSq (Movement.surfaceNormal p) = 1
               /\ Three.dot t (Movement.surfaceNormal p) = 0).
  { intros Hp. split; [auto |]. unfold t.
    rewrite dot_multiplyScalar_l, steered_planet, project_tangent by auto.
    ring. }
  assert (Hf : Movement.hasPlanet p = false -> vy t = 0).
  { intros Hp. unfold t. rewrite steered_flat by assumption. simpl. ring. }
  destruct (steered_recombined p t Ht Hf) as [S1 S2]. cbv zeta in S1, S2.
  split; [assumption |].
  rewrite Ev. rewrite S1.
  cbn [Movement.velocity Movement.set_velocity].
  split; [reflexivity |]. split; [assumption |].
  split; [| reflexivity].
  unfold t. rewrite length_multiplyScalar by lra. reflexivity.
Qed.

Lemma stop_force_brakes_witness :
  let p := Movement.mkMover false (vec3 0 1 0) true false O (vec3 3 (-2) 4) in
  Three.length (Movement.steered
                  (Movement.applyStopForce Movement.newMovement p (1 / 100)))
  = (1 - Rmin (Three.length (Movement.steered p)) (200 * (1 / 100))
         / Three.length (Movement.steered p))
    * Three.length (Movement.steered p).
Proof.
  intros p.
  assert (Hl : Three.length (Movement.steered p) = 5).
  { unfold p. rewrite steered_flat by reflexivity. simpl.
    unfold Three.length, Three.lengthSq, Three.dot. simpl.
    replace (3 * 3 + 0 * 0 + 4 * 4) with (5 * 5) by ring.
    apply sqrt_square. lra. }
  destruct (stop_force_brakes Movement.newMovement p (1 / 100))
    as (_ & _ & _ & H & _).
  - simpl. lra.
  - lra.
  - intros H. discriminate H.
  - cbv zeta in H. rewrite H. rewrite Hl.
    rewrite (ltb_ge 5 (1 / 10)) by lra. reflexivity.
Defined.

Lemma speed_limit (u : Vector3) (cap : R) :
  0 <= cap ->
  Three.length (if ltb cap (Three.length u)
                then Three.multiplyScalar u (cap / Three.length u) else u)
  <= cap.
Proof.
  intros Hc. destruct (Rlt_dec cap (Three.length u)) as [E | E].
  - rewrite ltb_lt by assumption.
    assert (Hq : 0 <= cap / Three.length u).
    { apply Rmult_le_pos; [assumption |].
      apply Rlt_le, Rinv_0_lt_compat. lra. }
    rewrite length_multiplyScalar by assumption.
    replace (cap / Three.length u * Three.length u) with cap by (field; lra).
    lra.
  - rewrite ltb_ge by lra. lra.
Qed.

Lemma flat_shorter (u : Vector3) :
  Three.length (vec3 (vx u) 0 (vz u)) <= Three.length u.
Proof.
  unfold Three.length. apply sqrt_le_1_alt.
  unfold Three.lengthSq, Three.dot. simpl. nra.
Qed.

Lemma project_normal_part (u n : Vector3) (c : R) :
  Three.lengthSq n = 1 ->
  Movement.projectVectorToPlane (Three.add u (Three.multiplyScalar n c)) n
  = Movement.projectVectorToPlane u n.
Proof.
  intros Hn. unfold Movement.projectVectorToPlane. cbv zeta.
  rewrite dot_add_l, dot_multiplyScalar_l.
  change (Three.dot n n) with (Three.lengthSq n). rewrite Hn.
  apply vec3_eq; simpl; ring.
Qed.

(** X24: with a non-negative speed limit, in a flat world or on a planet
    with a unit surface normal, and no jump boost pending,
    [applyAccelerationWithMomentum] leaves the steered velocity component no
    longer than [maxSpeed]; in a flat world the vertical velocity is kept,
    and on a planet the normal component is kept when the target velocity is
    tangential; no other field changes. *)
Theorem acceleration_speed_capped (m : Movement.Movement) (p : Movement.Mover)
        (deltaTime : R) :
  0 <= Movement.maxSpeed m ->
  (Movement.hasPlanet p = true ->
   Three.lengthSq (Movement.surfaceNormal p) = 1) ->
  Movement.isJumping p && Nat.eqb (Movement.jumpCount p) 1 = false ->
  let p' := Movement.applyAccelerationWithMomentum m p deltaTime in
  let n := Movement.surfaceNormal p in
  Three.length (Movement.steered p') <= Movement.maxSpeed m
  /\ (Movement.hasPlanet p = false ->
      vy (Movement.velocity p') = vy (Movement.velocity p))
  /\ (Movement.hasPlanet p = true ->
      Three.dot (Movement.targetVelocity m) n = 0 ->
      Three.dot (Movement.velocity p') n = Three.dot (Movement.velocity p) n)
  /\ p' = Movement.set_velocity p (Movement.velocity p').
Proof.
  intros Hc Hn Hj p' n.
  unfold p', Movement.applyAccelerationWithMomentum. cbv zeta. rewrite Hj.
  set (cur := Movement.steered p).
  set (new0 := if Movement.hasChangedDirection m && ltb 2 (Three.length cur)
               then _ else _).
  assert (Hcap := speed_limit new0 (Movement.maxSpeed m) Hc).
  set (new := if ltb (Movement.maxSpeed m) (Three.length new0)
              then Three.multiplyScalar new0 (Movement.maxSpeed m / Three.length new0)
              else new0) in *.
  destruct (Movement.hasPlanet p) eqn:Hp.
  - specialize (Hn eq_refl). rewrite validNormal_unit by assumption.
    split; [| split; [discriminate | split; [| reflexivity]]].
    + unfold Movement.steered. cbv zeta.
      cbn [Movement.hasPlanet Movement.set_velocity Movement.surfaceNormal
           Movement.velocity].
      rewrite Hp, validNormal_unit by assumption.
      change (Three.sub ?v (Three.multiplyScalar ?k (Three.dot ?v ?k)))
        with (Movement.projectVectorToPlane v k).
      rewrite project_normal_part by assumption.
      apply Rle_trans with (2 := Hcap). apply project_shorter. assumption.
    + intros _ Ht.
      cbn [Movement.set_velocity Movement.velocity]. fold n.
      rewrite dot_add_l, dot_multiplyScalar_l.
      change (Three.dot n n) with (Three.lengthSq n). unfold n at 3. rewrite Hn.
      assert (Hcur : Three.dot cur n = 0).
      { unfold cur. rewrite steered_planet by assumption.
        apply project_tangent. assumption. }
      assert (H0 : Three.dot new0 n = 0).
      { unfold new0.
        destruct (Movement.hasChangedDirection m && ltb 2 (Three.length cur)).
        - rewrite dot_add_l, !dot_multiplyScalar_l, Hcur, Ht. ring.
        - rewrite dot_add_l, dot_multiplyScalar_l.
          unfold Three.subVectors. rewrite dot_sub_l, Hcur, Ht. ring. }
      assert (H1 : Three.dot new n = 0).
      { unfold new.
        destruct (ltb (Movement.maxSpeed m) (Three.length new0)); [| assumption].
        rewrite dot_multiplyScalar_l, H0. ring. }
      rewrite H1. ring.
  - split; [| split; [reflexivity | split; [discriminate | reflexivity]]].
    rewrite steered_flat by assumption.
    cbn [Movement.set_velocity Movement.velocity vx vy vz].
    apply Rle_trans with (2 := Hcap). apply flat_shorter.
Qed.

Lemma acceleration_speed_capped_witness :
  let m := Movement.mkMovement 6 10 12 150 20 200 (5 / 10) 3 (2 / 10) (9 / 10)
                               (vec3 1 0 0) (vec3 10 0 0) false in
  let p := Movement.mkMover false (vec3 0 1 0) true false O (vec3 30 (-2) 40) in
  Three.length (Movement.steered
                  (Movement.applyAccelerationWithMomentum m p (1 / 1000)))
  <= 12.
Proof.
  intros m p.
  destruct (acceleration_speed_capped m p (1 / 1000)) as (H & _).
  - simpl. lra.
  - intros H. discriminate H.
  - reflexivity.
  - exact H.
Defined.

(** ** The player's health *)

Lemma healthCall_sound (c : HealthCall) (h : PlayerM.Health) :
  0 <= amountOf c -> healthSound h -> 0 < PlayerM.maxHealth h ->
  healthSound (healthCall c h)
  /\ PlayerM.maxHealth (healthCall c h) = PlayerM.maxHealth h.
Proof.
  intros Ha Hs Hm.
  destruct c as [amount now | amount |]; cbn [healthCall amountOf] in *.
  - unfold PlayerM.takeDamage. cbv zeta.
    destruct (ltb (now - PlayerM.lastDamageTime h) _);
      [split; [assumption | reflexivity] |].
    destruct (PlayerM.isDead h) eqn:Hd; [split; [assumption | reflexivity] |].
    unfold healthSound in Hs. rewrite Hd in Hs.
    destruct (Rle_dec (PlayerM.health h - amount) 0) as [E | E].
    + rewrite leb_le by assumption. split; reflexivity.
    + rewrite leb_gt by lra. unfold healthSound. simpl.
      split; [lra | reflexivity].
  - unfold PlayerM.heal.
    destruct (PlayerM.isDead h) eqn:Hd; [split; [assumption | reflexivity] |].
    unfold healthSound in *. rewrite Hd in Hs. simpl.
    split; [| reflexivity].
    split; [apply Rmin_glb_lt; lra | apply Rmin_r].
  - unfold healthSound. simpl. split; [lra | reflexivity].
Qed.

(** X25: under any sequence of [takeDamage], [heal] and [respawn] calls
    with non-negative amounts, a player with positive [maxHealth] who starts
    sound stays sound: alive with health in (0, maxHealth], or dead with
    health 0; [maxHealth] never changes. *)
Theorem health_stays_sound (cs : list HealthCall) :
  forall h : PlayerM.Health,
    Forall (fun c => 0 <= amountOf c) cs ->
    healthSound h -> 0 < PlayerM.maxHealth h ->
    healthSound (healthCalls cs h)
    /\ PlayerM.maxHealth (healthCalls cs h) = PlayerM.maxHealth h.
Proof.
  unfold healthCalls.
  induction cs as [| c rest IH]; intros h Ha Hs Hm; simpl.
  - auto.
  - assert (Hc := Forall_inv Ha). assert (Hr := Forall_inv_tail Ha).
    destruct (healthCall_sound c h Hc Hs Hm) as [S1 S2].
    destruct (IH (healthCall c h) Hr S1) as [I1 I2]; [lra |].
    split; [assumption | congruence].
Qed.

Lemma health_stays_sound_witness :
  healthSound
    (healthCalls [TakeDamage 60 1000; TakeDamage 60 1200; Heal 70;
                  TakeDamage 200 2000; Heal 10; Respawn]
                 PlayerM.newHealth).
Proof.
  apply (health_stays_sound
           [TakeDamage 60 1000; TakeDamage 60 1200; Heal 70;
            TakeDamage 200 2000; Heal 10; Respawn] PlayerM.newHealth).
  - repeat constructor; simpl; lra.
  - unfold healthSound. simpl. lra.
  - simpl. lra.
Defined.

(** ** The player's planet clipping check *)

Lemma clip_outside (pl : Planet.PlanetBody) (count : nat) (b : Body.PhysicsBody) :
  Planet.radius pl * (9 / 10)
  <= Three.distanceTo (Body.position b) (Planet.center pl) ->
  PlayerM.planetClipCheck (Some pl) count b = (O, b).
Proof.
  intros H. unfold PlayerM.planetClipCheck. cbv zeta.
  rewrite ltb_ge by assumption. reflexivity.
Qed.

(** X26: the planet clipping check of the player's [update], for a body
    closer to the planet's centre than 0.9 radius.  Below the fourth
    consecutive such frame it only counts.  On the fourth it zeroes the
    counter and the velocity and syncs the collider; a body not exactly at
    the centre lands at distance radius + 1 from it, where the next check
    and the world's own emergency correction leave it alone; a body exactly
    at the centre stays at the centre. *)
Theorem clip_reset (pl : Planet.PlanetBody) (count : nat) (b : Body.PhysicsBody) :
  Three.distanceTo (Body.position b) (Planet.center pl)
  < Planet.radius pl * (9 / 10) ->
  let r := PlayerM.planetClipCheck (Some pl) count b in
  ((count < 3)%nat -> r = (S count, b))
  /\ ((3 <= count)%nat ->
      fst r = O
      /\ Body.velocity (snd r) = Three.zero
      /\ colliderSynced (snd r)
      /\ (Body.position b <> Planet.center pl ->
          Three.distanceTo (Body.position (snd r)) (Planet.center pl)
          = Planet.radius pl + 1
          /\ PlayerM.planetClipCheck (Some pl) O (snd r) = (O, snd r)
          /\ Planet.emergencyCorrection pl (snd r) = snd r)
      /\ (Body.position b = Planet.center pl ->
          Body.position (snd r) = Planet.center pl)).
Proof.
  intros Hin r. unfold r, PlayerM.planetClipCheck. cbv zeta.
  rewrite (ltb_lt _ _ Hin).
  assert (Hr : 0 < Planet.radius pl).
  { pose proof (distanceTo_nonneg (Body.position b) (Planet.center pl)). lra. }
  split.
  - intros Hc. destruct (Nat.ltb_spec 3 (S count)) as [E | E]; [lia | reflexivity].
  - intros Hc. destruct (Nat.ltb_spec 3 (S count)) as [E | E]; [| lia].
    cbn [fst snd].
    set (safePos := Three.add (Planet.center pl) _).
    set (b' := Body.syncCollider _).
    split; [reflexivity |]. split; [reflexivity |].
    split; [apply syncCollider_synced |].
    split.
    + intros Hne.
      assert (Hu : Three.lengthSq
                     (Three.normalize
                        (Three.sub (Body.position b) (Planet.center pl))) = 1)
        by (apply lengthSq_normalize, sub_nonzero; assumption).
      assert (Hd : Three.distanceTo (Body.position b') (Planet.center pl)
                   = Planet.radius pl + 1).
      { rewrite distanceTo_length.
        change (Body.position b') with safePos. unfold safePos.
        apply length_offset_unit; [assumption | lra]. }
      split; [assumption |]. split.
      * apply clip_outside. rewrite Hd. lra.
      * unfold Planet.emergencyCorrection. cbv zeta.
        change (Three.length (Three.subVectors (Body.position b') (Planet.center pl)))
          with (Three.distanceTo (Body.position b') (Planet.center pl)).
        rewrite Hd. rewrite ltb_ge by lra. reflexivity.
    + intros He. change (Body.position b') with safePos. unfold safePos.
      rewrite He.
      replace (Three.sub (Planet.center pl) (Planet.center pl)) with Three.zero
        by (apply vec3_eq; simpl; ring).
      rewrite normalize_zero. apply vec3_eq; simpl; ring.
Qed.

Lemma clip_reset_witness :
  let b := unitBody (vec3 0 10 0) (vec3 0 (-5) 0) Three.zero Three.zero false in
  Three.distanceTo
    (Body.position (snd (PlayerM.planetClipCheck (Some planet20) 3 b)))
    (Planet.center planet20)
  = Planet.radius planet20 + 1.
Proof.
  intros b.
  assert (Hd : Three.distanceTo (Body.position b) (Planet.center planet20) = 10).
  { rewrite distanceTo_length.
    replace (Three.sub (Body.position b) (Planet.center planet20))
      with (vec3 0 10 0) by (apply vec3_eq; simpl; ring).
    apply length_y. lra. }
  destruct (clip_reset planet20 3 b) as (_ & H).
  - rewrite Hd. simpl. lra.
  - destruct (H (le_n 3)) as (_ & _ & _ & H1 & _).
    destruct H1 as (H2 & _).
    + simpl. unfold Three.zero. intros E. injection E as E. lra.
    + exact H2.
Defined.

(** X27: after a sub-step of a world whose only dynamic body uses gravity
    and whose static bodies are planets, on a planet with safe distance 0.9
    radius above epsilon, the player's clipping check finds the body outside
    and zeroes its counter, whatever the counter was (as long as velocity
    integration did not put the body exactly at the centre). *)
Theorem clip_check_idle_after_substep (t : R) (w : World.PhysicsWorld)
        (p : Planet.PlanetBody) (b : Body.PhysicsBody) (count : nat) :
  World.planetBody w = Some p ->
  World.bodies w = [b] ->
  Forall (fun s => Body.isPlanet s = true) (World.staticBodies w) ->
  Planet.minSafeDistance p = Planet.radius p * (9 / 10) ->
  0 < Planet.epsilon p < Planet.minSafeDistance p ->
  0 <= opt_or (Body.radius b) (5 / 10) ->
  Body.usesGravity b = true ->
  Body.position (Body.integrateVelocity (Planet.emergencyCorrection p b) t)
  <> Planet.center p ->
  exists b',
    World.bodies (World.fixedUpdate t w) = [b']
    /\ PlayerM.planetClipCheck (World.planetBody (World.fixedUpdate t w)) count b'
       = (O, b').
Proof.
  intros Hp Hb Hs Hm He Hr Hg Hne.
  destruct (fixedUpdate_single_outside t w p b Hp Hb Hs He Hr Hg Hne)
    as (b' & B1 & B2).
  exists b'. split; [assumption |].
  destruct (fixedUpdate_fields t w) as (F1 & _). cbv zeta in F1.
  rewrite F1, Hp. apply clip_outside. rewrite <- Hm. assumption.
Qed.

Lemma clip_check_idle_after_substep_witness :
  let b := unitBody (vec3 0 10 0) Three.zero Three.zero Three.zero false in
  exists b',
    World.bodies (World.fixedUpdate (1 / 60) (planetWorld b)) = [b']
    /\ PlayerM.planetClipCheck
         (World.planetBody (World.fixedUpdate (1 / 60) (planetWorld b))) 3 b'
       = (O, b').
Proof.
  intros b.
  apply (clip_check_idle_after_substep (1 / 60) (planetWorld b) planet20 b 3).
  - reflexivity.
  - reflexivity.
  - repeat constructor.
  - reflexivity.
  - simpl. lra.
  - simpl. rewrite num_or_nonzero by lra. lra.
  - reflexivity.
  - unfold b. rewrite emergencyCorrection_on_axis by lra.
    rewrite integrateVelocity_at_rest. simpl.
    unfold Three.zero. intros E. injection E as E. lra.
Defined.

(** ** Spawn points *)

Lemma atFloor_in_range {A : Type} (l : list A) (x : R) :
  0 <= x < INR (List.length l) ->
  exists a, EnemyManager.atFloor l x = Some a /\ In a l.
Proof.
  intros [H0 H1]. unfold EnemyManager.atFloor. cbv zeta.
  destruct (base_Int_part x) as [B1 B2].
  assert (Hi0 : (0 <= Int_part x)%Z).
  { assert (H : (-1 < Int_part x)%Z) by (apply lt_IZR; simpl; lra). lia. }
  assert (Hi1 : (Int_part x < Z.of_nat (List.length l))%Z).
  { apply lt_IZR. rewrite <- INR_IZR_INZ. lra. }
  destruct (Z.ltb_spec (Int_part x) 0) as [E | E]; [lia |].
  assert (Hn : (Z.to_nat (Int_part x) < List.length l)%nat) by lia.
  destruct (nth_error l (Z.to_nat (Int_part x))) as [a |] eqn:En.
  - exists a. split; [reflexivity |]. eapply nth_error_In. exact En.
  - apply nth_error_None in En. lia.
Qed.

Lemma distance_on_circle (c : Vector3) (angle d : R) :
  0 <= d ->
  Three.distanceTo
    (vec3 (vx c + cos angle * d) (vy c) (vz c + sin angle * d)) c = d.
Proof.
  intros Hd. unfold Three.distanceTo, Three.distanceToSquared, Three.lengthSq,
    Three.dot, Three.sub. simpl.
  pose proof (sin2_cos2 angle) as H. unfold Rsqr in H.
  replace ((vx c + cos angle * d - vx c) * (vx c + cos angle * d - vx c)
           + (vy c - vy c) * (vy c - vy c)
           + (vz c + sin angle * d - vz c) * (vz c + sin angle * d - vz c))
    with ((sin angle * sin angle + cos angle * cos angle) * (d * d)) by ring.
  rewrite H, Rmult_1_l. apply sqrt_square. assumption.
Qed.

(** X28: for random draws r1 in [0, 1) and r2 >= 0, [getValidSpawnPoint]
    always returns a point, more than 15 away from the player: one of the
    predefined spawn points, or, when none of them is that far, a point at
    the player's height at distance 20 + 10 * r2. *)
Theorem spawn_point_away (spawnPoints : list Vector3) (playerPosition : Vector3)
        (r1 r2 : R) :
  0 <= r1 < 1 -> 0 <= r2 ->
  exists q,
    EnemyManager.getValidSpawnPoint spawnPoints playerPosition r1 r2 = Some q
    /\ 15 < Three.distanceTo q playerPosition
    /\ (In q spawnPoints
        \/ (Forall (fun s => Three.distanceTo s playerPosition <= 15) spawnPoints
            /\ vy q = vy playerPosition
            /\ Three.distanceTo q playerPosition = 20 + r2 * 10)).
Proof.
  intros Hr1 Hr2. unfold EnemyManager.getValidSpawnPoint. cbv zeta.
  set (far := fun point => ltb 15 (Three.distanceTo point playerPosition)).
  destruct (filter far spawnPoints) as [| s0 rest] eqn:Ef.
  - eexists. split; [reflexivity |].
    rewrite distance_on_circle by lra.
    split; [lra |]. right. split; [| split; reflexivity].
    apply Forall_forall. intros s Hs.
    destruct (Rle_dec (Three.distanceTo s playerPosition) 15) as [E | E];
      [assumption |].
    exfalso.
    assert (Hin : In s (filter far spawnPoints)).
    { apply filter_In. split; [assumption |]. unfold far. apply ltb_lt. lra. }
    rewrite Ef in Hin. contradiction.
  - destruct (atFloor_in_range (s0 :: rest)
                (r1 * INR (List.length (s0 :: rest)))) as (q & Hq & Hin).
    { assert (Hn : 0 < INR (List.length (s0 :: rest))).
      { apply lt_0_INR. simpl. lia. }
      split; [apply Rmult_le_pos; lra | nra]. }
    exists q. split; [exact Hq |].
    rewrite <- Ef in Hin. apply filter_In in Hin. destruct Hin as [Hin Hfar].
    unfold far in Hfar. apply ltb_true_iff in Hfar.
    split; [assumption | left; assumption].
Qed.

Lemma spawn_point_away_witness :
  exists q,
    EnemyManager.getValidSpawnPoint [vec3 1 0 0; vec3 30 0 0] Three.zero
                                    (1 / 2) (1 / 4) = Some q
    /\ 15 < Three.distanceTo q Three.zero.
Proof.
  destruct (spawn_point_away [vec3 1 0 0; vec3 30 0 0] Three.zero
                             (1 / 2) (1 / 4)) as (q & H1 & H2 & _).
  - lra.
  - lra.
  - exists q. split; assumption.
Defined.

(** ** Projection onto the tangent plane *)

(** X29: for a unit plane normal, [projectVectorToPlane] returns a vector
    orthogonal to the normal and no longer than the one it was given,
    leaves a vector of the plane as it is, and so changes nothing when
    applied twice. *)
Theorem projection_tangential (v n : Vector3) :
  Three.lengthSq n = 1 ->
  let q := Movement.projectVectorToPlane v n in
  Three.dot q n = 0
  /\ Three.length q <= Three.length v
  /\ (Three.dot v n = 0 -> q = v)
  /\ Movement.projectVectorToPlane q n = q.
Proof.
  intros Hn q.
  assert (Hq : Three.dot q n = 0) by (apply project_tangent; assumption).
  assert (Hfix : forall u, Three.dot u n = 0 ->
                           Movement.projectVectorToPlane u n = u).
  { intros u Hu. unfold Movement.projectVectorToPlane. cbv zeta. rewrite Hu.
    apply vec3_eq; simpl; ring. }
  split; [assumption |].
  split; [apply project_shorter; assumption |].
  split; [apply Hfix | apply Hfix; assumption].
Qed.

Lemma projection_tangential_witness :
  Three.dot (Movement.projectVectorToPlane (vec3 3 4 5) (vec3 0 1 0))
            (vec3 0 1 0) = 0.
Proof.
  destruct (projection_tangential (vec3 3 4 5) (vec3 0 1 0)) as (H & _).
  - unfold Three.lengthSq, Three.dot. simpl. ring.
  - exact H.
Defined.
